(** * excel-reader: the upload-and-transform pipeline

    A shallow embedding of [server/index.js] (the Express upload endpoint,
    its multer configuration and its error middleware) and of the helpers of
    [src/components/FileUploader.tsx] ([validateFile], [uploadFile], the
    drop and select handlers and the branch selection of
    [renderDataPreview]).

    Conventions of the model:
    - A [string] is a JavaScript string all of whose code units are below
      256, one [ascii] per code unit.  [toLowerCase] maps the capitals of
      that range (A-Z and U+00C0..U+00DE without U+00D7) as the language
      does; names with code units from U+0100 on are outside the model.
    - An ordinary JavaScript object is the list of its properties in creation
      order; [Object_keys] enumerates it the way the language does (array
      index keys first, ascending, then the other keys in creation order).
    - The file system is the set of paths that exist ([gset string]); whether
      the operating system lets a file be unlinked is part of the
      environment.
    - The external parsers (csv-parser, SheetJS) are parameters of the model:
      they map a path to a parsed value or to a thrown error; the stream that
      feeds csv-parser can also fail on its own, which nothing listens for.
    - Handlers run in a small state-and-exception monad whose state is the
      file system plus the log of observable events.  A run either completes
      (normally or by throwing) or ends the Node process.
    - A request is a multipart body that arrives in full and whose file part
      the disk storage manages to write; a connection cut short and a failing
      disk are outside the model. *)

From Stdlib Require Import ZArith Ascii String List Lia Bool Sorted Permutation.
From stdpp Require Import base gmap strings list pretty.

Local Open Scope Z_scope.

#[local] Set Warnings "-clear-no-such-hyp".

(* ===================================================================== *)
(** ** JavaScript strings *)
(* ===================================================================== *)

Module JSString.

(** The capitals among the code units below 256: A-Z, and U+00C0..U+00DE
    except the multiplication sign U+00D7.  Each has its small letter 32
    places further on. *)
Definition is_upper (c : ascii) : bool :=
  let n := N_of_ascii c in
  (((65 <=? n) && (n <=? 90))
   || ((192 <=? n) && (n <=? 222) && negb (n =? 215)))%N.

(** The small letters whose capital is again below 256: a-z, and
    U+00E0..U+00FE except the division sign U+00F7.  (U+00B5, U+00DF and
    U+00FF have capitals outside the range; [toUpperCase] is only ever
    applied to an extension, and reaches a response only when that extension
    is .csv, .xls or .xlsx.) *)
Definition is_lower (c : ascii) : bool :=
  let n := N_of_ascii c in
  (((97 <=? n) && (n <=? 122))
   || ((224 <=? n) && (n <=? 254) && negb (n =? 247)))%N.

Definition lower_char (c : ascii) : ascii :=
  if is_upper c then ascii_of_N (N_of_ascii c + 32) else c.

Definition upper_char (c : ascii) : ascii :=
  if is_lower c then ascii_of_N (N_of_ascii c - 32) else c.

Fixpoint map_chars (f : ascii -> ascii) (s : string) : string :=
  match s with
  | EmptyString => EmptyString
  | String c r => String (f c) (map_chars f r)
  end.

(** [s.toLowerCase()] *)
Definition toLowerCase : string -> string := map_chars lower_char.

(** [s.toUpperCase()] *)
Definition toUpperCase : string -> string := map_chars upper_char.

(** [s.substring(1)] *)
Definition substring1 (s : string) : string :=
  match s with
  | EmptyString => EmptyString
  | String _ r => r
  end.

(** [s.endsWith(suffix)] *)
Definition endsWith (s suffix : string) : bool :=
  let n := String.length s in
  let m := String.length suffix in
  (m <=? n)%nat && String.eqb (String.substring (n - m) m s) suffix.

(** [list.includes(x)] on an array of strings *)
Definition includes (l : list string) (x : string) : bool :=
  existsb (String.eqb x) l.

(** [s || dflt] : the empty string is falsy *)
Definition or_default (s dflt : string) : string :=
  match s with
  | EmptyString => dflt
  | _ => s
  end.

(** Number-to-string conversion of a non-negative integer *)
Definition of_N (n : N) : string := pretty n.

End JSString.

Import JSString.

(* ===================================================================== *)
(** ** [path.extname] (POSIX flavour of Node's [path] module) *)
(* ===================================================================== *)

Module Path.

Definition CHAR_FORWARD_SLASH : ascii := "/"%char.
Definition CHAR_DOT : ascii := "."%char.

(** The loop variables of [extname]. *)
Record scan := {
  startDot : Z;
  startPart : Z;
  end_ : Z;
  matchedSlash : bool;
  preDotState : Z
}.

Definition scan0 : scan :=
  {| startDot := -1; startPart := 0; end_ := -1;
     matchedSlash := true; preDotState := 0 |}.

(** One iteration on the character [code] at index [i] that is not a path
    separator. *)
Definition scan_char (i : Z) (code : ascii) (st : scan) : scan :=
  let st1 :=
    if end_ st =? -1
    then {| startDot := startDot st; startPart := startPart st;
            end_ := i + 1; matchedSlash := false;
            preDotState := preDotState st |}
    else st in
  if Ascii.eqb code CHAR_DOT then
    if startDot st1 =? -1
    then {| startDot := i; startPart := startPart st1; end_ := end_ st1;
            matchedSlash := matchedSlash st1;
            preDotState := preDotState st1 |}
    else if negb (preDotState st1 =? 1)
    then {| startDot := startDot st1; startPart := startPart st1;
            end_ := end_ st1; matchedSlash := matchedSlash st1;
            preDotState := 1 |}
    else st1
  else if negb (startDot st1 =? -1)
  then {| startDot := startDot st1; startPart := startPart st1;
          end_ := end_ st1; matchedSlash := matchedSlash st1;
          preDotState := -1 |}
  else st1.

(** [for (let i = path.length - 1; i >= 0; --i)]: [rev_chars] holds the
    characters at indices [i], [i-1], ..., [0]. *)
Fixpoint scan_loop (rev_chars : list ascii) (i : Z) (st : scan) : scan :=
  match rev_chars with
  | [] => st
  | code :: rest =>
      if Ascii.eqb code CHAR_FORWARD_SLASH then
        if negb (matchedSlash st)
        then {| startDot := startDot st; startPart := i + 1;
                end_ := end_ st; matchedSlash := matchedSlash st;
                preDotState := preDotState st |}
        else scan_loop rest (i - 1) st
      else scan_loop rest (i - 1) (scan_char i code st)
  end.

(** [path.slice(a, b)] for [0 <= a <= b] *)
Definition slice (chars : list ascii) (a b : Z) : list ascii :=
  firstn (Z.to_nat (b - a)) (skipn (Z.to_nat a) chars).

Definition extname_chars (chars : list ascii) : list ascii :=
  let st := scan_loop (rev chars) (Z.of_nat (List.length chars) - 1) scan0 in
  if (startDot st =? -1) || (end_ st =? -1) || (preDotState st =? 0)
     || ((preDotState st =? 1)
         && (startDot st =? end_ st - 1)
         && (startDot st =? startPart st + 1))
  then []
  else slice chars (startDot st) (end_ st).

Definition extname (p : string) : string :=
  string_of_list_ascii (extname_chars (list_ascii_of_string p)).

(** What the scan of [chars] knows before it looks at index [i]: where the
    extension ends, and that [startDot] points at a dot before that end. *)
Definition scan_inv (chars : list ascii) (i : Z) (st : scan) : Prop :=
  (end_ st = -1 \/ (i < end_ st /\ end_ st <= Z.of_nat (List.length chars)))
  /\ (startDot st = -1
      \/ (0 <= startDot st < end_ st
          /\ nth_error chars (Z.to_nat (startDot st)) = Some CHAR_DOT)).

End Path.

(* ===================================================================== *)
(** ** Ordinary JavaScript objects *)
(* ===================================================================== *)

Module JSObject.

(** The properties of an object, in the order they were created. *)
Definition t (V : Type) : Type := list (string * V).

Definition empty {V} : t V := [].

(** [o[k]] *)
Fixpoint get {V} (k : string) (o : t V) : option V :=
  match o with
  | [] => None
  | (k', v) :: r => if String.eqb k k' then Some v else get k r
  end.

(** Assignment to an own property: an existing property keeps its place, a
    new one is created last. *)
Fixpoint set_own {V} (k : string) (v : V) (o : t V) : t V :=
  match o with
  | [] => [(k, v)]
  | (k', v') :: r =>
      if String.eqb k k' then (k', v) :: r else (k', v') :: set_own k v r
  end.

(** [o[k] = v].  Assigning to [__proto__] goes to the inherited setter and
    creates no own property. *)
Definition set {V} (k : string) (v : V) (o : t V) : t V :=
  if String.eqb k "__proto__" then o else set_own k v o.

(** The property names in creation order. *)
Definition creation_order {V} (o : t V) : list string := map fst o.

Definition digit_of (c : ascii) : option N :=
  let n := N_of_ascii c in
  if ((48 <=? n) && (n <=? 57))%N then Some (n - 48)%N else None.

Fixpoint parse_digits (s : string) (acc : N) : option N :=
  match s with
  | EmptyString => Some acc
  | String c r =>
      match digit_of c with
      | Some d => parse_digits r (acc * 10 + d)%N
      | None => None
      end
  end.

(** A property name is an array index when it is the canonical decimal
    form of an integer below 2^32 - 1. *)
Definition array_index (k : string) : option N :=
  match k with
  | EmptyString => None
  | _ =>
      match parse_digits k 0 with
      | Some n =>
          if String.eqb (of_N n) k && (n <? 2 ^ 32 - 1)%N
          then Some n else None
      | None => None
      end
  end.

Definition is_array_index (k : string) : bool :=
  match array_index k with Some _ => true | None => false end.

Fixpoint insert_by_index (x : N * string) (l : list (N * string))
  : list (N * string) :=
  match l with
  | [] => [x]
  | y :: r =>
      if (fst x <=? fst y)%N then x :: l else y :: insert_by_index x r
  end.

Definition sort_by_index (l : list (N * string)) : list (N * string) :=
  fold_right insert_by_index [] l.

Fixpoint index_keys (ks : list string) : list (N * string) :=
  match ks with
  | [] => []
  | k :: r =>
      match array_index k with
      | Some n => (n, k) :: index_keys r
      | None => index_keys r
      end
  end.

Definition named_keys (ks : list string) : list string :=
  List.filter (fun k => negb (is_array_index k)) ks.

(** [Object.keys(o)]: array indices in ascending numeric order, then the
    remaining names in creation order. *)
Definition Object_keys {V} (o : t V) : list string :=
  map snd (sort_by_index (index_keys (creation_order o)))
  ++ named_keys (creation_order o).

End JSObject.

(* ===================================================================== *)
(** ** Data model *)
(* ===================================================================== *)

Inductive Cell : Type :=
  | CStr (s : string)
  | CNum (z : Z)
  | CBool (b : bool).

(** A row-mapping: column name to cell value. *)
Definition Row : Type := JSObject.t Cell.

(** What the handler sends back as [data]. *)
Inductive ParsedTable : Type :=
  | Delimited (rows : list Row)
  | Workbook (sheets : JSObject.t (list Row)).

(** [processingInfo]; the format-specific fields are optional. *)
Record ProcessingInfo := {
  fileName : string;
  fileSize : string;
  fileType : string;
  processedAt : string;
  rowCount : option nat;
  columns : option (list string);
  sheetCount : option nat;
  sheetNames : option (list string);
  totalRows : option nat
}.

(** The JSON body of a response of the upload endpoint. *)
Record UploadResponse := {
  success : bool;
  message : string;
  data : option ParsedTable;
  processingInfo : option ProcessingInfo
}.

Record HttpResponse := {
  status : nat;
  body : UploadResponse
}.

(** [{ success: false, message }] *)
Definition failure (msg : string) : UploadResponse :=
  {| success := false; message := msg; data := None; processingInfo := None |}.

(** Thrown values: [Error] has no code, [multer.MulterError] has one. *)
Record JSError := {
  multer_code : option string;
  err_message : string
}.

Definition Error (msg : string) : JSError :=
  {| multer_code := None; err_message := msg |}.

Definition MulterError (code msg : string) : JSError :=
  {| multer_code := Some code; err_message := msg |}.

Inductive completion (A : Type) : Type :=
  | Normal (a : A)
  | Throw (e : JSError).
Arguments Normal {A} a.
Arguments Throw {A} e.

(** How a run of server code ends: the code completes, or an ['error']
    event that has no listener is thrown out of the event loop, which no
    [catch] of the code sees, and the Node process exits. *)
Inductive ending (A : Type) : Type :=
  | Completes (c : completion A)
  | Exits (e : JSError).
Arguments Completes {A} c.
Arguments Exits {A} e.

(* ===================================================================== *)
(** ** The effect monad: file system, event log, exceptions *)
(* ===================================================================== *)

Inductive Event : Type :=
  | EvProcessCSV (path : string)
  | EvProcessExcel (path : string)
  | EvUnlink (path : string)
  | EvSend (r : HttpResponse).

Record World := {
  files : gset string;
  trace : list Event
}.

Definition M (A : Type) : Type := World -> ending A * World.

Definition ret {A} (a : A) : M A := fun w => (Completes (Normal a), w).

Definition bind {A B} (m : M A) (k : A -> M B) : M B :=
  fun w =>
    match m w with
    | (Completes (Normal a), w') => k a w'
    | (Completes (Throw e), w') => (Completes (Throw e), w')
    | (Exits e, w') => (Exits e, w')
    end.

Definition throw {A} (e : JSError) : M A := fun w => (Completes (Throw e), w).

(** [try { body } catch (e) { handler(e) }] *)
Definition try_catch {A} (body : M A) (handler : JSError -> M A) : M A :=
  fun w =>
    match body w with
    | (Completes (Normal a), w') => (Completes (Normal a), w')
    | (Completes (Throw e), w') => handler e w'
    | (Exits e, w') => (Exits e, w')
    end.

(** The outcome of a call into an external library. *)
Definition lift {A} (c : completion A) : M A := fun w => (Completes c, w).

(** The outcome of waiting for streams that an external library drives. *)
Definition await {A} (r : ending A) : M A := fun w => (r, w).

Definition emit (ev : Event) : M unit :=
  fun w =>
    (Completes (Normal tt), {| files := files w; trace := trace w ++ [ev] |}).

Declare Scope js_scope.
Delimit Scope js_scope with js.
Notation "x <- m ;; k" := (bind m (fun x => k))
  (at level 100, m at next level, right associativity) : js_scope.
Notation "m ;;; k" := (bind m (fun _ => k))
  (at level 100, right associativity) : js_scope.
Local Open Scope js_scope.

(** [res.status(code).json(body)] *)
Definition res_status_json (code : nat) (b : UploadResponse) : M unit :=
  emit (EvSend {| status := code; body := b |}).

(** [res.json(body)] answers with the default status. *)
Definition res_json (b : UploadResponse) : M unit :=
  res_status_json 200 b.

(* ===================================================================== *)
(** ** The external libraries and the environment *)
(* ===================================================================== *)

(** A worksheet as SheetJS holds it: a grid of cells. *)
Definition Worksheet : Type := list (list Cell).

(** [workbook.SheetNames] and [workbook.Sheets]. *)
Record WorkBook := {
  SheetNames : list string;
  Sheets : JSObject.t Worksheet
}.

(** Everything the server takes from outside its own source file. *)
Record Env := {
  (** directory of the temp files, [path.join(__dirname, 'uploads')] *)
  uploadsDir : string;
  (** [Date.now()] and [Math.round(Math.random() * 1E9)] *)
  date_now : N;
  random_1e9 : N;
  (** [new Date().toISOString()] *)
  now_iso : string;
  (** [fs.createReadStream(p).pipe(csvParser())] for the file at a path:
      the rows that the parser stream has emitted when it ends
      ([Completes (Normal rows)]), the ['error'] of the parser stream
      ([Completes (Throw e)]), or the ['error'] of the read stream, which
      [pipe] does not forward and for which [processCSV] registers no
      listener ([Exits e]) *)
  csvParser : string -> ending (list Row);
  (** [XLSX.readFile] and [XLSX.read], when the library build has them *)
  XLSX_readFile : option (string -> completion WorkBook);
  XLSX_read : option (string -> completion WorkBook);
  (** [XLSX.utils.sheet_to_json] *)
  sheet_to_json : option Worksheet -> completion (list Row);
  (** [fs.readFileSync] *)
  readFileSync : string -> completion string;
  (** [fs.unlinkSync] on a file that exists: the error with which the
      operating system refuses to remove it (EPERM, EBUSY, ...), if it
      does *)
  unlink_error : string -> option JSError
}.

Module Fs.

(** [fs.existsSync(p)] *)
Definition existsSync (p : string) : M bool :=
  fun w => (Completes (Normal (bool_decide (p ∈ files w))), w).

(** [fs.unlinkSync(p)]: throws when there is nothing to unlink, and when
    the file is there but may not be removed. *)
Definition unlinkSync (env : Env) (p : string) : M unit :=
  fun w =>
    if decide (p ∈ files w)
    then match unlink_error env p with
         | None =>
             (Completes (Normal tt),
              {| files := files w ∖ {[p]}; trace := trace w ++ [EvUnlink p] |})
         | Some e => (Completes (Throw e), w)
         end
    else (Completes (Throw (Error ("ENOENT: no such file or directory, unlink '"
                                   +:+ p +:+ "'"))), w).

End Fs.

(* ===================================================================== *)
(** ** server/index.js *)
(* ===================================================================== *)

(** The file part of a multipart request, as multer sees it before it is
    stored. *)
Record IncomingFile := {
  in_fieldname : string;
  in_originalname : string;
  in_mimetype : string;
  in_size : N
}.

(** [req.file] once multer has stored the upload. *)
Record MulterFile := {
  fieldname : string;
  originalname : string;
  mimetype : string;
  size : N;
  filename : string;
  path : string
}.

Module Server.

(** [limits.fileSize] *)
Definition fileSize_limit : N := 10 * 1024 * 1024.

Definition allowedTypes : list string :=
  [ "text/csv";
    "application/vnd.ms-excel";
    "application/vnd.openxmlformats-officedocument.spreadsheetml.sheet";
    "application/csv" ].

Definition allowedExtensions : list string := [".csv"; ".xls"; ".xlsx"].

Definition invalid_type_message : string :=
  "Invalid file type. Only CSV and Excel files are allowed.".

Definition too_large_message : string :=
  "File too large. Maximum size allowed is 10MB.".

(** [fileFilter]: [Normal true] is [cb(null, true)], [Throw e] is
    [cb(e, false)]. *)
Definition fileFilter (file : IncomingFile) : completion bool :=
  let fileExtension := toLowerCase (Path.extname (in_originalname file)) in
  if includes allowedTypes (in_mimetype file)
     || includes allowedExtensions fileExtension
  then Normal true
  else Throw (Error invalid_type_message).

(** [storage.filename] *)
Definition storage_filename (env : Env) (file : IncomingFile) : string :=
  let uniqueSuffix :=
    of_N (date_now env) +:+ "-" +:+ of_N (random_1e9 env) in
  in_fieldname file +:+ "-" +:+ uniqueSuffix
    +:+ Path.extname (in_originalname file).

(** [req.file] as the disk storage fills it in: the file lands in
    [uploadsDir] under the generated name. *)
Definition stored_file (env : Env) (file : IncomingFile) : MulterFile :=
  let name := storage_filename env file in
  {| fieldname := in_fieldname file;
     originalname := in_originalname file;
     mimetype := in_mimetype file;
     size := in_size file;
     filename := name;
     path := uploadsDir env +:+ "/" +:+ name |}.

(** [upload.single('file')].  multer first checks the field name, then
    asks [fileFilter], then streams the part to [storage].  The multipart
    parser counts the bytes of the part and raises its limit event as soon
    as the count reaches [limits.fileSize], so a part of exactly that many
    bytes is already refused; multer then aborts with [LIMIT_FILE_SIZE] and
    removes what was written.  A thrown error stands for [next(err)].  The
    part is taken to arrive in full and to be written without a disk
    error. *)
Definition upload_single (env : Env) (req : option IncomingFile)
  : M (option MulterFile) :=
  match req with
  | None => ret None
  | Some file =>
      if negb (String.eqb (in_fieldname file) "file")
      then throw (MulterError "LIMIT_UNEXPECTED_FILE" "Unexpected field")
      else
        _ <- lift (fileFilter file) ;;
        if (fileSize_limit <=? in_size file)%N
        then throw (MulterError "LIMIT_FILE_SIZE" "File too large")
        else
          let stored := stored_file env file in
          fun w =>
            (Completes (Normal (Some stored)),
             {| files := files w ∪ {[path stored]}; trace := trace w |})
  end.

(** [processCSV], awaited.  The promise resolves at the ['end'] of the
    parser stream and is rejected at its ['error']; the ['error'] listener
    sits on what [pipe] returns, so an error of the read stream itself has
    no listener: the promise is never settled and the process exits. *)
Definition processCSV (env : Env) (filePath : string) : M (list Row) :=
  emit (EvProcessCSV filePath) ;;;
  await (csvParser env filePath).

(** The body of [sheetNames.forEach(...)] in [processExcel]. *)
Fixpoint forEach_sheet (env : Env) (workbook : WorkBook)
    (names : list string) (result : JSObject.t (list Row))
  : M (JSObject.t (list Row)) :=
  match names with
  | [] => ret result
  | sheetName :: rest =>
      let worksheet := JSObject.get sheetName (Sheets workbook) in
      jsonData <- lift (sheet_to_json env worksheet) ;;
      forEach_sheet env workbook rest (JSObject.set sheetName jsonData result)
  end.

Definition processExcel (env : Env) (filePath : string)
  : M (JSObject.t (list Row)) :=
  try_catch
    (emit (EvProcessExcel filePath) ;;;
     workbook <-
       match XLSX_readFile env with
       | Some readFile => lift (readFile filePath)
       | None =>
           match XLSX_read env with
           | Some read =>
               fileBuffer <- lift (readFileSync env filePath) ;;
               lift (read fileBuffer)
           | None => throw (Error "XLSX library methods not available")
           end
       end ;;
     forEach_sheet env workbook (SheetNames workbook) JSObject.empty)
    (fun error =>
       throw (Error ("Error processing Excel file: " +:+ err_message error))).

(** [(size / 1024).toFixed(2)]: the quotient is exact in binary floating
    point, and [toFixed] rounds it to the nearest hundredth, ties up. *)
Definition toFixed2_div1024 (n : N) : string :=
  let h := ((n * 200 + 1024) / 2048)%N in
  let frac := (h mod 100)%N in
  of_N (h / 100) +:+ "."
    +:+ (if (frac <? 10)%N then "0" +:+ of_N frac else of_N frac).

(** The [forEach] that accumulates [totalRows] over
    [Object.keys(fileData)]; reading [length] of a missing entry throws. *)
Fixpoint sum_rows (fileData : JSObject.t (list Row)) (names : list string)
    (totalRows : nat) : M nat :=
  match names with
  | [] => ret totalRows
  | sheetName :: rest =>
      match JSObject.get sheetName fileData with
      | Some sheetData =>
          sum_rows fileData rest (totalRows + List.length sheetData)%nat
      | None =>
          throw (Error "Cannot read properties of undefined (reading 'length')")
      end
  end.

(** The clean-up block, the same text on both paths of the handler. *)
Definition cleanup (env : Env) (filePath : string) : M unit :=
  present <- Fs.existsSync filePath ;;
  if present then Fs.unlinkSync env filePath else ret tt.

(** The parse-and-summarize part of the inner [try] block. *)
Definition process (env : Env) (file : MulterFile)
    (fileExtension : string) (info : ProcessingInfo)
  : M (ParsedTable * ProcessingInfo) :=
  if String.eqb fileExtension ".csv" then
    fileData <- processCSV env (path file) ;;
    ret (Delimited fileData,
         {| fileName := fileName info; fileSize := fileSize info;
            fileType := fileType info; processedAt := processedAt info;
            rowCount := Some (List.length fileData);
            columns := Some (match fileData with
                             | first :: _ => JSObject.Object_keys first
                             | [] => []
                             end);
            sheetCount := sheetCount info; sheetNames := sheetNames info;
            totalRows := totalRows info |})
  else if includes [".xlsx"; ".xls"] fileExtension then
    fileData <- processExcel env (path file) ;;
    let names := JSObject.Object_keys fileData in
    total <- sum_rows fileData names 0%nat ;;
    ret (Workbook fileData,
         {| fileName := fileName info; fileSize := fileSize info;
            fileType := fileType info; processedAt := processedAt info;
            rowCount := rowCount info; columns := columns info;
            sheetCount := Some (List.length names);
            sheetNames := Some names;
            totalRows := Some total |})
  else throw (Error ("Unsupported file type: " +:+ fileExtension)).

Definition initial_info (env : Env) (file : MulterFile)
    (fileExtension : string) : ProcessingInfo :=
  {| fileName := originalname file;
     fileSize := toFixed2_div1024 (size file) +:+ " KB";
     fileType := substring1 (toUpperCase fileExtension);
     processedAt := now_iso env;
     rowCount := None; columns := None;
     sheetCount := None; sheetNames := None; totalRows := None |}.

(** The handler of [POST /api/upload]. *)
Definition upload_handler (env : Env) (req_file : option MulterFile)
  : M unit :=
  try_catch
    (match req_file with
     | None => res_status_json 400 (failure "No file uploaded")
     | Some file =>
         let filePath := path file in
         let fileExtension := toLowerCase (Path.extname (originalname file)) in
         let info := initial_info env file fileExtension in
         try_catch
           (r <- process env file fileExtension info ;;
            cleanup env filePath ;;;
            res_json {| success := true;
                        message := "File processed successfully";
                        data := Some (fst r);
                        processingInfo := Some (snd r) |})
           (fun processingError =>
              cleanup env filePath ;;;
              res_status_json 500
                (failure ("Error processing file: "
                          +:+ err_message processingError)))
     end)
    (fun error =>
       res_status_json 500
         (failure (or_default (err_message error) "Internal server error"))).

(** The error handling middleware. *)
Definition error_middleware (error : JSError) : M unit :=
  match multer_code error with
  | Some code =>
      if String.eqb code "LIMIT_FILE_SIZE"
      then res_status_json 400 (failure too_large_message)
      else res_status_json 500
             (failure (or_default (err_message error) "Internal server error"))
  | None =>
      res_status_json 500
        (failure (or_default (err_message error) "Internal server error"))
  end.

(** [app.post('/api/upload', upload.single('file'), handler)] followed by
    the error middleware. *)
Definition post_api_upload (env : Env) (req : option IncomingFile) : M unit :=
  try_catch
    (req_file <- upload_single env req ;;
     upload_handler env req_file)
    error_middleware.

End Server.

(* ===================================================================== *)
(** ** src/components/FileUploader.tsx *)
(* ===================================================================== *)

(** The fields of a browser [File] that [validateFile] reads. *)
Record BrowserFile := {
  name : string;
  type : string;
  bf_size : N
}.

Module Client.

Definition allowedTypes : list string :=
  [ "text/csv";
    "application/vnd.ms-excel";
    "application/vnd.openxmlformats-officedocument.spreadsheetml.sheet";
    "application/csv" ].

Definition allowedExtensions : list string := [".csv"; ".xls"; ".xlsx"].

Definition invalid_type_message : string :=
  "Invalid file type. Please upload CSV or Excel files only.".

Definition too_large_message : string :=
  "File too large. Maximum size allowed is 10MB.".

(** [validateFile]: [None] is [null], the file may be sent. *)
Definition validateFile (file : BrowserFile) : option string :=
  let fileName := toLowerCase (name file) in
  let hasValidExtension :=
    existsb (fun ext => endsWith fileName ext) allowedExtensions in
  if negb (includes allowedTypes (type file)) && negb hasValidExtension
  then Some invalid_type_message
  else if (10 * 1024 * 1024 <? bf_size file)%N
  then Some too_large_message
  else None.

(** Which of the two previews [renderDataPreview] builds. *)
Inductive Preview : Type :=
  | NoPreview
  | DelimitedPreview (totalRows : nat) (columnCount : nat)
      (headers : list string) (sample : list Row)
  | WorkbookPreview (sheetCount : nat) (totalRows : nat) (sheets : list string).

Definition renderDataPreview (data : option ParsedTable)
    (info : ProcessingInfo) : Preview :=
  match data with
  | None => NoPreview
  | Some d =>
      if String.eqb (fileType info) "CSV" then
        let rows := match d with Delimited rs => rs | Workbook _ => [] end in
        DelimitedPreview
          (default 0%nat (rowCount info))
          (List.length (default [] (columns info)))
          (default [] (columns info))
          (firstn 3 rows)
      else
        let sheets :=
          match d with
          | Workbook o => JSObject.Object_keys o
          | Delimited rs =>
              map (fun i => of_N (N.of_nat i)) (seq 0 (List.length rs))
          end in
        WorkbookPreview
          (default 0%nat (sheetCount info))
          (default 0%nat (totalRows info))
          sheets
  end.

Definition is_delimited_preview (p : Preview) : bool :=
  match p with
  | DelimitedPreview _ _ _ _ => true
  | _ => false
  end.

End Client.

(* ===================================================================== *)
(** ** Vocabulary of the statements *)
(* ===================================================================== *)

(** The world [w] after the events [evs] were logged, the files untouched. *)
Definition appended (w : World) (evs : list Event) : World :=
  {| files := files w; trace := trace w ++ evs |}.

(** [m] leaves the file system alone: from every world it completes with
    [c] and logs exactly [evs]. *)
Definition reads_only {A} (m : M A) (evs : list Event) (c : completion A)
  : Prop :=
  forall w, m w = (Completes c, appended w evs).

(** [m] leaves the file system alone and ends the process: from every world
    it logs exactly [evs] and exits on the error [e]. *)
Definition exits_with {A} (m : M A) (evs : list Event) (e : JSError) : Prop :=
  forall w, m w = (Exits e, appended w evs).

(** The response the handler builds from the completion of its inner [try]
    block. *)
Definition answer (c : completion (ParsedTable * ProcessingInfo))
  : HttpResponse :=
  match c with
  | Normal r =>
      {| status := 200;
         body := {| success := true;
                    message := "File processed successfully";
                    data := Some (fst r);
                    processingInfo := Some (snd r) |} |}
  | Throw e =>
      {| status := 500;
         body := failure ("Error processing file: " +:+ err_message e) |}
  end.

(** The responses written to the client during a run, oldest first. *)
Fixpoint responses (t : list Event) : list HttpResponse :=
  match t with
  | [] => []
  | EvSend r :: rest => r :: responses rest
  | _ :: rest => responses rest
  end.

Definition is_parser_call (ev : Event) : bool :=
  match ev with
  | EvProcessCSV _ | EvProcessExcel _ => true
  | _ => false
  end.

Definition is_unlink_of (p : string) (ev : Event) : bool :=
  match ev with
  | EvUnlink q => String.eqb p q
  | _ => false
  end.

(** The file system after replaying the events of a trace. *)
Fixpoint replay (t : list Event) (fs : gset string) : gset string :=
  match t with
  | [] => fs
  | EvUnlink p :: rest => replay rest (fs ∖ {[p]})
  | _ :: rest => replay rest fs
  end.

(** The lower-cased extension the server dispatches on. *)
Definition extension_of (originalname : string) : string :=
  toLowerCase (Path.extname originalname).

(** What the outer [catch] of the handler answers. *)
Definition internal_error (e : JSError) : HttpResponse :=
  {| status := 500;
     body := failure (or_default (err_message e) "Internal server error") |}.

(** What one request to [POST /api/upload] can come to when it is answered:
    the events logged before the response, and the response. *)
Inductive outcome (env : Env)
  : option IncomingFile -> list Event -> HttpResponse -> Prop :=
  | out_no_file :
      outcome env None []
        {| status := 400; body := failure "No file uploaded" |}
  | out_unexpected_field f :
      String.eqb (in_fieldname f) "file" = false ->
      outcome env (Some f) []
        {| status := 500; body := failure "Unexpected field" |}
  | out_invalid_type f :
      String.eqb (in_fieldname f) "file" = true ->
      Server.fileFilter f = Throw (Error Server.invalid_type_message) ->
      outcome env (Some f) []
        {| status := 500; body := failure Server.invalid_type_message |}
  | out_too_large f :
      String.eqb (in_fieldname f) "file" = true ->
      Server.fileFilter f = Normal true ->
      (Server.fileSize_limit <= in_size f)%N ->
      outcome env (Some f) []
        {| status := 400; body := failure Server.too_large_message |}
  | out_processed f evs c :
      String.eqb (in_fieldname f) "file" = true ->
      Server.fileFilter f = Normal true ->
      (in_size f < Server.fileSize_limit)%N ->
      reads_only
        (Server.process env (Server.stored_file env f)
           (extension_of (in_originalname f))
           (Server.initial_info env (Server.stored_file env f)
              (extension_of (in_originalname f)))) evs c ->
      forallb is_parser_call evs = true ->
      unlink_error env (path (Server.stored_file env f)) = None ->
      outcome env (Some f)
        (evs ++ [EvUnlink (path (Server.stored_file env f))]) (answer c)
  | out_unlink_refused f evs c e :
      String.eqb (in_fieldname f) "file" = true ->
      Server.fileFilter f = Normal true ->
      (in_size f < Server.fileSize_limit)%N ->
      reads_only
        (Server.process env (Server.stored_file env f)
           (extension_of (in_originalname f))
           (Server.initial_info env (Server.stored_file env f)
              (extension_of (in_originalname f)))) evs c ->
      forallb is_parser_call evs = true ->
      unlink_error env (path (Server.stored_file env f)) = Some e ->
      outcome env (Some f) evs (internal_error e).

(** The request is never answered: multer has stored a [.csv] upload, the
    stream that reads it fails, and the process exits with the file still in
    place, right after the call of the parser. *)
Definition exits_unanswered (env : Env) (req : option IncomingFile) (w : World)
  : Prop :=
  exists f e,
    req = Some f
    /\ in_fieldname f = "file"
    /\ Server.fileFilter f = Normal true
    /\ (in_size f < Server.fileSize_limit)%N
    /\ extension_of (in_originalname f) = ".csv"
    /\ csvParser env (path (Server.stored_file env f)) = Exits e
    /\ Server.post_api_upload env req w
       = (Exits e,
          {| files := files w ∪ {[path (Server.stored_file env f)]};
             trace := trace w
                      ++ [EvProcessCSV (path (Server.stored_file env f))] |}).


(** The events of the clean-up block in a file system [fs]. *)
Definition cleanup_events (p : string) (fs : gset string) : list Event :=
  if bool_decide (p ∈ fs) then [EvUnlink p] else [].

(* ===================================================================== *)
(** ** Concrete environments and inputs used by the examples *)
(* ===================================================================== *)

Module Demo.

(** A reading of a grid with the first line as column names; it stands in
    for SheetJS in the examples only. *)
Definition header_name (c : Cell) : string :=
  match c with
  | CStr s => s
  | CNum z => of_N (Z.to_N z)
  | CBool b => if b then "TRUE" else "FALSE"
  end.

Fixpoint row_of (headers : list Cell) (cells : list Cell) (o : Row) : Row :=
  match headers, cells with
  | h :: hs, c :: cs => row_of hs cs (JSObject.set (header_name h) c o)
  | _, _ => o
  end.

Definition grid_to_json (ws : option Worksheet) : completion (list Row) :=
  match ws with
  | Some (headers :: lines) =>
      Normal (map (fun cells => row_of headers cells JSObject.empty) lines)
  | _ => Normal []
  end.

Definition env_with (csv : completion (list Row)) (wb : completion WorkBook)
  : Env :=
  {| uploadsDir := "/srv/app/uploads";
     date_now := 1700000000000;
     random_1e9 := 123456789;
     now_iso := "2023-11-14T22:13:20.000Z";
     csvParser := fun _ => Completes csv;
     XLSX_readFile := Some (fun _ => wb);
     XLSX_read := None;
     sheet_to_json := grid_to_json;
     readFileSync := fun _ => Throw (Error "EACCES: permission denied");
     unlink_error := fun _ => None |}.

Definition no_workbook : completion WorkBook :=
  Throw (Error "File is not a workbook").

Definition world0 : World := {| files := ∅; trace := [] |}.

Definition upload (filename mime : string) (bytes : N) : IncomingFile :=
  {| in_fieldname := "file"; in_originalname := filename;
     in_mimetype := mime; in_size := bytes |}.

(** [b,1 / x,y]: a header line and one data line. *)
Definition rows_b_1 : list Row :=
  [ JSObject.set "1" (CStr "y") (JSObject.set "b" (CStr "x") JSObject.empty) ].

(** [a,b,c] and two data lines. *)
Definition rows_abc : list Row :=
  [ row_of [CStr "a"; CStr "b"; CStr "c"] [CStr "1"; CStr "2"; CStr "3"]
      JSObject.empty;
    row_of [CStr "a"; CStr "b"; CStr "c"] [CStr "4"; CStr "5"; CStr "6"]
      JSObject.empty ].

Definition sheet_of_years (n : nat) : Worksheet :=
  [CStr "month"; CStr "total"]
    :: map (fun i => [CNum (Z.of_nat i); CNum 100]) (seq 1 n).

(** A workbook whose sheets are declared as 2024, then 2023. *)
Definition workbook_years : WorkBook :=
  {| SheetNames := ["2024"; "2023"];
     Sheets := JSObject.set "2023" (sheet_of_years 3)
                 (JSObject.set "2024" (sheet_of_years 5) JSObject.empty) |}.

(** A workbook whose sheets are declared as Summary, then Detail. *)
Definition workbook_named : WorkBook :=
  {| SheetNames := ["Summary"; "Detail"];
     Sheets := JSObject.set "Detail" (sheet_of_years 3)
                 (JSObject.set "Summary" (sheet_of_years 5) JSObject.empty) |}.

(** A delimited file of 2 KiB, a text file, and a delimited file sent
    without an extension. *)
Definition env_abc : Env := env_with (Normal rows_abc) no_workbook.

Definition csv_upload : IncomingFile := upload "data.csv" "text/csv" 2048.

Definition text_upload : IncomingFile := upload "notes.txt" "text/plain" 120.

Definition big_text_upload : IncomingFile :=
  upload "notes.txt" "text/plain" 10485761.

Definition big_csv_upload : IncomingFile :=
  upload "data.csv" "application/octet-stream" 10485761.

(** A delimited file of exactly 10 MiB. *)
Definition limit_csv_upload : IncomingFile :=
  upload "data.csv" "text/csv" 10485760.

Definition bare_upload : IncomingFile := upload "export" "text/csv" 2048.

(** Environments for the delimited and workbook examples. *)
Definition env_b_1 : Env := env_with (Normal rows_b_1) no_workbook.

Definition env_header_only : Env := env_with (Normal []) no_workbook.

Definition not_delimited : completion (list Row) :=
  Throw (Error "Invalid Record Length").

Definition env_years : Env := env_with not_delimited (Normal workbook_years).

Definition env_named : Env := env_with not_delimited (Normal workbook_named).

Definition xlsx_upload : IncomingFile :=
  upload "report.xlsx"
    "application/vnd.openxmlformats-officedocument.spreadsheetml.sheet" 4096.

End Demo.

(* ===================================================================== *)
(** ** The rest of server/index.js *)
(* ===================================================================== *)

Module Endpoints.



(** The body of [GET /api/health]. *)
Record HealthResponse := {
  health_success : bool;
  health_message : string;
  timestamp : string;
  xlsxAvailable : bool
}.

(** [!!f] on an optional library function *)
Definition truthy {A} (f : option A) : bool :=
  match f with Some _ => true | None => false end.

(** The handler of [GET /api/health]; [typeof XLSX !== 'undefined'] holds of
    an imported module. *)
Definition health (env : Env) : HealthResponse :=
  {| health_success := true;
     health_message := "Server is running";
     timestamp := now_iso env;
     xlsxAvailable :=
       true && (truthy (XLSX_readFile env) || truthy (XLSX_read env)) |}.

(** Requests served one after the other, each with the clock, the random
    number and the parser outcomes of its own moment; once the process has
    exited, the remaining requests are not served. *)
Fixpoint serve (reqs : list (Env * option IncomingFile)) : M unit :=
  match reqs with
  | [] => ret tt
  | (env, req) :: rest =>
      Server.post_api_upload env req ;;; serve rest
  end.

End Endpoints.

(* ===================================================================== *)
(** ** The rest of src/components/FileUploader.tsx *)
(* ===================================================================== *)

Module Uploader.

(** The three [useState] cells of the component. *)
Record UiState := {
  isDragOver : bool;
  isUploading : bool;
  uploadResult : option UploadResponse
}.

(** What the component does, in order: calls of the state setters and of
    [fetch]. *)
Inductive UiAction : Type :=
  | SetIsDragOver (b : bool)
  | SetIsUploading (b : bool)
  | SetUploadResult (r : option UploadResponse)
  | Fetch (file : BrowserFile).

Definition apply_action (a : UiAction) (st : UiState) : UiState :=
  match a with
  | SetIsDragOver b =>
      {| isDragOver := b; isUploading := isUploading st;
         uploadResult := uploadResult st |}
  | SetIsUploading b =>
      {| isDragOver := isDragOver st; isUploading := b;
         uploadResult := uploadResult st |}
  | SetUploadResult r =>
      {| isDragOver := isDragOver st; isUploading := isUploading st;
         uploadResult := r |}
  | Fetch _ => st
  end.

Definition run_actions (acts : list UiAction) (st : UiState) : UiState :=
  fold_left (fun s a => apply_action a s) acts st.

Definition network_error_message : string :=
  "Network error. Please make sure the server is running.".

(** [uploadFile].  [fetch file] is the body that [await response.json()]
    yields for the posted file, or [None] when [fetch] or the JSON decoding
    throws. *)
Definition uploadFile (fetch : BrowserFile -> option UploadResponse)
    (file : BrowserFile) : list UiAction :=
  match Client.validateFile file with
  | Some validationError =>
      [SetUploadResult (Some (failure validationError))]
  | None =>
      [SetIsUploading true; SetUploadResult None; Fetch file]
      ++ [match fetch file with
          | Some result => SetUploadResult (Some result)
          | None => SetUploadResult (Some (failure network_error_message))
          end]
      ++ [SetIsUploading false]
  end.

(** [handleDragOver], [handleDragLeave] *)
Definition handleDragOver : list UiAction := [SetIsDragOver true].
Definition handleDragLeave : list UiAction := [SetIsDragOver false].

(** [handleDrop]: only the first dropped file is uploaded. *)
Definition handleDrop (fetch : BrowserFile -> option UploadResponse)
    (files : list BrowserFile) : list UiAction :=
  SetIsDragOver false
  :: match files with
     | file :: _ => uploadFile fetch file
     | [] => []
     end.

(** [handleFileSelect]: [e.target.files] may be null. *)
Definition handleFileSelect (fetch : BrowserFile -> option UploadResponse)
    (files : option (list BrowserFile)) : list UiAction :=
  match files with
  | Some (file :: _) => uploadFile fetch file
  | _ => []
  end.

(** The part of [formData.append('file', file)] that multer reads: the field
    name is fixed, and a file without a type is sent as
    application/octet-stream. *)
Definition posted (file : BrowserFile) : IncomingFile :=
  {| in_fieldname := "file";
     in_originalname := name file;
     in_mimetype := or_default (type file) "application/octet-stream";
     in_size := bf_size file |}.

(** One card of the workbook preview: the sheet, its row count, the columns
    of its first row and its first two rows. *)
Record SheetCard := {
  card_name : string;
  card_rows : nat;
  card_columns : list string;
  card_sample : list Row
}.

(** The [sheets.map(...)] of the workbook branch of [renderDataPreview],
    on the object the server sends for a workbook. *)
Definition sheet_cards (data : JSObject.t (list Row)) : list SheetCard :=
  flat_map
    (fun sheetName =>
       match JSObject.get sheetName data with
       | Some sheetData =>
           [ {| card_name := sheetName;
                card_rows := List.length sheetData;
                card_columns :=
                  match sheetData with
                  | first :: _ => JSObject.Object_keys first
                  | [] => []
                  end;
                card_sample := firstn 2 sheetData |} ]
       | None => []
       end)
    (JSObject.Object_keys data).

End Uploader.

(** The component talking to this server: what [fetch] and
    [response.json()] give back for a posted file is the body of the one
    response the route sends, and [fetch] fails when the server process
    exits without a response. *)
Module EndToEnd.

Definition served (env : Env) (w : World) (file : BrowserFile)
  : option UploadResponse :=
  option_map body
    (last (responses
             (trace (snd (Server.post_api_upload env
                            (Some (Uploader.posted file)) w))))).

Definition is_fetch (a : Uploader.UiAction) : bool :=
  match a with
  | Uploader.Fetch _ => true
  | _ => false
  end.

End EndToEnd.

(** Shapes of strings used in the statements about names. *)
Module Shape.

Definition is_digit (c : ascii) : bool :=
  match JSObject.digit_of c with Some _ => true | None => false end.

Fixpoint all_digits (s : string) : bool :=
  match s with
  | EmptyString => true
  | String c r => is_digit c && all_digits r
  end.

(** The string is empty or starts with something that is not a digit. *)
Definition no_digit_head (s : string) : bool :=
  match s with
  | EmptyString => true
  | String c _ => negb (is_digit c)
  end.

Fixpoint no_slash (s : string) : bool :=
  match s with
  | EmptyString => true
  | String c r => negb (Ascii.eqb c Path.CHAR_FORWARD_SLASH) && no_slash r
  end.

(** Neither a dot nor a path separator. *)
Definition plain_char (c : ascii) : bool :=
  negb (Ascii.eqb c Path.CHAR_DOT) && negb (Ascii.eqb c Path.CHAR_FORWARD_SLASH).

(** What the scan of [chars] knows, before it looks at index [i], about
    the characters after the dot (or, while no dot was seen, after [i]) and
    before the end of the name: they are plain. *)
Definition scan_tail_inv (chars : list ascii) (i : Z) (st : Path.scan) : Prop :=
  (Path.matchedSlash st = true -> Path.end_ st = -1)
  /\ (Path.startDot st <> -1 -> Path.end_ st <> -1)
  /\ (forall k c,
        (if Path.startDot st =? -1 then i else Path.startDot st) < k
          < Path.end_ st ->
        nth_error chars (Z.to_nat k) = Some c ->
        plain_char c = true).

End Shape.

(** Further inputs for the examples. *)
Module Demo2.

Definition env_later : Env :=
  {| uploadsDir := uploadsDir Demo.env_abc;
     date_now := date_now Demo.env_abc;
     random_1e9 := 987654321;
     now_iso := now_iso Demo.env_abc;
     csvParser := csvParser Demo.env_abc;
     XLSX_readFile := XLSX_readFile Demo.env_abc;
     XLSX_read := XLSX_read Demo.env_abc;
     sheet_to_json := sheet_to_json Demo.env_abc;
     readFileSync := readFileSync Demo.env_abc;
     unlink_error := unlink_error Demo.env_abc |}.

Definition env_broken_csv : Env :=
  Demo.env_with (Throw (Error "Invalid Record Length")) Demo.no_workbook.

Definition env_no_xlsx : Env :=
  {| uploadsDir := uploadsDir Demo.env_abc;
     date_now := date_now Demo.env_abc;
     random_1e9 := random_1e9 Demo.env_abc;
     now_iso := now_iso Demo.env_abc;
     csvParser := csvParser Demo.env_abc;
     XLSX_readFile := None;
     XLSX_read := None;
     sheet_to_json := sheet_to_json Demo.env_abc;
     readFileSync := readFileSync Demo.env_abc;
     unlink_error := unlink_error Demo.env_abc |}.

(** A converter that gives up on a sheet without a header line, and a
    workbook whose second sheet is such a sheet. *)
Definition strict_to_json (ws : option Worksheet) : completion (list Row) :=
  match ws with
  | Some [] => Throw (Error "Sheet has no header row")
  | _ => Demo.grid_to_json ws
  end.

Definition workbook_bad_sheet : WorkBook :=
  {| SheetNames := ["Good"; "Bad"; "Later"];
     Sheets := JSObject.set "Later" (Demo.sheet_of_years 2)
                 (JSObject.set "Bad" []
                    (JSObject.set "Good" (Demo.sheet_of_years 4)
                       JSObject.empty)) |}.

Definition env_bad_sheet : Env :=
  {| uploadsDir := uploadsDir Demo.env_abc;
     date_now := date_now Demo.env_abc;
     random_1e9 := random_1e9 Demo.env_abc;
     now_iso := now_iso Demo.env_abc;
     csvParser := csvParser Demo.env_abc;
     XLSX_readFile := Some (fun _ => Normal workbook_bad_sheet);
     XLSX_read := None;
     sheet_to_json := strict_to_json;
     readFileSync := readFileSync Demo.env_abc;
     unlink_error := unlink_error Demo.env_abc |}.

(** The stream that reads the stored file breaks off. *)
Definition read_error : JSError := Error "EIO: i/o error, read".

Definition env_read_error : Env :=
  {| uploadsDir := uploadsDir Demo.env_abc;
     date_now := date_now Demo.env_abc;
     random_1e9 := random_1e9 Demo.env_abc;
     now_iso := now_iso Demo.env_abc;
     csvParser := fun _ => Exits read_error;
     XLSX_readFile := XLSX_readFile Demo.env_abc;
     XLSX_read := XLSX_read Demo.env_abc;
     sheet_to_json := sheet_to_json Demo.env_abc;
     readFileSync := readFileSync Demo.env_abc;
     unlink_error := unlink_error Demo.env_abc |}.

(** The operating system does not let the server remove files. *)
Definition unlink_refused (p : string) : JSError :=
  Error ("EPERM: operation not permitted, unlink '" +:+ p +:+ "'").

Definition env_unlink_refused : Env :=
  {| uploadsDir := uploadsDir Demo.env_abc;
     date_now := date_now Demo.env_abc;
     random_1e9 := random_1e9 Demo.env_abc;
     now_iso := now_iso Demo.env_abc;
     csvParser := csvParser Demo.env_abc;
     XLSX_readFile := XLSX_readFile Demo.env_abc;
     XLSX_read := XLSX_read Demo.env_abc;
     sheet_to_json := sheet_to_json Demo.env_abc;
     readFileSync := readFileSync Demo.env_abc;
     unlink_error := fun p => Some (unlink_refused p) |}.

Definition browser_csv : BrowserFile :=
  {| name := "data.csv"; type := "text/csv"; bf_size := 2048 |}.

Definition browser_text : BrowserFile :=
  {| name := "notes.txt"; type := "text/plain"; bf_size := 120 |}.

(** A delimited file of exactly 10 MiB, as the browser holds it. *)
Definition browser_limit_csv : BrowserFile :=
  {| name := "data.csv"; type := "text/csv"; bf_size := 10485760 |}.

End Demo2.

(* ===================================================================== *)
(** * Properties *)
(* ===================================================================== *)

(** ** Strings and [path.extname] *)

Example extname_csv : Path.extname "report.CSV" = ".CSV".
Proof. reflexivity. Qed.

Example extname_dotfile : Path.extname ".csv" = "".
Proof. reflexivity. Qed.

Example extname_two_dots : Path.extname "a.tar.gz" = ".gz".
Proof. reflexivity. Qed.

Example extname_dotdot : Path.extname ".." = "".
Proof. reflexivity. Qed.

Example extname_trailing_dot : Path.extname "name." = ".".
Proof. reflexivity. Qed.

Example extname_dir : Path.extname "a.b/c" = "".
Proof. reflexivity. Qed.

Example upper_tag : substring1 (toUpperCase (toLowerCase ".Xlsx")) = "XLSX".
Proof. reflexivity. Qed.

Lemma upper_lower_char (c : ascii) : upper_char (lower_char c) = upper_char c.
Proof. destruct c as [[] [] [] [] [] [] [] []]; reflexivity. Qed.

Lemma toUpperCase_toLowerCase (s : string) :
  toUpperCase (toLowerCase s) = toUpperCase s.
Proof.
  induction s as [|c r IH]; simpl; [reflexivity|].
  unfold toUpperCase, toLowerCase in *. simpl.
  rewrite upper_lower_char. f_equal. exact IH.
Qed.

Lemma substring1_toUpperCase (s : string) :
  substring1 (toUpperCase s) = toUpperCase (substring1 s).
Proof. destruct s; reflexivity. Qed.

Lemma includes_In (l : list string) (x : string) :
  includes l x = true <-> In x l.
Proof.
  unfold includes. rewrite existsb_exists. split.
  - intros (y & Hy & Heq). apply String.eqb_eq in Heq. now subst.
  - intros H. exists x. split; [exact H | apply String.eqb_refl].
Qed.

Section Extname.

Import Path.
Variable chars : list ascii.

Lemma scan_inv_weaken i j st : j <= i -> scan_inv chars i st -> scan_inv chars j st.
Proof. unfold scan_inv. intros Hji [He Hs]. split; [lia | exact Hs]. Qed.

Lemma scan_char_inv i code st :
  0 <= i < Z.of_nat (List.length chars) ->
  nth_error chars (Z.to_nat i) = Some code ->
  scan_inv chars i st -> scan_inv chars (i - 1) (scan_char i code st).
Proof.
  intros Hi Hnth [He Hs]. unfold scan_char.
  destruct (end_ st =? -1) eqn:Hend; simpl.
  - apply Z.eqb_eq in Hend.
    assert (Hs' : startDot st = -1) by (destruct Hs as [|[? _]]; lia).
    destruct (Ascii.eqb code CHAR_DOT) eqn:Hc.
    + apply Ascii.eqb_eq in Hc. subst code.
      rewrite Hs'. simpl. split; simpl; [right; lia|].
      right. split; [lia | exact Hnth].
    + rewrite Hs'. simpl. split; simpl; [right; lia | now left].
  - apply Z.eqb_neq in Hend.
    assert (He' : i < end_ st /\ end_ st <= Z.of_nat (List.length chars))
      by (destruct He; [contradiction | assumption]).
    destruct (Ascii.eqb code CHAR_DOT) eqn:Hc.
    + apply Ascii.eqb_eq in Hc. subst code.
      destruct (startDot st =? -1) eqn:Hsd; simpl.
      * split; simpl; [right; lia|]. right. split; [lia | exact Hnth].
      * destruct (negb (preDotState st =? 1)); simpl;
          (split; simpl; [right; lia | exact Hs]).
    + destruct (negb (startDot st =? -1)); simpl;
        (split; simpl; [right; lia | exact Hs]).
Qed.

Lemma scan_loop_inv (l : list ascii) :
  forall (post : list ascii) (i : Z) (st : scan),
    chars = rev l ++ post ->
    i = Z.of_nat (List.length l) - 1 ->
    scan_inv chars i st -> scan_inv chars (-1) (scan_loop l i st).
Proof.
  induction l as [|code rest IH]; intros post i st Hchars Hi Hinv.
  - simpl in *. subst i. exact Hinv.
  - simpl in Hchars, Hi. rewrite <- app_assoc in Hchars. simpl in Hchars.
    assert (Hlen : Z.of_nat (List.length rest) < Z.of_nat (List.length chars)).
    { rewrite Hchars, length_app, length_rev. simpl. lia. }
    assert (Hnth : nth_error chars (Z.to_nat i) = Some code).
    { replace (Z.to_nat i) with (List.length (rev rest))
        by (rewrite length_rev; lia).
      rewrite Hchars, nth_error_app2 by lia.
      now rewrite Nat.sub_diag. }
    simpl. destruct (Ascii.eqb code CHAR_FORWARD_SLASH).
    + destruct (negb (matchedSlash st)).
      * destruct Hinv as [He Hs]. split; simpl; [|exact Hs].
        destruct He as [|[? ?]]; [now left | right; lia].
      * apply (IH (code :: post)); [exact Hchars | lia |].
        apply scan_inv_weaken with i; [lia | exact Hinv].
    + apply (IH (code :: post)); [exact Hchars | lia |].
      apply scan_char_inv; [lia | exact Hnth | exact Hinv].
Qed.

Lemma slice_head (a b : Z) (c : ascii) :
  0 <= a < b -> nth_error chars (Z.to_nat a) = Some c ->
  exists rest, slice chars a b = c :: rest.
Proof.
  intros Hab Hnth. unfold slice.
  destruct (nth_error_split chars (Z.to_nat a) Hnth) as (l1 & l2 & Heq & Hl).
  rewrite Heq.
  rewrite <- Hl, skipn_app, skipn_all, Nat.sub_diag. simpl.
  destruct (Z.to_nat (b - a)) eqn:Hn; [lia|].
  simpl. eexists. reflexivity.
Qed.

Lemma extname_chars_shape :
  extname_chars chars = []
  \/ exists rest, extname_chars chars = CHAR_DOT :: rest.
Proof.
  unfold extname_chars.
  set (st := scan_loop (rev chars) (Z.of_nat (List.length chars) - 1) scan0).
  assert (Hinv : scan_inv chars (-1) st).
  { apply (scan_loop_inv (rev chars) []).
    - now rewrite rev_involutive, app_nil_r.
    - now rewrite length_rev.
    - split; now left. }
  destruct (startDot st =? -1) eqn:Hsd; simpl; [now left|].
  destruct ((end_ st =? -1) || (preDotState st =? 0)
            || (preDotState st =? 1) && (startDot st =? end_ st - 1)
               && (startDot st =? startPart st + 1)); [now left|].
  right. apply Z.eqb_neq in Hsd.
  destruct Hinv as [_ [Hs | [Hr Hn]]]; [contradiction|].
  apply slice_head; [lia | exact Hn].
Qed.

End Extname.

(** [path.extname] returns the empty string or a string that starts with
    the dot. *)
Lemma extname_shape (p : string) :
  Path.extname p = "" \/ exists rest, Path.extname p = String "." rest.
Proof.
  unfold Path.extname.
  destruct (extname_chars_shape (list_ascii_of_string p)) as [H | [rest H]];
    rewrite H.
  - now left.
  - right. exists (string_of_list_ascii rest). reflexivity.
Qed.

(** ** Formatting *)

Example fileSize_2048 : Server.toFixed2_div1024 2048 = "2.00".
Proof. reflexivity. Qed.

Example fileSize_tie_rounds_up : Server.toFixed2_div1024 128 = "0.13".
Proof. reflexivity. Qed.

Example fileSize_10MiB : Server.toFixed2_div1024 10485760 = "10240.00".
Proof. reflexivity. Qed.

Example stored_name :
  filename (Server.stored_file Demo.env_abc Demo.csv_upload)
  = "file-1700000000000-123456789.csv"
  /\ path (Server.stored_file Demo.env_abc Demo.csv_upload)
     = "/srv/app/uploads/file-1700000000000-123456789.csv".
Proof. split; reflexivity. Qed.

Example keys_order :
  JSObject.Object_keys
    (JSObject.set "01" 4%nat
       (JSObject.set "2" 3%nat
          (JSObject.set "b" 2%nat
             (JSObject.set "10" 1%nat
                (JSObject.set "a" 0%nat JSObject.empty)))))
  = ["2"; "10"; "a"; "b"; "01"].
Proof. reflexivity. Qed.

(** ** The effect monad *)

Lemma appended_nil (w : World) : appended w [] = w.
Proof. destruct w. unfold appended. simpl. now rewrite app_nil_r. Qed.

Lemma appended_app (w : World) (a b : list Event) :
  appended (appended w a) b = appended w (a ++ b).
Proof. unfold appended. simpl. now rewrite app_assoc. Qed.

Lemma reads_ret {A} (a : A) : reads_only (ret a) [] (Normal a).
Proof. intros w. unfold ret. now rewrite appended_nil. Qed.

Lemma reads_throw {A} (e : JSError) : reads_only (@throw A e) [] (Throw e).
Proof. intros w. unfold throw. now rewrite appended_nil. Qed.

Lemma reads_lift {A} (c : completion A) : reads_only (lift c) [] c.
Proof. intros w. unfold lift. now rewrite appended_nil. Qed.

Lemma reads_await {A} (c : completion A) :
  reads_only (await (Completes c)) [] c.
Proof. intros w. unfold await. now rewrite appended_nil. Qed.

Lemma reads_emit (ev : Event) : reads_only (emit ev) [ev] (Normal tt).
Proof. intros w. reflexivity. Qed.

Lemma reads_bind {A B} (m : M A) (k : A -> M B) evs1 evs2 a c :
  reads_only m evs1 (Normal a) -> reads_only (k a) evs2 c ->
  reads_only (bind m k) (evs1 ++ evs2) c.
Proof.
  intros Hm Hk w. unfold bind. rewrite Hm, Hk. now rewrite appended_app.
Qed.

Lemma reads_bind_throw {A B} (m : M A) (k : A -> M B) evs e :
  reads_only m evs (Throw e) -> reads_only (bind m k) evs (Throw e).
Proof. intros Hm w. unfold bind. now rewrite Hm. Qed.

Lemma reads_try {A} (m : M A) (h : JSError -> M A) evs a :
  reads_only m evs (Normal a) -> reads_only (try_catch m h) evs (Normal a).
Proof. intros Hm w. unfold try_catch. now rewrite Hm. Qed.

Lemma reads_try_throw {A} (m : M A) (h : JSError -> M A) evs1 evs2 e c :
  reads_only m evs1 (Throw e) -> reads_only (h e) evs2 c ->
  reads_only (try_catch m h) (evs1 ++ evs2) c.
Proof.
  intros Hm Hh w. unfold try_catch. rewrite Hm, Hh. now rewrite appended_app.
Qed.

Lemma reads_only_fun {A} (m : M A) evs1 evs2 c1 c2 :
  reads_only m evs1 c1 -> reads_only m evs2 c2 -> evs1 = evs2 /\ c1 = c2.
Proof.
  intros H1 H2.
  pose proof (H1 {| files := ∅; trace := [] |}) as E1.
  rewrite (H2 {| files := ∅; trace := [] |}) in E1.
  unfold appended in E1. simpl in E1. inversion E1. auto.
Qed.

(** Once the process exits, nothing that follows runs and no [catch]
    applies. *)
Lemma exits_await {A} (e : JSError) : exits_with (@await A (Exits e)) [] e.
Proof. intros w. unfold await. now rewrite appended_nil. Qed.

Lemma exits_bind {A B} (m : M A) (k : A -> M B) evs1 evs2 a e :
  reads_only m evs1 (Normal a) -> exits_with (k a) evs2 e ->
  exits_with (bind m k) (evs1 ++ evs2) e.
Proof.
  intros Hm Hk w. unfold bind. rewrite Hm, Hk. now rewrite appended_app.
Qed.

Lemma exits_bind_first {A B} (m : M A) (k : A -> M B) evs e :
  exits_with m evs e -> exits_with (bind m k) evs e.
Proof. intros Hm w. unfold bind. now rewrite Hm. Qed.

Lemma exits_try {A} (m : M A) (h : JSError -> M A) evs e :
  exits_with m evs e -> exits_with (try_catch m h) evs e.
Proof. intros Hm w. unfold try_catch. now rewrite Hm. Qed.

Lemma reads_not_exits {A} (m : M A) evs1 evs2 c e :
  reads_only m evs1 c -> exits_with m evs2 e -> False.
Proof.
  intros H1 H2.
  pose proof (H1 {| files := ∅; trace := [] |}) as E1.
  rewrite (H2 {| files := ∅; trace := [] |}) in E1. discriminate E1.
Qed.

(** ** The parsers *)

Lemma processCSV_reads env p c :
  csvParser env p = Completes c ->
  reads_only (Server.processCSV env p) [EvProcessCSV p] c.
Proof.
  intros Hc w. unfold Server.processCSV, bind, emit, await. now rewrite Hc.
Qed.

Lemma processCSV_exits env p e :
  csvParser env p = Exits e ->
  exits_with (Server.processCSV env p) [EvProcessCSV p] e.
Proof.
  intros Hc w. unfold Server.processCSV, bind, emit, await. now rewrite Hc.
Qed.

Lemma forEach_sheet_reads env wb names :
  forall result, exists c,
    reads_only (Server.forEach_sheet env wb names result) [] c.
Proof.
  induction names as [|n rest IH]; intros result; simpl.
  - eexists. apply reads_ret.
  - destruct (sheet_to_json env (JSObject.get n (Sheets wb))) as [rows|e] eqn:Hj.
    + destruct (IH (JSObject.set n rows result)) as [c Hc].
      exists c. apply (reads_bind _ _ [] []) with rows; [|exact Hc].
      rewrite <- Hj. apply reads_lift.
    + exists (Throw e). apply reads_bind_throw. rewrite <- Hj. apply reads_lift.
Qed.

(** When every sheet converts, [forEach] stores the sheets one after the
    other under their names. *)
Lemma forEach_sheet_ok env wb (rows_of : string -> list Row) names :
  (forall n, In n names ->
     sheet_to_json env (JSObject.get n (Sheets wb)) = Normal (rows_of n)) ->
  forall result,
    reads_only (Server.forEach_sheet env wb names result) []
      (Normal (fold_left (fun o n => JSObject.set n (rows_of n) o) names result)).
Proof.
  induction names as [|n rest IH]; intros Hall result; simpl.
  - apply reads_ret.
  - apply (reads_bind _ _ [] []) with (rows_of n).
    + rewrite <- (Hall n) by now left. apply reads_lift.
    + apply IH. intros m Hm. apply Hall. now right.
Qed.

Lemma load_workbook_reads env p :
  exists c,
    reads_only
      (match XLSX_readFile env with
       | Some readFile => lift (readFile p)
       | None =>
           match XLSX_read env with
           | Some read => bind (lift (readFileSync env p)) (fun b => lift (read b))
           | None => throw (Error "XLSX library methods not available")
           end
       end) [] c.
Proof.
  destruct (XLSX_readFile env) as [rf|].
  - eexists. apply reads_lift.
  - destruct (XLSX_read env) as [rd|].
    + destruct (readFileSync env p) as [b|e] eqn:Hb.
      * eexists. apply (reads_bind _ _ [] []) with b; apply reads_lift.
      * eexists. apply reads_bind_throw. apply reads_lift.
    + eexists. apply reads_throw.
Qed.

Lemma processExcel_reads env p :
  exists c, reads_only (Server.processExcel env p) [EvProcessExcel p] c.
Proof.
  unfold Server.processExcel.
  destruct (load_workbook_reads env p) as [[wb|e] Hwb].
  - destruct (forEach_sheet_reads env wb (SheetNames wb) JSObject.empty)
      as [[o|e] Ho].
    + eexists. apply reads_try.
      apply (reads_bind _ _ [_] []) with tt; [apply reads_emit|].
      apply (reads_bind _ _ [] []) with wb; [exact Hwb | exact Ho].
    + eexists.
      apply (reads_try_throw _ _ [_] []) with e; [|apply reads_throw].
      apply (reads_bind _ _ [_] []) with tt; [apply reads_emit|].
      apply (reads_bind _ _ [] []) with wb; [exact Hwb | exact Ho].
  - eexists.
    apply (reads_try_throw _ _ [_] []) with e; [|apply reads_throw].
    apply (reads_bind _ _ [_] []) with tt; [apply reads_emit|].
    apply reads_bind_throw. exact Hwb.
Qed.

Lemma sum_rows_reads fileData names :
  forall total, exists c,
    reads_only (Server.sum_rows fileData names total) [] c.
Proof.
  induction names as [|n rest IH]; intros total; simpl.
  - eexists. apply reads_ret.
  - destruct (JSObject.get n fileData); [apply IH|].
    eexists. apply reads_throw.
Qed.

(** The parse-and-summarize step exits exactly when it is the delimited
    branch that runs and the read stream fails. *)
Lemma process_exits env file ext info e :
  ext = ".csv" ->
  csvParser env (path file) = Exits e ->
  exits_with (Server.process env file ext info) [EvProcessCSV (path file)] e.
Proof.
  intros -> Hc. unfold Server.process. simpl.
  apply exits_bind_first. now apply processCSV_exits.
Qed.

(** The parse-and-summarize step never touches the file system and logs only
    parser calls; when it completes it keeps the type tag it was given, and
    otherwise it is the read stream of a delimited file that ended the
    process. *)
Lemma process_reads env file ext info :
  (exists evs c,
     reads_only (Server.process env file ext info) evs c
     /\ forallb is_parser_call evs = true
     /\ (forall r, c = Normal r -> fileType (snd r) = fileType info))
  \/ (exists e,
        ext = ".csv"
        /\ csvParser env (path file) = Exits e
        /\ exits_with (Server.process env file ext info)
             [EvProcessCSV (path file)] e).
Proof.
  destruct (String.eqb ext ".csv") eqn:Hcsv.
  - apply String.eqb_eq in Hcsv.
    destruct (csvParser env (path file)) as [[rows|e]|e] eqn:Hc.
    + left. pose proof (processCSV_reads env (path file) _ Hc) as Hp.
      unfold Server.process. subst ext. simpl.
      eexists _, _. split; [|split].
      * eapply reads_bind; [exact Hp | apply reads_ret].
      * reflexivity.
      * intros r Hr. inversion Hr. reflexivity.
    + left. pose proof (processCSV_reads env (path file) _ Hc) as Hp.
      unfold Server.process. subst ext. simpl.
      eexists _, _. split; [|split].
      * apply reads_bind_throw. exact Hp.
      * reflexivity.
      * intros r Hr. discriminate Hr.
    + right. exists e. split; [exact Hcsv|]. split; [reflexivity|].
      now apply process_exits.
  - left. unfold Server.process. rewrite Hcsv.
    destruct (includes [".xlsx"; ".xls"] ext).
    + destruct (processExcel_reads env (path file)) as [[o|e] Ho].
      * destruct (sum_rows_reads o (JSObject.Object_keys o) 0%nat)
          as [[total|e] Hs].
        -- eexists _, _. split; [|split].
           ++ eapply reads_bind; [exact Ho|].
              eapply reads_bind; [exact Hs | apply reads_ret].
           ++ reflexivity.
           ++ intros r Hr. inversion Hr. reflexivity.
        -- eexists _, _. split; [|split].
           ++ eapply reads_bind; [exact Ho|].
              apply reads_bind_throw. exact Hs.
           ++ reflexivity.
           ++ intros r Hr. discriminate Hr.
      * eexists _, _. split; [|split].
        -- apply reads_bind_throw. exact Ho.
        -- reflexivity.
        -- intros r Hr. discriminate Hr.
    + eexists _, _. split; [|split].
      * apply reads_throw.
      * reflexivity.
      * intros r Hr. discriminate Hr.
Qed.

(** ** Traces *)

Lemma responses_app (a b : list Event) :
  responses (a ++ b) = responses a ++ responses b.
Proof.
  induction a as [|ev a IH]; simpl; [reflexivity|].
  destruct ev; simpl; now rewrite IH.
Qed.

Lemma responses_parser_calls (evs : list Event) :
  forallb is_parser_call evs = true -> responses evs = [].
Proof.
  induction evs as [|ev evs IH]; simpl; [reflexivity|].
  destruct ev; simpl; intros H; try discriminate; now apply IH.
Qed.

Lemma replay_app (a b : list Event) (fs : gset string) :
  replay (a ++ b) fs = replay b (replay a fs).
Proof.
  revert fs. induction a as [|ev a IH]; intros fs; simpl; [reflexivity|].
  destruct ev; simpl; now rewrite IH.
Qed.

Lemma replay_parser_calls (evs : list Event) (fs : gset string) :
  forallb is_parser_call evs = true -> replay evs fs = fs.
Proof.
  induction evs as [|ev evs IH]; simpl; [reflexivity|].
  destruct ev; simpl; intros H; try discriminate; now apply IH.
Qed.

Lemma unlinks_parser_calls (p : string) (evs : list Event) :
  forallb is_parser_call evs = true ->
  List.filter (is_unlink_of p) evs = [].
Proof.
  induction evs as [|ev evs IH]; simpl; [reflexivity|].
  destruct ev; simpl; intros H; try discriminate; now apply IH.
Qed.

(** ** The handler *)

(** The clean-up block when the operating system lets the file go. *)
Lemma cleanup_run (env : Env) (p : string) (w : World) :
  unlink_error env p = None ->
  Server.cleanup env p w
  = (Completes (Normal tt),
     {| files := files w ∖ {[p]};
        trace := trace w ++ cleanup_events p (files w) |}).
Proof.
  intros Hok.
  unfold Server.cleanup, bind, Fs.existsSync, Fs.unlinkSync, cleanup_events, ret.
  destruct (decide (p ∈ files w)) as [Hin|Hout].
  - rewrite (bool_decide_eq_true_2 _ Hin).
    destruct (decide (p ∈ files w)); [|contradiction].
    now rewrite Hok.
  - rewrite (bool_decide_eq_false_2 _ Hout).
    destruct w as [fs tr]. simpl in *. f_equal. f_equal.
    + set_solver.
    + now rewrite app_nil_r.
Qed.

(** The clean-up block on a file that is gone: the guard skips the unlink. *)
Lemma cleanup_missing (env : Env) (p : string) (w : World) :
  p ∉ files w -> Server.cleanup env p w = (Completes (Normal tt), w).
Proof.
  intros Hout. unfold Server.cleanup, bind, Fs.existsSync, ret.
  now rewrite (bool_decide_eq_false_2 _ Hout).
Qed.

(** The clean-up block on a file that may not be removed: the error of
    [unlinkSync] comes out of the block and the file stays. *)
Lemma cleanup_refused (env : Env) (p : string) (w : World) (e : JSError) :
  p ∈ files w -> unlink_error env p = Some e ->
  Server.cleanup env p w = (Completes (Throw e), w).
Proof.
  intros Hin He. unfold Server.cleanup, bind, Fs.existsSync, Fs.unlinkSync.
  rewrite (bool_decide_eq_true_2 _ Hin).
  destruct (decide (p ∈ files w)); [|contradiction].
  now rewrite He.
Qed.

(** Without the guard, unlinking a file that is gone throws. *)
Example unlink_missing_throws :
  fst (Fs.unlinkSync Demo.env_abc "/srv/app/uploads/gone.csv" Demo.world0)
  = Completes
      (Throw (Error "ENOENT: no such file or directory, unlink '/srv/app/uploads/gone.csv'")).
Proof. reflexivity. Qed.

Lemma handler_no_file env w :
  Server.upload_handler env None w
  = (Completes (Normal tt),
     appended w [EvSend {| status := 400; body := failure "No file uploaded" |}]).
Proof. reflexivity. Qed.

(** With a stored file that can be unlinked, the handler parses, cleans up
    and answers, in that order, and nothing it does throws past the inner
    [catch]. *)
Lemma handler_stored env file evs c :
  reads_only
    (Server.process env file
       (toLowerCase (Path.extname (originalname file)))
       (Server.initial_info env file
          (toLowerCase (Path.extname (originalname file))))) evs c ->
  unlink_error env (path file) = None ->
  forall w,
    Server.upload_handler env (Some file) w
    = (Completes (Normal tt),
       {| files := files w ∖ {[path file]};
          trace := trace w ++ evs ++ cleanup_events (path file) (files w)
                     ++ [EvSend (answer c)] |}).
Proof.
  intros Hp Hok w. unfold Server.upload_handler, try_catch, bind.
  rewrite Hp. destruct c as [r|e]; rewrite (cleanup_run env _ _ Hok); simpl;
    unfold res_json, res_status_json, emit; simpl;
    now rewrite <- !app_assoc.
Qed.

(** With the file already gone, the handler answers the same way, whatever
    the operating system would say to an unlink. *)
Lemma handler_missing env file evs c w :
  reads_only
    (Server.process env file
       (toLowerCase (Path.extname (originalname file)))
       (Server.initial_info env file
          (toLowerCase (Path.extname (originalname file))))) evs c ->
  path file ∉ files w ->
  Server.upload_handler env (Some file) w
  = (Completes (Normal tt), appended w (evs ++ [EvSend (answer c)])).
Proof.
  intros Hp Hgone. unfold Server.upload_handler, try_catch, bind.
  rewrite Hp.
  assert (Hgone' : path file ∉ files (appended w evs)) by exact Hgone.
  destruct c as [r|e]; rewrite (cleanup_missing env _ _ Hgone'); simpl;
    unfold res_json, res_status_json, emit, appended; simpl;
    now rewrite <- !app_assoc.
Qed.

(** When the stored file may not be removed, the error of [unlinkSync]
    leaves the inner [try] (on the success path it is caught once, and the
    second clean-up throws it again) and the outer [catch] answers with it;
    what the parse-and-summarize step came to is lost, and the file stays. *)
Lemma handler_unlink_refused env file evs c e w :
  reads_only
    (Server.process env file
       (toLowerCase (Path.extname (originalname file)))
       (Server.initial_info env file
          (toLowerCase (Path.extname (originalname file))))) evs c ->
  unlink_error env (path file) = Some e ->
  path file ∈ files w ->
  Server.upload_handler env (Some file) w
  = (Completes (Normal tt), appended w (evs ++ [EvSend (internal_error e)])).
Proof.
  intros Hp He Hin. unfold Server.upload_handler, try_catch, bind.
  rewrite Hp.
  assert (Hin' : path file ∈ files (appended w evs)) by exact Hin.
  destruct c as [r|e0]; rewrite !(cleanup_refused env _ _ e Hin' He); simpl;
    unfold res_status_json, emit, appended, internal_error; simpl;
    now rewrite <- !app_assoc.
Qed.

(** When the read stream fails, the handler is never resumed. *)
Lemma handler_exits env file evs e w :
  exits_with
    (Server.process env file
       (toLowerCase (Path.extname (originalname file)))
       (Server.initial_info env file
          (toLowerCase (Path.extname (originalname file))))) evs e ->
  Server.upload_handler env (Some file) w = (Exits e, appended w evs).
Proof.
  intros Hp. unfold Server.upload_handler, try_catch, bind. now rewrite Hp.
Qed.

(** ** multer *)

Lemma fileFilter_cases (f : IncomingFile) :
  Server.fileFilter f = Normal true
  \/ Server.fileFilter f = Throw (Error Server.invalid_type_message).
Proof.
  unfold Server.fileFilter.
  destruct (includes Server.allowedTypes (in_mimetype f)
            || includes Server.allowedExtensions
                 (toLowerCase (Path.extname (in_originalname f))));
    [now left | now right].
Qed.

Lemma upload_single_accepts env f w :
  String.eqb (in_fieldname f) "file" = true ->
  Server.fileFilter f = Normal true ->
  (in_size f < Server.fileSize_limit)%N ->
  Server.upload_single env (Some f) w
  = (Completes (Normal (Some (Server.stored_file env f))),
     {| files := files w ∪ {[path (Server.stored_file env f)]};
        trace := trace w |}).
Proof.
  intros Hfield Hfilter Hsize. unfold Server.upload_single.
  rewrite Hfield. simpl. unfold bind, lift. rewrite Hfilter.
  destruct (Server.fileSize_limit <=? in_size f)%N eqn:Hle; [|reflexivity].
  apply N.leb_le in Hle. lia.
Qed.

(** multer stores a file only after the field name, the file filter and the
    size limit let it through. *)
Lemma upload_single_stored env req w file w1 :
  Server.upload_single env req w = (Completes (Normal (Some file)), w1) ->
  exists f,
    req = Some f
    /\ String.eqb (in_fieldname f) "file" = true
    /\ Server.fileFilter f = Normal true
    /\ (in_size f < Server.fileSize_limit)%N
    /\ file = Server.stored_file env f
    /\ w1 = {| files := files w ∪ {[path file]}; trace := trace w |}.
Proof.
  unfold Server.upload_single. destruct req as [f|]; [|discriminate].
  destruct (String.eqb (in_fieldname f) "file") eqn:Hfield; simpl;
    [|discriminate].
  unfold bind, lift.
  destruct (fileFilter_cases f) as [Hf|Hf]; rewrite Hf; [|discriminate].
  destruct (Server.fileSize_limit <=? in_size f)%N eqn:Hle; [discriminate|].
  apply N.leb_gt in Hle. intros H. inversion H. subst.
  exists f. repeat split; auto.
Qed.

(** ** The whole route *)

Lemma pipeline_no_file env w :
  Server.post_api_upload env None w
  = (Completes (Normal tt),
     appended w [EvSend {| status := 400; body := failure "No file uploaded" |}]).
Proof. reflexivity. Qed.

Lemma pipeline_unexpected_field env f w :
  String.eqb (in_fieldname f) "file" = false ->
  Server.post_api_upload env (Some f) w
  = (Completes (Normal tt),
     appended w [EvSend {| status := 500; body := failure "Unexpected field" |}]).
Proof.
  intros Hfield.
  unfold Server.post_api_upload, try_catch, bind, Server.upload_single.
  rewrite Hfield. reflexivity.
Qed.

Lemma pipeline_invalid_type env f w :
  String.eqb (in_fieldname f) "file" = true ->
  Server.fileFilter f = Throw (Error Server.invalid_type_message) ->
  Server.post_api_upload env (Some f) w
  = (Completes (Normal tt),
     appended w [EvSend {| status := 500;
                           body := failure Server.invalid_type_message |}]).
Proof.
  intros Hfield Hfilter.
  unfold Server.post_api_upload, try_catch, bind, Server.upload_single.
  rewrite Hfield. simpl. unfold bind, lift. rewrite Hfilter. reflexivity.
Qed.

Lemma pipeline_too_large env f w :
  String.eqb (in_fieldname f) "file" = true ->
  Server.fileFilter f = Normal true ->
  (Server.fileSize_limit <= in_size f)%N ->
  Server.post_api_upload env (Some f) w
  = (Completes (Normal tt),
     appended w [EvSend {| status := 400;
                           body := failure Server.too_large_message |}]).
Proof.
  intros Hfield Hfilter Hsize.
  unfold Server.post_api_upload, try_catch, bind, Server.upload_single.
  rewrite Hfield. simpl. unfold bind, lift. rewrite Hfilter.
  apply N.leb_le in Hsize. rewrite Hsize. reflexivity.
Qed.

Lemma pipeline_accepted env f w evs c :
  String.eqb (in_fieldname f) "file" = true ->
  Server.fileFilter f = Normal true ->
  (in_size f < Server.fileSize_limit)%N ->
  reads_only
    (Server.process env (Server.stored_file env f)
       (extension_of (in_originalname f))
       (Server.initial_info env (Server.stored_file env f)
          (extension_of (in_originalname f)))) evs c ->
  unlink_error env (path (Server.stored_file env f)) = None ->
  Server.post_api_upload env (Some f) w
  = (Completes (Normal tt),
     {| files := files w ∖ {[path (Server.stored_file env f)]};
        trace := trace w ++ evs
                   ++ [EvUnlink (path (Server.stored_file env f));
                       EvSend (answer c)] |}).
Proof.
  intros Hfield Hfilter Hsize Hp Hok.
  unfold Server.post_api_upload, try_catch, bind.
  rewrite (upload_single_accepts env f w Hfield Hfilter Hsize).
  rewrite (handler_stored env (Server.stored_file env f) evs c Hp Hok).
  simpl. unfold cleanup_events.
  rewrite bool_decide_eq_true_2 by set_solver.
  f_equal. f_equal. set_solver.
Qed.

Lemma pipeline_unlink_refused env f w evs c e :
  String.eqb (in_fieldname f) "file" = true ->
  Server.fileFilter f = Normal true ->
  (in_size f < Server.fileSize_limit)%N ->
  reads_only
    (Server.process env (Server.stored_file env f)
       (extension_of (in_originalname f))
       (Server.initial_info env (Server.stored_file env f)
          (extension_of (in_originalname f)))) evs c ->
  unlink_error env (path (Server.stored_file env f)) = Some e ->
  Server.post_api_upload env (Some f) w
  = (Completes (Normal tt),
     {| files := files w ∪ {[path (Server.stored_file env f)]};
        trace := trace w ++ evs ++ [EvSend (internal_error e)] |}).
Proof.
  intros Hfield Hfilter Hsize Hp He.
  unfold Server.post_api_upload, try_catch, bind.
  rewrite (upload_single_accepts env f w Hfield Hfilter Hsize).
  rewrite (handler_unlink_refused env (Server.stored_file env f) evs c e _ Hp He)
    by (simpl; set_solver).
  reflexivity.
Qed.

Lemma pipeline_exits env f w e :
  String.eqb (in_fieldname f) "file" = true ->
  Server.fileFilter f = Normal true ->
  (in_size f < Server.fileSize_limit)%N ->
  extension_of (in_originalname f) = ".csv" ->
  csvParser env (path (Server.stored_file env f)) = Exits e ->
  Server.post_api_upload env (Some f) w
  = (Exits e,
     {| files := files w ∪ {[path (Server.stored_file env f)]};
        trace := trace w
                 ++ [EvProcessCSV (path (Server.stored_file env f))] |}).
Proof.
  intros Hfield Hfilter Hsize Hext Hcsv.
  unfold Server.post_api_upload, try_catch, bind.
  rewrite (upload_single_accepts env f w Hfield Hfilter Hsize).
  rewrite (handler_exits env (Server.stored_file env f)
             [EvProcessCSV (path (Server.stored_file env f))] e).
  - reflexivity.
  - now apply process_exits.
Qed.

(** Every request ends in exactly one of the six answered outcomes, and
    then the route itself does not throw, or it is never answered because
    the process exits. *)
Lemma pipeline_outcome env req w :
  (exists evs r,
     outcome env req evs r
     /\ fst (Server.post_api_upload env req w) = Completes (Normal tt)
     /\ trace (snd (Server.post_api_upload env req w))
        = trace w ++ evs ++ [EvSend r])
  \/ exits_unanswered env req w.
Proof.
  destruct req as [f|].
  - destruct (String.eqb (in_fieldname f) "file") eqn:Hfield.
    + destruct (fileFilter_cases f) as [Hf|Hf].
      * destruct (N.leb_spec Server.fileSize_limit (in_size f)) as [Hle|Hlt].
        -- left. eexists _, _. split; [apply out_too_large; eassumption|].
           rewrite pipeline_too_large by assumption. auto.
        -- destruct (process_reads env (Server.stored_file env f)
                       (extension_of (in_originalname f))
                       (Server.initial_info env (Server.stored_file env f)
                          (extension_of (in_originalname f))))
             as [(evs & c & Hp & Hcalls & _) | (e & Hext & Hcsv & _)].
           ++ left.
              destruct (unlink_error env (path (Server.stored_file env f)))
                as [e|] eqn:Hun.
              ** eexists _, _.
                 split; [eapply out_unlink_refused; eassumption|].
                 rewrite (pipeline_unlink_refused env f w evs c e)
                   by assumption.
                 simpl. auto.
              ** eexists _, _. split; [apply out_processed; eassumption|].
                 rewrite (pipeline_accepted env f w evs c) by assumption.
                 simpl. split; [reflexivity|]. now rewrite <- app_assoc.
           ++ right. exists f, e. apply String.eqb_eq in Hfield as Hname.
              split_and!; auto.
              apply pipeline_exits; assumption.
      * left. eexists _, _. split; [apply out_invalid_type; eassumption|].
        rewrite pipeline_invalid_type by assumption. auto.
    + left. eexists _, _. split; [apply out_unexpected_field; eassumption|].
      rewrite pipeline_unexpected_field by assumption. auto.
  - left. eexists _, _. split; [apply out_no_file|].
    rewrite pipeline_no_file. auto.
Qed.

Lemma outcome_no_response env req evs r :
  outcome env req evs r -> responses evs = [].
Proof.
  intros H. destruct H; try reflexivity.
  - rewrite responses_app, responses_parser_calls by assumption. reflexivity.
  - now apply responses_parser_calls.
Qed.

(** The responses of a run: the one the route sends, or none when the
    process exits. *)
Lemma route_responses env req w :
  (exists evs r,
     outcome env req evs r
     /\ responses (trace (snd (Server.post_api_upload env req w)))
        = responses (trace w) ++ [r])
  \/ (exits_unanswered env req w
      /\ responses (trace (snd (Server.post_api_upload env req w)))
         = responses (trace w)).
Proof.
  destruct (pipeline_outcome env req w)
    as [(evs & r & Hout & _ & Htrace) | Hexit].
  - left. exists evs, r. split; [exact Hout|].
    rewrite Htrace, !responses_app, (outcome_no_response _ _ _ _ Hout).
    reflexivity.
  - right. split; [exact Hexit|].
    destruct Hexit as (f & e & _ & _ & _ & _ & _ & _ & Hrun).
    rewrite Hrun. simpl. rewrite responses_app. simpl. apply app_nil_r.
Qed.

(* ===================================================================== *)
(** * The claims *)
(* ===================================================================== *)

(** What the handler does guarantee.  When multer has stored the upload,
    the stream that reads it does not fail and the operating system lets the
    file go, the handler logs parser calls only, then unlinks the stored
    file, once, then sends its one response (the success answer or the
    processing-error answer, whichever the parse-and-summarize step came
    to); the file is absent from the file system at the moment the response
    is sent and after the request. *)
Lemma stored_file_removed_before_response
    (env : Env) (req : option IncomingFile) (w w1 : World) (file : MulterFile) :
  Server.upload_single env req w = (Completes (Normal (Some file)), w1) ->
  unlink_error env (path file) = None ->
  (forall e, csvParser env (path file) <> Exits e) ->
  exists evs c,
    path file ∈ files w1
    /\ reads_only
         (Server.process env file (extension_of (originalname file))
            (Server.initial_info env file (extension_of (originalname file))))
         evs c
    /\ forallb is_parser_call evs = true
    /\ fst (Server.post_api_upload env req w) = Completes (Normal tt)
    /\ trace (snd (Server.post_api_upload env req w))
       = trace w ++ evs ++ [EvUnlink (path file); EvSend (answer c)]
    /\ List.length
         (List.filter (is_unlink_of (path file))
            (evs ++ [EvUnlink (path file); EvSend (answer c)])) = 1%nat
    /\ (path file ∉ replay (evs ++ [EvUnlink (path file)]) (files w1))
    /\ (path file ∉ files (snd (Server.post_api_upload env req w))).
Proof.
  intros Hstored Hok Hread.
  destruct (upload_single_stored env req w file w1 Hstored)
    as (f & -> & Hfield & Hfilter & Hsize & -> & ->).
  destruct (process_reads env (Server.stored_file env f)
              (extension_of (in_originalname f))
              (Server.initial_info env (Server.stored_file env f)
                 (extension_of (in_originalname f))))
    as [(evs & c & Hp & Hcalls & _) | (e & _ & Hcsv & _)];
    [|now destruct (Hread e)].
  exists evs, c.
  rewrite (pipeline_accepted env f w evs c Hfield Hfilter Hsize Hp Hok).
  simpl. split_and!; auto.
  - set_solver.
  - rewrite List.filter_app, (unlinks_parser_calls _ evs) by assumption.
    simpl. now rewrite String.eqb_refl.
  - rewrite replay_app, (replay_parser_calls evs) by assumption. simpl. set_solver.
  - set_solver.
Qed.

(** C1 at a [data.csv] that multer has stored and whose read stream breaks
    off: the process exits right after the call of the parser, so no
    response is sent, nothing is unlinked, and the stored file is still in
    the uploads directory.  And at the same upload when the operating system
    refuses the unlink: the error reaches the outer [catch], which answers
    with status 500 and does not delete, so the request is completed and
    answered while the stored file is still there. *)
Theorem C1_stored_file_is_left_behind :
  (fst (Server.upload_single Demo2.env_read_error (Some Demo.csv_upload)
          Demo.world0)
   = Completes (Normal (Some (Server.stored_file Demo2.env_read_error
                                Demo.csv_upload)))
   /\ fst (Server.post_api_upload Demo2.env_read_error (Some Demo.csv_upload)
             Demo.world0)
      = Exits Demo2.read_error
   /\ trace (snd (Server.post_api_upload Demo2.env_read_error
                    (Some Demo.csv_upload) Demo.world0))
      = [ EvProcessCSV "/srv/app/uploads/file-1700000000000-123456789.csv" ]
   /\ "/srv/app/uploads/file-1700000000000-123456789.csv"
        ∈ files (snd (Server.post_api_upload Demo2.env_read_error
                        (Some Demo.csv_upload) Demo.world0)))
  /\ (fst (Server.upload_single Demo2.env_unlink_refused (Some Demo.csv_upload)
             Demo.world0)
      = Completes (Normal (Some (Server.stored_file Demo2.env_unlink_refused
                                   Demo.csv_upload)))
      /\ trace (snd (Server.post_api_upload Demo2.env_unlink_refused
                       (Some Demo.csv_upload) Demo.world0))
         = [ EvProcessCSV "/srv/app/uploads/file-1700000000000-123456789.csv";
             EvSend
               {| status := 500;
                  body := failure
                    "EPERM: operation not permitted, unlink '/srv/app/uploads/file-1700000000000-123456789.csv'" |} ]
      /\ "/srv/app/uploads/file-1700000000000-123456789.csv"
           ∈ files (snd (Server.post_api_upload Demo2.env_unlink_refused
                           (Some Demo.csv_upload) Demo.world0))).
Proof.
  split_and!; try reflexivity; apply bool_decide_unpack; vm_compute; exact I.
Qed.












(** Below the limit an accepted part is stored; at the limit itself it is
    already refused. *)
Lemma size_limit_is_exclusive (env : Env) (f : IncomingFile) (w : World) :
  in_fieldname f = "file" ->
  Server.fileFilter f = Normal true ->
  ((in_size f < 10485760)%N ->
   Server.upload_single env (Some f) w
   = (Completes (Normal (Some (Server.stored_file env f))),
      {| files := files w ∪ {[path (Server.stored_file env f)]};
         trace := trace w |}))
  /\ ((10485760 <= in_size f)%N ->
      Server.post_api_upload env (Some f) w
      = (Completes (Normal tt),
         appended w [EvSend {| status := 400;
                               body := failure Server.too_large_message |}])).
Proof.
  intros Hfield Hfilter. apply String.eqb_eq in Hfield. split; intros Hsize.
  - now apply upload_single_accepts.
  - now apply pipeline_too_large.
Qed.

Example exactly_10MiB_is_refused :
  responses (trace (snd (Server.post_api_upload Demo.env_abc
                           (Some Demo.limit_csv_upload) Demo.world0)))
  = [ {| status := 400;
         body := failure "File too large. Maximum size allowed is 10MB." |} ].
Proof. reflexivity. Qed.


(** The type check reads the extension in either case, on both sides. *)
Example upper_case_extension_is_accepted :
  Server.fileFilter (Demo.upload "REPORT.CSV" "text/plain" 10) = Normal true
  /\ Client.validateFile
       {| name := "REPORT.CSV"; type := "text/plain"; bf_size := 10 |} = None
  /\ Server.fileFilter (Demo.upload "REPORT.CSW" "text/plain" 10)
     = Throw (Error Server.invalid_type_message).
Proof. split_and!; reflexivity. Qed.

(** The server and the browser disagree on a file called [.csv]: Node sees
    no extension in a dot file, the suffix test does. *)
Example dot_file_differs :
  Server.fileFilter (Demo.upload ".csv" "text/plain" 10)
  = Throw (Error Server.invalid_type_message)
  /\ Client.validateFile {| name := ".csv"; type := "text/plain"; bf_size := 10 |}
     = None.
Proof. split; reflexivity. Qed.

(** The status codes of the route.  A request gets one response, unless
    the process exits on the read stream of a delimited file.  The status of
    the response is 200 exactly when it reports success; 400 exactly when
    the request carries no file or carries a file that passes the type check
    and has 10 MiB or more; 500 otherwise, which covers a file rejected by
    the type check and every failure that is caught. *)
Lemma route_status_codes (env : Env) (req : option IncomingFile) (w : World) :
  (exists r,
     responses (trace (snd (Server.post_api_upload env req w)))
     = responses (trace w) ++ [r]
     /\ (status r = 200%nat <-> success (body r) = true)
     /\ (status r = 400%nat <->
           (req = None
            \/ exists f, req = Some f
                         /\ in_fieldname f = "file"
                         /\ Server.fileFilter f = Normal true
                         /\ (10485760 <= in_size f)%N))
     /\ (status r = 200%nat \/ status r = 400%nat \/ status r = 500%nat)
     /\ (forall f, req = Some f ->
           Server.fileFilter f = Throw (Error Server.invalid_type_message) ->
           status r = 500%nat))
  \/ exits_unanswered env req w.
Proof.
  destruct (route_responses env req w)
    as [(evs & r & Hout & Hresp) | [Hexit _]]; [left | now right].
  exists r. split; [exact Hresp|].
  destruct Hout as [ | f Hfield | f Hfield Hfilter | f Hfield Hfilter Hsize
                   | f pevs c Hfield Hfilter Hsize Hp Hcalls Hok
                   | f pevs c e Hfield Hfilter Hsize Hp Hcalls Hno ]; simpl.
  - split_and!; auto; try (split; [discriminate | discriminate]).
    + split; auto.
    + intros f Hf. discriminate Hf.
  - apply String.eqb_neq in Hfield. split_and!; auto.
    + split; discriminate.
    + split; [discriminate|]. intros [H | (f' & H & Hn & _)]; [discriminate|].
      inversion H. subst f'. contradiction.
  - split_and!; auto.
    + split; discriminate.
    + split; [discriminate|]. intros [H | (f' & H & _ & Hf & _)]; [discriminate|].
      inversion H. subst f'. rewrite Hfilter in Hf. discriminate.
  - apply String.eqb_eq in Hfield. split_and!; auto.
    + split; discriminate.
    + split; auto. intros _. right. exists f. auto.
    + intros f' H Hf. inversion H. subst f'. rewrite Hfilter in Hf. discriminate.
  - destruct c as [res|e]; simpl; split_and!; auto.
    + split; auto.
    + split; [discriminate|]. intros [H | (f' & H & _ & _ & Hs)]; [discriminate|].
      inversion H. subst f'. unfold Server.fileSize_limit in Hsize. lia.
    + intros f' H Hf. inversion H. subst f'. rewrite Hfilter in Hf. discriminate.
    + split; discriminate.
    + split; [discriminate|]. intros [H | (f' & H & _ & _ & Hs)]; [discriminate|].
      inversion H. subst f'. unfold Server.fileSize_limit in Hsize. lia.
  - split_and!; auto.
    + split; discriminate.
    + split; [discriminate|]. intros [H | (f' & H & _ & _ & Hs)]; [discriminate|].
      inversion H. subst f'. unfold Server.fileSize_limit in Hsize. lia.
Qed.

(** C3 at a text file ([notes.txt], declared as text/plain, 120 bytes): it
    fails the type check, and the response has status 500, not the 400 of
    the other rejections (no file, too large), because the error middleware
    answers 400 for the size error of multer only. *)
Lemma C3_invalid_type_is_500 :
  Server.fileFilter Demo.text_upload
  = Throw (Error Server.invalid_type_message)
  /\ responses (trace (snd (Server.post_api_upload Demo.env_abc
                              (Some Demo.text_upload) Demo.world0)))
     = [ {| status := 500; body := failure Server.invalid_type_message |} ]
  /\ 500%nat <> 400%nat
  /\ responses (trace (snd (Server.post_api_upload Demo.env_abc
                              (Some Demo.big_csv_upload) Demo.world0)))
     = [ {| status := 400; body := failure Server.too_large_message |} ]
  /\ responses (trace (snd (Server.post_api_upload Demo.env_abc None
                              Demo.world0)))
     = [ {| status := 400; body := failure "No file uploaded" |} ].
Proof. split_and!; try reflexivity. discriminate. Qed.

(** C4, as the code has it. A file longer than 10,485,760 bytes is rejected
    with the size message (and status 400, nothing stored) when it passes the
    type check; when it fails the type check it is rejected with the
    invalid-type message instead, because multer asks the file filter before
    it counts bytes.  The two messages differ. *)
Theorem C4_oversize_file (env : Env) (f : IncomingFile) (w : World) :
  in_fieldname f = "file" ->
  (10485760 < in_size f)%N ->
  "File too large. Maximum size allowed is 10MB."
    <> "Invalid file type. Only CSV and Excel files are allowed."
  /\ ((Server.fileFilter f = Normal true
       /\ Server.post_api_upload env (Some f) w
          = (Completes (Normal tt),
             appended w
               [EvSend {| status := 400;
                          body := failure
                            "File too large. Maximum size allowed is 10MB." |}]))
      \/ (Server.fileFilter f = Throw (Error Server.invalid_type_message)
          /\ Server.post_api_upload env (Some f) w
             = (Completes (Normal tt),
                appended w
                  [EvSend {| status := 500;
                             body := failure
                               "Invalid file type. Only CSV and Excel files are allowed." |}]))).
Proof.
  intros Hfield Hsize. apply String.eqb_eq in Hfield.
  split; [discriminate|].
  destruct (fileFilter_cases f) as [Hf|Hf]; [left | right]; split; auto.
  - apply pipeline_too_large; auto. unfold Server.fileSize_limit. lia.
  - now apply pipeline_invalid_type.
Qed.

Lemma C4_witness :
  in_fieldname Demo.big_csv_upload = "file"
  /\ (10485760 < in_size Demo.big_csv_upload)%N
  /\ Server.post_api_upload Demo.env_abc (Some Demo.big_csv_upload) Demo.world0
     = (Completes (Normal tt),
        appended Demo.world0
          [EvSend {| status := 400;
                     body := failure
                       "File too large. Maximum size allowed is 10MB." |}]).
Proof.
  split; [reflexivity|]. split; [reflexivity|].
  destruct (C4_oversize_file Demo.env_abc Demo.big_csv_upload Demo.world0
              eq_refl eq_refl) as [_ [[_ H] | [H _]]].
  - exact H.
  - discriminate H.
Defined.

(** An oversize text file is turned away with the invalid-type message, by
    the server and by the browser-side check alike. *)
Lemma C4_oversize_text_file_gets_type_message :
  (10485760 < in_size Demo.big_text_upload)%N
  /\ responses (trace (snd (Server.post_api_upload Demo.env_abc
                              (Some Demo.big_text_upload) Demo.world0)))
     = [ {| status := 500;
            body := failure
              "Invalid file type. Only CSV and Excel files are allowed." |} ]
  /\ "Invalid file type. Only CSV and Excel files are allowed."
     <> Server.too_large_message
  /\ Client.validateFile
       {| name := "notes.txt"; type := "text/plain"; bf_size := 10485761 |}
     = Some "Invalid file type. Please upload CSV or Excel files only.".
Proof. split_and!; [reflexivity | reflexivity | discriminate | reflexivity]. Qed.

(** For a file that passes its type test, the browser-side check reports
    the size message above 10 MiB. *)
Lemma client_oversize (file : BrowserFile) :
  Client.validateFile file <> Some Client.invalid_type_message ->
  (10485760 < bf_size file)%N ->
  Client.validateFile file = Some Client.too_large_message.
Proof.
  unfold Client.validateFile. intros Htype Hsize.
  destruct (negb (includes Client.allowedTypes (type file)) && _);
    [now exfalso|].
  apply N.ltb_lt in Hsize.
  change (10 * 1024 * 1024)%N with 10485760%N. now rewrite Hsize.
Qed.

(** The dispatch of the handler on an extension that is neither .csv nor
    .xlsx/.xls throws at once, without a parser call. *)
Lemma process_unsupported env file ext info :
  ~ In ext [".csv"; ".xls"; ".xlsx"] ->
  reads_only (Server.process env file ext info) []
    (Throw (Error ("Unsupported file type: " +:+ ext))).
Proof.
  intros Hext. unfold Server.process.
  destruct (String.eqb ext ".csv") eqn:Hcsv.
  { apply String.eqb_eq in Hcsv. exfalso. apply Hext. now left. }
  destruct (includes [".xlsx"; ".xls"] ext) eqn:Hx.
  { apply includes_In in Hx. exfalso. apply Hext.
    destruct Hx as [<-|[<-|[]]]; simpl; auto. }
  apply reads_throw.
Qed.

(** C5. A stored upload (it passed the type check, here necessarily by its
    MIME type) whose lower-cased extension is none of .csv, .xls, .xlsx is
    answered with status 500 and the message "Error processing file:
    Unsupported file type: <extension>"; neither parser is called, and the
    stored file is unlinked before the answer (the operating system
    permitting). *)
Theorem C5_unsupported_extension (env : Env) (f : IncomingFile) (w : World) :
  in_fieldname f = "file" ->
  Server.fileFilter f = Normal true ->
  (in_size f < 10485760)%N ->
  ~ In (extension_of (in_originalname f)) [".csv"; ".xls"; ".xlsx"] ->
  unlink_error env (path (Server.stored_file env f)) = None ->
  In (in_mimetype f) Server.allowedTypes
  /\ Server.post_api_upload env (Some f) w
     = (Completes (Normal tt),
        {| files := files w ∖ {[path (Server.stored_file env f)]};
           trace :=
             trace w
             ++ [ EvUnlink (path (Server.stored_file env f));
                  EvSend
                    {| status := 500;
                       body :=
                         failure
                           ("Error processing file: Unsupported file type: "
                            +:+ extension_of (in_originalname f)) |} ] |})
  /\ List.filter is_parser_call
       (trace (snd (Server.post_api_upload env (Some f) w)))
     = List.filter is_parser_call (trace w).
Proof.
  intros Hfield Hfilter Hsize Hext Hok. apply String.eqb_eq in Hfield.
  assert (Hrun := pipeline_accepted env f w [] _ Hfield Hfilter Hsize
                    (process_unsupported env _ _ _ Hext) Hok).
  split_and!.
  - unfold Server.fileFilter in Hfilter.
    destruct (includes Server.allowedTypes (in_mimetype f)) eqn:Hm.
    + now apply includes_In.
    + destruct (includes Server.allowedExtensions
                  (toLowerCase (Path.extname (in_originalname f)))) eqn:He;
        [|simpl in Hfilter; discriminate].
      apply includes_In in He. contradiction.
  - exact Hrun.
  - rewrite Hrun. simpl. rewrite List.filter_app. simpl. apply app_nil_r.
Qed.

Lemma C5_witness :
  in_fieldname Demo.bare_upload = "file"
  /\ Server.fileFilter Demo.bare_upload = Normal true
  /\ extension_of (in_originalname Demo.bare_upload) = ""
  /\ responses (trace (snd (Server.post_api_upload Demo.env_abc
                              (Some Demo.bare_upload) Demo.world0)))
     = [ {| status := 500;
            body := failure "Error processing file: Unsupported file type: " |} ].
Proof.
  split; [reflexivity|]. split; [reflexivity|]. split; [reflexivity|].
  destruct (C5_unsupported_extension Demo.env_abc Demo.bare_upload Demo.world0
              eq_refl eq_refl) as (_ & Hrun & _).
  - vm_compute. reflexivity.
  - vm_compute. intros [H|[H|[H|[]]]]; discriminate H.
  - reflexivity.
  - rewrite Hrun. reflexivity.
Defined.

(** C8. The one response of a request either reports failure, and then it
    has a non-empty message and neither [data] nor [processingInfo], or
    reports success, and then it has both; so parsed data or a summary is
    present only when [success] is true.  (The one request without a response
    is the delimited upload whose read stream ends the process.) *)
Theorem C8_failure_has_no_data (env : Env) (req : option IncomingFile)
    (w : World) :
  (exists r,
     responses (trace (snd (Server.post_api_upload env req w)))
     = responses (trace w) ++ [r]
     /\ (success (body r) = false ->
           message (body r) <> ""
           /\ data (body r) = None
           /\ processingInfo (body r) = None)
     /\ (success (body r) = true ->
           exists d i, data (body r) = Some d /\ processingInfo (body r) = Some i)
     /\ (data (body r) <> None \/ processingInfo (body r) <> None ->
           success (body r) = true))
  \/ (exits_unanswered env req w
      /\ responses (trace (snd (Server.post_api_upload env req w)))
         = responses (trace w)).
Proof.
  destruct (route_responses env req w)
    as [(evs & r & Hout & Hresp) | Hexit]; [left | now right].
  exists r. split; [exact Hresp|].
  assert (Hshape :
    (success (body r) = false /\ message (body r) <> ""
     /\ data (body r) = None /\ processingInfo (body r) = None)
    \/ (success (body r) = true
        /\ exists d i, data (body r) = Some d /\ processingInfo (body r) = Some i)).
  { destruct Hout as [ | | | | f pevs c _ _ _ _ _ _ | f pevs c e _ _ _ _ _ _ ];
      try (left; simpl; split_and!; [reflexivity | discriminate
                                    | reflexivity | reflexivity]).
    - destruct c as [res|e]; simpl.
      + right. split; [reflexivity|]. eexists _, _. split; reflexivity.
      + left. split_and!; [reflexivity | discriminate | reflexivity | reflexivity].
    - left. simpl. split_and!; try reflexivity.
      destruct (err_message e); simpl; discriminate. }
  destruct Hshape as [(Hs & Hm & Hd & Hi) | (Hs & d & i & Hd & Hi)];
    rewrite Hs, Hd, Hi; split_and!.
  - auto.
  - discriminate.
  - intros [H|H]; contradiction.
  - discriminate.
  - intros _. eauto.
  - auto.
Qed.

(** C9. Releasing a stored file that is already gone does nothing: the
    clean-up block finds no file, skips the unlink and returns normally with
    the world unchanged, whatever an unlink would have done; and the handler
    answers with the very response it sends when the file is still there
    and can be removed, the only difference being the unlink.  (When the
    read stream of a delimited file ends the process, the clean-up is not
    reached at all.) *)
Theorem C9_release_of_missing_file (env : Env) (file : MulterFile) (w : World) :
  path file ∉ files w ->
  Server.cleanup env (path file) w = (Completes (Normal tt), w)
  /\ ((exists evs c,
         Server.upload_handler env (Some file) w
         = (Completes (Normal tt), appended w (evs ++ [EvSend (answer c)]))
         /\ (unlink_error env (path file) = None ->
             Server.upload_handler env (Some file)
               {| files := files w ∪ {[path file]}; trace := trace w |}
             = (Completes (Normal tt),
                appended w
                  (evs ++ [EvUnlink (path file); EvSend (answer c)]))))
      \/ (exists e,
            extension_of (originalname file) = ".csv"
            /\ csvParser env (path file) = Exits e
            /\ Server.upload_handler env (Some file) w
               = (Exits e, appended w [EvProcessCSV (path file)]))).
Proof.
  intros Hgone.
  split; [now apply cleanup_missing|].
  destruct (process_reads env file (extension_of (originalname file))
              (Server.initial_info env file
                 (extension_of (originalname file))))
    as [(evs & c & Hp & _ & _) | (e & Hext & Hcsv & Hex)].
  - left. exists evs, c. split.
    + now apply handler_missing.
    + intros Hok. rewrite (handler_stored env file evs c Hp Hok).
      unfold cleanup_events, appended. simpl.
      rewrite bool_decide_eq_true_2 by set_solver.
      f_equal. f_equal. set_solver.
  - right. exists e. split_and!; auto.
    now apply handler_exits.
Qed.

Lemma C9_witness :
  (path (Server.stored_file Demo2.env_unlink_refused Demo.csv_upload)
     ∉ files Demo.world0)
  /\ Server.cleanup Demo2.env_unlink_refused
       (path (Server.stored_file Demo2.env_unlink_refused
                Demo.csv_upload))
       Demo.world0
     = (Completes (Normal tt), Demo.world0).
Proof.
  assert (H : path (Server.stored_file Demo2.env_unlink_refused
                      Demo.csv_upload)
              ∉ files Demo.world0) by apply not_elem_of_empty.
  split; [exact H|].
  exact (proj1 (C9_release_of_missing_file Demo2.env_unlink_refused
                  (Server.stored_file Demo2.env_unlink_refused
                     Demo.csv_upload)
                  Demo.world0 H)).
Defined.

(** ** The type tag and the preview *)

Example tag_csv : substring1 (toUpperCase ".csv") = "CSV".
Proof. reflexivity. Qed.

Example tag_xlsx : substring1 (toUpperCase ".xlsx") = "XLSX".
Proof. reflexivity. Qed.

Lemma extname_dot_removed (p : string) :
  Path.extname p = "" \/ Path.extname p = "." +:+ substring1 (Path.extname p).
Proof.
  destruct (extname_shape p) as [H | [rest H]]; rewrite H; [now left | now right].
Qed.

Lemma preview_branch (d : ParsedTable) (info : ProcessingInfo) :
  Client.is_delimited_preview (Client.renderDataPreview (Some d) info) = true
  <-> fileType info = "CSV".
Proof.
  unfold Client.renderDataPreview.
  destruct (String.eqb (fileType info) "CSV") eqn:Htag; simpl.
  - apply String.eqb_eq in Htag. tauto.
  - apply String.eqb_neq in Htag. split; [discriminate | contradiction].
Qed.

(** C10. Whenever the response to an upload carries a summary, its
    [fileType] is the extension of the original name in upper case without
    its first character, and that character is the dot (an empty extension
    gives an empty tag); the browser builds the delimited preview from the
    response exactly when the tag is "CSV".  (The one request without a
    response is the delimited upload whose read stream ends the process.) *)
Theorem C10_type_tag_and_preview (env : Env) (req : option IncomingFile)
    (w : World) :
  (exists r,
     responses (trace (snd (Server.post_api_upload env req w)))
     = responses (trace w) ++ [r]
     /\ forall f info,
          req = Some f ->
          processingInfo (body r) = Some info ->
          fileType info
          = toUpperCase (substring1 (Path.extname (in_originalname f)))
          /\ (Path.extname (in_originalname f) = ""
              \/ Path.extname (in_originalname f)
                 = "." +:+ substring1 (Path.extname (in_originalname f)))
          /\ (Client.is_delimited_preview
                (Client.renderDataPreview (data (body r)) info) = true
              <-> fileType info = "CSV"))
  \/ (exits_unanswered env req w
      /\ responses (trace (snd (Server.post_api_upload env req w)))
         = responses (trace w)).
Proof.
  destruct (route_responses env req w)
    as [(evs & r & Hout & Hresp) | Hexit]; [left | now right].
  exists r. split; [exact Hresp|].
  intros f0 info Hreq Hinfo.
  destruct Hout as [ | | | | f pevs c _ _ _ Hp _ _ | f pevs c e _ _ _ _ _ _ ];
    try discriminate Hinfo.
  inversion Hreq. subst f0. clear Hreq.
  destruct (process_reads env (Server.stored_file env f)
              (extension_of (in_originalname f))
              (Server.initial_info env (Server.stored_file env f)
                 (extension_of (in_originalname f))))
    as [(evs' & c' & Hp' & _ & Htag) | (e & _ & _ & Hex)];
    [|destruct (reads_not_exits _ _ _ _ _ Hp Hex)].
  destruct (reads_only_fun _ _ _ _ _ Hp Hp') as [_ <-].
  destruct c as [res|e]; [|discriminate Hinfo].
  simpl in Hinfo. inversion Hinfo. subst info. simpl.
  split_and!.
  - rewrite (Htag res eq_refl). simpl. unfold extension_of.
    now rewrite toUpperCase_toLowerCase, substring1_toUpperCase.
  - apply extname_dot_removed.
  - apply preview_branch.
Qed.

(** The summary of the delimited example carries the tag CSV, and the
    browser shows the delimited preview for it. *)
Lemma C10_witness :
  exists r info,
    responses (trace (snd (Server.post_api_upload Demo.env_abc
                             (Some Demo.csv_upload) Demo.world0))) = [r]
    /\ processingInfo (body r) = Some info
    /\ fileType info = "CSV"
    /\ Client.is_delimited_preview
         (Client.renderDataPreview (data (body r)) info) = true.
Proof.
  destruct (C10_type_tag_and_preview Demo.env_abc (Some Demo.csv_upload)
              Demo.world0) as [(r & Hr & Htag) | [_ Hnone]];
    [|vm_compute in Hnone; discriminate Hnone].
  vm_compute in Hr. injection Hr as <-.
  eexists _, _. split; [reflexivity|]. split; [reflexivity|].
  destruct (Htag Demo.csv_upload _ eq_refl eq_refl) as (Ht & _ & Hprev).
  split; [exact Ht|]. apply Hprev. exact Ht.
Defined.

(** ** Key order of JavaScript objects *)

Section ObjectKeys.

Import JSObject.

Lemma index_keys_none (ks : list string) :
  (forall k, In k ks -> is_array_index k = false) ->
  index_keys ks = [] /\ named_keys ks = ks.
Proof.
  induction ks as [|k r IH]; intros Hall; simpl; [now split|].
  assert (Hk : is_array_index k = false) by (apply Hall; now left).
  destruct IH as [IHi IHn]; [intros k' Hk'; apply Hall; now right|].
  unfold is_array_index in Hk. unfold named_keys in *. simpl.
  unfold is_array_index at 1.
  destruct (array_index k); [discriminate|]. simpl.
  now rewrite IHi, IHn.
Qed.

(** Without array-index names, [Object.keys] is the creation order. *)
Lemma Object_keys_creation_order {V} (o : t V) :
  (forall k, In k (creation_order o) -> is_array_index k = false) ->
  Object_keys o = creation_order o.
Proof.
  intros Hall. unfold Object_keys.
  destruct (index_keys_none _ Hall) as [-> ->]. reflexivity.
Qed.

Lemma insert_by_index_perm (x : N * string) (l : list (N * string)) :
  Permutation (insert_by_index x l) (x :: l).
Proof.
  induction l as [|y r IH]; simpl; [reflexivity|].
  destruct (fst x <=? fst y)%N; [reflexivity|].
  rewrite IH. apply perm_swap.
Qed.

Lemma sort_by_index_perm (l : list (N * string)) :
  Permutation (sort_by_index l) l.
Proof.
  induction l as [|x r IH]; simpl; [reflexivity|].
  rewrite insert_by_index_perm. now constructor.
Qed.

Lemma insert_by_index_sorted (x : N * string) (l : list (N * string)) :
  Sorted (fun a b => (fst a <= fst b)%N) l ->
  Sorted (fun a b => (fst a <= fst b)%N) (insert_by_index x l).
Proof.
  induction l as [|y r IH]; intros Hs; simpl.
  - repeat constructor.
  - destruct (N.leb_spec (fst x) (fst y)) as [Hle|Hgt].
    + constructor; [exact Hs | now constructor].
    + inversion Hs as [|? ? Hr Hhd]; subst.
      constructor; [now apply IH|].
      destruct r as [|z r']; simpl.
      * constructor. lia.
      * destruct (fst x <=? fst z)%N; constructor; [lia|].
        now inversion Hhd.
Qed.

(** The array-index names come out in ascending numeric order. *)
Lemma sort_by_index_sorted (l : list (N * string)) :
  Sorted (fun a b => (fst a <= fst b)%N) (sort_by_index l).
Proof.
  induction l as [|x r IH]; simpl; [constructor|].
  now apply insert_by_index_sorted.
Qed.

Lemma keys_split_perm (ks : list string) :
  Permutation (map snd (index_keys ks) ++ named_keys ks) ks.
Proof.
  induction ks as [|k r IH]; simpl; [reflexivity|].
  unfold named_keys in *. simpl. unfold is_array_index at 1.
  destruct (array_index k) as [n|]; simpl.
  - now constructor.
  - rewrite <- Permutation_middle. now constructor.
Qed.

(** [Object.keys] lists every property name once, whatever the order. *)
Lemma Object_keys_perm {V} (o : t V) :
  Permutation (Object_keys o) (creation_order o).
Proof.
  unfold Object_keys.
  rewrite (Permutation_map snd (sort_by_index_perm _)).
  apply keys_split_perm.
Qed.

Lemma set_fresh {V} (k : string) (v : V) (o : t V) :
  k <> "__proto__" ->
  ~ In k (creation_order o) -> set k v o = o ++ [(k, v)].
Proof.
  intros Hproto. unfold set.
  apply String.eqb_neq in Hproto. rewrite Hproto. clear Hproto.
  induction o as [|[k' v'] r IH]; intros Hk; simpl; [reflexivity|].
  destruct (String.eqb k k') eqn:Heq.
  - apply String.eqb_eq in Heq. exfalso. apply Hk. now left.
  - rewrite IH; [reflexivity|]. intros Hin. apply Hk. now right.
Qed.

(** Storing distinct fresh names one after the other creates the
    properties in that order. *)
Lemma fold_set_fresh {V} (g : string -> V) (names : list string) :
  List.NoDup names ->
  ~ In "__proto__" names ->
  forall acc : t V,
    (forall n, In n names -> ~ In n (creation_order acc)) ->
    fold_left (fun o n => set n (g n) o) names acc
    = acc ++ map (fun n => (n, g n)) names.
Proof.
  induction 1 as [|n rest Hn Hnd IH]; intros Hproto acc Hfresh; simpl.
  - now rewrite app_nil_r.
  - rewrite set_fresh.
    + rewrite IH.
      * now rewrite <- app_assoc.
      * intros Hin. apply Hproto. now right.
      * intros m Hm. unfold creation_order. rewrite map_app, in_app_iff. simpl.
        intros [Hin | [<- | []]].
        -- apply (Hfresh m); [now right | exact Hin].
        -- contradiction.
    + intros ->. apply Hproto. now left.
    + apply Hfresh. now left.
Qed.

Lemma get_tabulated {V} (g : string -> V) (names : list string) (n : string) :
  In n names -> get n (map (fun m => (m, g m)) names) = Some (g n).
Proof.
  induction names as [|m r IH]; intros Hin; simpl; [contradiction|].
  destruct (String.eqb n m) eqn:Heq.
  - apply String.eqb_eq in Heq. now subst.
  - apply IH. destruct Hin as [->|Hin]; [|exact Hin].
    now rewrite String.eqb_refl in Heq.
Qed.

Lemma creation_order_tabulated {V} (g : string -> V) (names : list string) :
  creation_order (map (fun m => (m, g m)) names) = names.
Proof.
  unfold creation_order. rewrite map_map. simpl. apply map_id.
Qed.

End ObjectKeys.

Lemma list_sum_perm (l l' : list nat) :
  Permutation l l' -> list_sum l = list_sum l'.
Proof. induction 1; simpl; lia. Qed.

(** The row total of the handler over names that are all present. *)
Lemma sum_rows_tabulated (g : string -> list Row) (names : list string) :
  forall (keys : list string) (total : nat),
    (forall k, In k keys -> In k names) ->
    reads_only
      (Server.sum_rows (map (fun m => (m, g m)) names) keys total) []
      (Normal (total + list_sum (map (fun k => List.length (g k)) keys))%nat).
Proof.
  induction keys as [|k r IH]; intros total Hall; simpl.
  - rewrite Nat.add_0_r. apply reads_ret.
  - rewrite get_tabulated by (apply Hall; now left).
    replace (total + (List.length (g k)
                      + list_sum (map (fun k0 => List.length (g k0)) r)))%nat
      with ((total + List.length (g k))
            + list_sum (map (fun k0 => List.length (g k0)) r))%nat by lia.
    apply IH. intros k' Hk'. apply Hall. now right.
Qed.

(** ** The summary of a delimited file *)

Lemma process_delimited env file info rows :
  csvParser env (path file) = Completes (Normal rows) ->
  reads_only (Server.process env file ".csv" info)
    [EvProcessCSV (path file)]
    (Normal
       (Delimited rows,
        {| fileName := fileName info; fileSize := fileSize info;
           fileType := fileType info; processedAt := processedAt info;
           rowCount := Some (List.length rows);
           columns := Some (match rows with
                            | first :: _ => JSObject.Object_keys first
                            | [] => []
                            end);
           sheetCount := sheetCount info; sheetNames := sheetNames info;
           totalRows := totalRows info |})).
Proof.
  intros Hcsv. unfold Server.process. simpl.
  pose proof (processCSV_reads env (path file) _ Hcsv) as Hp.
  apply (reads_bind _ _ [EvProcessCSV (path file)] []) with rows;
    [exact Hp | apply reads_ret].
Qed.

(** What holds of the summary of every delimited file that parses: the row
    count is the number of rows, [columns] is present and is [Object.keys] of
    the first row (empty without rows), which is the creation order of that
    row's properties when none of the column names is an array index. *)
Lemma delimited_summary (env : Env) (f : IncomingFile) (w : World)
    (rows : list Row) :
  in_fieldname f = "file" ->
  extension_of (in_originalname f) = ".csv" ->
  (in_size f < 10485760)%N ->
  csvParser env (path (Server.stored_file env f)) = Completes (Normal rows) ->
  unlink_error env (path (Server.stored_file env f)) = None ->
  exists info,
    responses (trace (snd (Server.post_api_upload env (Some f) w)))
    = responses (trace w)
      ++ [ {| status := 200;
              body := {| success := true;
                         message := "File processed successfully";
                         data := Some (Delimited rows);
                         processingInfo := Some info |} |} ]
    /\ rowCount info = Some (List.length rows)
    /\ columns info
       = Some (match rows with
               | first :: _ => JSObject.Object_keys first
               | [] => []
               end)
    /\ (rows = [] -> rowCount info = Some 0%nat /\ columns info = Some [])
    /\ (forall first rest,
          rows = first :: rest ->
          (forall k, In k (JSObject.creation_order first) ->
                     JSObject.is_array_index k = false) ->
          columns info = Some (JSObject.creation_order first)).
Proof.
  intros Hfield Hext Hsize Hcsv Hok. apply String.eqb_eq in Hfield.
  assert (Hfilter : Server.fileFilter f = Normal true).
  { unfold Server.fileFilter. fold (extension_of (in_originalname f)).
    rewrite Hext. now rewrite orb_true_r. }
  pose proof (process_delimited env (Server.stored_file env f)
                (Server.initial_info env (Server.stored_file env f) ".csv")
                rows Hcsv) as Hp.
  rewrite <- Hext in Hp at 1 2.
  eexists. rewrite (pipeline_accepted env f w _ _ Hfield Hfilter Hsize Hp Hok).
  simpl. rewrite !responses_app. simpl. split_and!; try reflexivity.
  - intros ->. split; reflexivity.
  - intros first rest -> Hnames.
    now rewrite Object_keys_creation_order.
Qed.

Lemma delimited_summary_witness :
  exists info,
    responses (trace (snd (Server.post_api_upload Demo.env_abc
                             (Some Demo.csv_upload) Demo.world0)))
    = [ {| status := 200;
           body := {| success := true;
                      message := "File processed successfully";
                      data := Some (Delimited Demo.rows_abc);
                      processingInfo := Some info |} |} ]
    /\ rowCount info = Some 2%nat
    /\ columns info = Some ["a"; "b"; "c"].
Proof.
  destruct (delimited_summary Demo.env_abc Demo.csv_upload Demo.world0
              Demo.rows_abc eq_refl eq_refl) as (info & Hr & Hn & Hc & _).
  - vm_compute. reflexivity.
  - reflexivity.
  - reflexivity.
  - exists info. split_and!; [exact Hr | exact Hn | exact Hc].
Defined.

(** A header line alone: zero rows, and [columns] present and empty. *)
Example header_only_summary :
  map (fun r => (processingInfo (body r) ≫= rowCount,
                 processingInfo (body r) ≫= columns))
    (responses (trace (snd (Server.post_api_upload Demo.env_header_only
                              (Some Demo.csv_upload) Demo.world0))))
  = [ (Some 0%nat, Some []) ].
Proof. reflexivity. Qed.

(** C6 at a file whose header line is [b,1]: the first row holds its
    properties in the order b, 1, and the summary lists the columns as 1, b. *)
Theorem C6_numeric_header_is_listed_first :
  map JSObject.creation_order Demo.rows_b_1 = [ ["b"; "1"] ]
  /\ map (fun r => (processingInfo (body r) ≫= rowCount,
                    processingInfo (body r) ≫= columns))
       (responses (trace (snd (Server.post_api_upload Demo.env_b_1
                                 (Some Demo.csv_upload) Demo.world0))))
     = [ (Some 1%nat, Some ["1"; "b"]) ].
Proof. split; reflexivity. Qed.

(** ** The summary of a workbook *)

Lemma processExcel_tabulates env p readFile wb (rows_of : string -> list Row) :
  XLSX_readFile env = Some readFile ->
  readFile p = Normal wb ->
  List.NoDup (SheetNames wb) ->
  ~ In "__proto__" (SheetNames wb) ->
  (forall n, In n (SheetNames wb) ->
     sheet_to_json env (JSObject.get n (Sheets wb)) = Normal (rows_of n)) ->
  reads_only (Server.processExcel env p) [EvProcessExcel p]
    (Normal (map (fun n => (n, rows_of n)) (SheetNames wb))).
Proof.
  intros Hrf Hwb Hnd Hproto Hjson. unfold Server.processExcel. rewrite Hrf.
  apply reads_try.
  apply (reads_bind _ _ [EvProcessExcel p] []) with tt; [apply reads_emit|].
  apply (reads_bind _ _ [] []) with wb.
  - rewrite <- Hwb. apply reads_lift.
  - pose proof (forEach_sheet_ok env wb rows_of (SheetNames wb) Hjson
                  JSObject.empty) as Hloop.
    rewrite fold_set_fresh in Hloop; [exact Hloop | exact Hnd | exact Hproto |].
    intros n _ [].
Qed.

(** What holds of the summary of every workbook that parses and whose sheet
    names are distinct and ordinary (none is [__proto__]): the sheet count
    is the number of declared sheets, the total is the sum of the sheets' row
    counts, and [sheetNames] holds the declared names in [Object.keys] order,
    which is the declared order when no sheet name is an array index. *)
Lemma workbook_summary env file ext info readFile wb
    (rows_of : string -> list Row) :
  In ext [".xlsx"; ".xls"] ->
  XLSX_readFile env = Some readFile ->
  readFile (path file) = Normal wb ->
  List.NoDup (SheetNames wb) ->
  ~ In "__proto__" (SheetNames wb) ->
  (forall n, In n (SheetNames wb) ->
     sheet_to_json env (JSObject.get n (Sheets wb)) = Normal (rows_of n)) ->
  exists info' names,
    reads_only (Server.process env file ext info)
      [EvProcessExcel (path file)]
      (Normal (Workbook (map (fun n => (n, rows_of n)) (SheetNames wb)), info'))
    /\ sheetCount info' = Some (List.length (SheetNames wb))
    /\ totalRows info'
       = Some (list_sum (map (fun n => List.length (rows_of n)) (SheetNames wb)))
    /\ sheetNames info' = Some names
    /\ Permutation names (SheetNames wb)
    /\ ((forall n, In n (SheetNames wb) -> JSObject.is_array_index n = false)
        -> names = SheetNames wb).
Proof.
  intros Hext Hrf Hwb Hnd Hproto Hjson.
  set (fileData := map (fun n => (n, rows_of n)) (SheetNames wb)).
  assert (Hperm : Permutation (JSObject.Object_keys fileData) (SheetNames wb)).
  { rewrite Object_keys_perm. unfold fileData.
    now rewrite creation_order_tabulated. }
  assert (Hcsv : String.eqb ext ".csv" = false
                 /\ includes [".xlsx"; ".xls"] ext = true).
  { destruct Hext as [<-|[<-|[]]]; split; reflexivity. }
  destruct Hcsv as [Hcsv Hx].
  eexists _, (JSObject.Object_keys fileData). split_and!.
  - unfold Server.process. rewrite Hcsv, Hx.
    apply (reads_bind _ _ [EvProcessExcel (path file)] []) with fileData.
    { now apply processExcel_tabulates with readFile. }
    apply (reads_bind _ _ [] []) with
      (0 + list_sum (map (fun k => List.length (rows_of k))
                       (JSObject.Object_keys fileData)))%nat.
    { apply sum_rows_tabulated. intros k Hk.
      now apply (Permutation_in _ Hperm). }
    apply reads_ret.
  - simpl. f_equal. now apply Permutation_length.
  - simpl. f_equal. apply list_sum_perm. now apply Permutation_map.
  - reflexivity.
  - exact Hperm.
  - intros Hnames. rewrite Object_keys_creation_order.
    + apply creation_order_tabulated.
    + unfold fileData. now rewrite creation_order_tabulated.
Qed.

Lemma workbook_summary_witness :
  exists info' names,
    reads_only
      (Server.process Demo.env_named
         (Server.stored_file Demo.env_named Demo.xlsx_upload) ".xlsx"
         (Server.initial_info Demo.env_named
            (Server.stored_file Demo.env_named Demo.xlsx_upload) ".xlsx"))
      [EvProcessExcel
         (path (Server.stored_file Demo.env_named Demo.xlsx_upload))]
      (Normal
         (Workbook
            (map (fun n =>
                    (n, match Demo.grid_to_json
                                (JSObject.get n (Sheets Demo.workbook_named))
                        with
                        | Normal rows => rows
                        | Throw _ => []
                        end))
               ["Summary"; "Detail"]),
          info'))
    /\ sheetCount info' = Some 2%nat
    /\ totalRows info' = Some 8%nat
    /\ sheetNames info' = Some names
    /\ names = ["Summary"; "Detail"].
Proof.
  destruct (workbook_summary Demo.env_named
              (Server.stored_file Demo.env_named Demo.xlsx_upload) ".xlsx"
              (Server.initial_info Demo.env_named
                 (Server.stored_file Demo.env_named Demo.xlsx_upload) ".xlsx")
              (fun _ => Normal Demo.workbook_named) Demo.workbook_named
              (fun n => match Demo.grid_to_json
                                (JSObject.get n (Sheets Demo.workbook_named))
                        with
                        | Normal rows => rows
                        | Throw _ => []
                        end))
    as (info' & names & Hp & Hc & Ht & Hn & _ & Hsame).
  - now left.
  - reflexivity.
  - reflexivity.
  - apply List.NoDup_cons; [simpl; intros [H|[]]; discriminate H|].
    apply List.NoDup_cons; [intros [] | apply List.NoDup_nil].
  - simpl. intros [H|[H|[]]]; discriminate H.
  - intros n [<- | [<- | []]]; reflexivity.
  - exists info', names. split_and!; auto.
    apply Hsame. intros n [<- | [<- | []]]; reflexivity.
Defined.

(** Two sheets of 5 and 3 rows with ordinary names: 2 sheets, 8 rows, names
    in declared order. *)
Example named_workbook_summary :
  SheetNames Demo.workbook_named = ["Summary"; "Detail"]
  /\ map (fun r => (processingInfo (body r) ≫= sheetCount,
                    processingInfo (body r) ≫= totalRows,
                    processingInfo (body r) ≫= sheetNames))
       (responses (trace (snd (Server.post_api_upload Demo.env_named
                                 (Some Demo.xlsx_upload) Demo.world0))))
     = [ (Some 2%nat, Some 8%nat, Some ["Summary"; "Detail"]) ].
Proof. split; reflexivity. Qed.

(** C7 at a workbook that declares its sheets as 2024 (5 rows), then 2023
    (3 rows): the summary counts 2 sheets and 8 rows, and lists the names as
    2023, 2024. *)
Theorem C7_numeric_sheet_names_are_reordered :
  SheetNames Demo.workbook_years = ["2024"; "2023"]
  /\ map (fun r => (processingInfo (body r) ≫= sheetCount,
                    processingInfo (body r) ≫= totalRows,
                    processingInfo (body r) ≫= sheetNames))
       (responses (trace (snd (Server.post_api_upload Demo.env_years
                                 (Some Demo.xlsx_upload) Demo.world0))))
     = [ (Some 2%nat, Some 8%nat, Some ["2023"; "2024"]) ].
Proof. split; reflexivity. Qed.

(* ===================================================================== *)
(** * Further properties of the server *)
(* ===================================================================== *)

(** ** What a request does to the file system *)

(** A request that multer does not store (no file part, wrong field, type
    or size rejected) is answered with one failure response and nothing
    else happens: no file appears or disappears, no parser runs. *)
Theorem rejected_request_touches_nothing
    (env : Env) (req : option IncomingFile) (w : World) :
  (forall file w1,
      Server.upload_single env req w
      <> (Completes (Normal (Some file)), w1)) ->
  exists r,
    Server.post_api_upload env req w
    = (Completes (Normal tt), appended w [EvSend r])
    /\ success (body r) = false
    /\ data (body r) = None.
Proof.
  intros Hnot. destruct req as [f|].
  - destruct (String.eqb (in_fieldname f) "file") eqn:Hfield.
    + destruct (fileFilter_cases f) as [Hf|Hf].
      * destruct (N.leb_spec Server.fileSize_limit (in_size f)) as [Hle|Hlt].
        -- eexists. rewrite pipeline_too_large by assumption. auto.
        -- exfalso. eapply Hnot. now apply upload_single_accepts.
      * eexists. rewrite pipeline_invalid_type by assumption. auto.
    + eexists. rewrite pipeline_unexpected_field by assumption. auto.
  - eexists. rewrite pipeline_no_file. auto.
Qed.

Lemma rejected_request_witness :
  exists r,
    Server.post_api_upload Demo.env_abc (Some Demo.text_upload) Demo.world0
    = (Completes (Normal tt), appended Demo.world0 [EvSend r])
    /\ success (body r) = false
    /\ data (body r) = None.
Proof.
  apply rejected_request_touches_nothing.
  intros file w1 H. vm_compute in H. discriminate H.
Defined.

(** What a request does to the file system, case by case. *)
Lemma route_files (env : Env) (req : option IncomingFile) (w : World) :
  files (snd (Server.post_api_upload env req w)) = files w
  \/ exists f,
       req = Some f
       /\ String.eqb (in_fieldname f) "file" = true
       /\ Server.fileFilter f = Normal true
       /\ (in_size f < Server.fileSize_limit)%N
       /\ ((unlink_error env (path (Server.stored_file env f)) = None
            /\ fst (Server.post_api_upload env req w) = Completes (Normal tt)
            /\ files (snd (Server.post_api_upload env req w))
               = files w ∖ {[path (Server.stored_file env f)]})
           \/ ((exists e,
                  unlink_error env (path (Server.stored_file env f)) = Some e
                  /\ fst (Server.post_api_upload env req w)
                     = Completes (Normal tt))
               /\ files (snd (Server.post_api_upload env req w))
                  = files w ∪ {[path (Server.stored_file env f)]})
           \/ ((exists e,
                  extension_of (in_originalname f) = ".csv"
                  /\ csvParser env (path (Server.stored_file env f)) = Exits e
                  /\ fst (Server.post_api_upload env req w) = Exits e)
               /\ files (snd (Server.post_api_upload env req w))
                  = files w ∪ {[path (Server.stored_file env f)]})).
Proof.
  destruct req as [f|]; [|now left].
  destruct (String.eqb (in_fieldname f) "file") eqn:Hfield;
    [|left; now rewrite pipeline_unexpected_field].
  destruct (fileFilter_cases f) as [Hf|Hf];
    [|left; now rewrite pipeline_invalid_type].
  destruct (N.leb_spec Server.fileSize_limit (in_size f)) as [Hle|Hlt];
    [left; now rewrite pipeline_too_large|].
  right. exists f. split_and!; auto.
  destruct (process_reads env (Server.stored_file env f)
              (extension_of (in_originalname f))
              (Server.initial_info env (Server.stored_file env f)
                 (extension_of (in_originalname f))))
    as [(evs & c & Hp & _ & _) | (e & Hext & Hcsv & _)].
  - destruct (unlink_error env (path (Server.stored_file env f)))
      as [e|] eqn:Hun.
    + right. left.
      rewrite (pipeline_unlink_refused env f w evs c e) by assumption.
      split; [exists e; auto | reflexivity].
    + left. rewrite (pipeline_accepted env f w evs c) by assumption. auto.
  - right. right. rewrite (pipeline_exits env f w e) by assumption.
    split; [exists e; auto | reflexivity].
Qed.

(** The handler and the file system.  Whatever file multer hands over as
    [req.file] and whatever the state of the disk, the handler creates no
    file and touches no path but that of [req.file].  That path is still
    there afterwards exactly when it was there before and either the
    operating system refuses the unlink or the read stream of a delimited
    file ends the process before the clean-up; in every other case it is
    gone.  Without a file in the request the handler leaves the file system
    alone. *)
Theorem handler_file_system_frame
    (env : Env) (file : MulterFile) (w : World) :
  (forall p,
      p <> path file ->
      (p ∈ files (snd (Server.upload_handler env (Some file) w))
       <-> p ∈ files w))
  /\ (path file ∈ files (snd (Server.upload_handler env (Some file) w))
      <-> path file ∈ files w
          /\ (unlink_error env (path file) <> None
              \/ (extension_of (originalname file) = ".csv"
                  /\ exists e, csvParser env (path file) = Exits e)))
  /\ files (snd (Server.upload_handler env None w)) = files w.
Proof.
  assert (Hcases :
    (files (snd (Server.upload_handler env (Some file) w)) = files w
     /\ (path file ∈ files w ->
         unlink_error env (path file) <> None
         \/ (extension_of (originalname file) = ".csv"
             /\ exists e, csvParser env (path file) = Exits e)))
    \/ (files (snd (Server.upload_handler env (Some file) w))
        = files w ∖ {[path file]}
        /\ unlink_error env (path file) = None
        /\ forall e, csvParser env (path file) = Exits e ->
                     extension_of (originalname file) <> ".csv")).
  { destruct (process_reads env file (extension_of (originalname file))
                (Server.initial_info env file
                   (extension_of (originalname file))))
      as [(evs & c & Hp & _ & _) | (e & Hext & Hcsv & Hex)].
    - assert (Hno : forall e, csvParser env (path file) = Exits e ->
                              extension_of (originalname file) <> ".csv").
      { intros e He Hext.
        exact (reads_not_exits _ _ _ _ _ Hp (process_exits env file _ _ e Hext He)). }
      destruct (unlink_error env (path file)) as [e|] eqn:Hun.
      + left. destruct (decide (path file ∈ files w)) as [Hin|Hout].
        * rewrite (handler_unlink_refused env file evs c e w Hp Hun Hin).
          split; [reflexivity|]. intros _. left. discriminate.
        * rewrite (handler_missing env file evs c w Hp Hout).
          split; [reflexivity|]. intros Hin. contradiction.
      + right. rewrite (handler_stored env file evs c Hp Hun). auto.
    - left. rewrite (handler_exits env file _ e w Hex).
      split; [reflexivity|]. intros _. right. split; [exact Hext|]. now exists e. }
  split_and!.
  - intros p Hp. destruct Hcases as [[-> _] | [-> _]]; [reflexivity|].
    set_solver.
  - destruct Hcases as [[-> Hwhy] | (-> & Hok & Hno)].
    + split; [intros Hin; split; [exact Hin | now apply Hwhy] | tauto].
    + split; [set_solver|].
      intros (_ & [Hun | (Hext & e & He)]); [contradiction|].
      now destruct (Hno e He).
  - reflexivity.
Qed.

(** Where the files of the uploads directory can come from, and how a
    request ends. *)
Lemma route_files_bound (env : Env) (req : option IncomingFile) (w : World)
    (p : string) :
  p ∈ files (snd (Server.post_api_upload env req w)) ->
  p ∈ files w
  \/ exists f,
       req = Some f
       /\ p = path (Server.stored_file env f)
       /\ (unlink_error env p <> None \/ exists e, csvParser env p = Exits e).
Proof.
  intros Hin.
  destruct (route_files env req w)
    as [H | (f & -> & _ & _ & _
             & [(_ & _ & H) | [((e & Hun & _) & H)
                              | ((e & _ & Hcsv & _) & H)]])];
    rewrite H in Hin.
  - now left.
  - left. set_solver.
  - apply elem_of_union in Hin. destruct Hin as [Hin|Hin]; [now left|].
    apply elem_of_singleton in Hin. subst p.
    right. exists f. split_and!; auto. left. rewrite Hun. discriminate.
  - apply elem_of_union in Hin. destruct Hin as [Hin|Hin]; [now left|].
    apply elem_of_singleton in Hin. subst p.
    right. exists f. split_and!; auto. right. now exists e.
Qed.

Lemma route_ends (env : Env) (req : option IncomingFile) (w : World) :
  (fst (Server.post_api_upload env req w) = Completes (Normal tt)
   /\ List.length (responses (trace (snd (Server.post_api_upload env req w))))
      = S (List.length (responses (trace w))))
  \/ (exists e f,
        fst (Server.post_api_upload env req w) = Exits e
        /\ req = Some f
        /\ extension_of (in_originalname f) = ".csv"
        /\ csvParser env (path (Server.stored_file env f)) = Exits e
        /\ responses (trace (snd (Server.post_api_upload env req w)))
           = responses (trace w)).
Proof.
  destruct (pipeline_outcome env req w)
    as [(evs & r & Hout & Hfst & Htrace)
       | (f & e & -> & _ & _ & _ & Hext & Hcsv & Hrun)].
  - left. split; [exact Hfst|].
    rewrite Htrace, !responses_app, (outcome_no_response _ _ _ _ Hout).
    simpl. rewrite length_app. simpl. lia.
  - right. exists e, f. rewrite Hrun. simpl.
    split_and!; auto. rewrite responses_app. simpl. apply app_nil_r.
Qed.

(** Requests that arrive in full, served one after the other.  The server
    never lets an error escape as a thrown value: either every request is
    answered, each once, or the process exits on the read stream of some
    delimited upload and the requests from that one on get no response.
    And a file is in the uploads directory afterwards only if it was there
    before, or it is the stored file of one of the requests and either its
    unlink was refused or its read stream ended the process. *)
Theorem serve_answers_until_the_process_exits
    (reqs : list (Env * option IncomingFile)) (w : World) :
  (forall p,
      p ∈ files (snd (Endpoints.serve reqs w)) ->
      p ∈ files w
      \/ exists env f,
           In (env, Some f) reqs
           /\ p = path (Server.stored_file env f)
           /\ (unlink_error env p <> None
               \/ exists e, csvParser env p = Exits e))
  /\ ((fst (Endpoints.serve reqs w) = Completes (Normal tt)
       /\ List.length (responses (trace (snd (Endpoints.serve reqs w))))
          = (List.length (responses (trace w)) + List.length reqs)%nat)
      \/ (exists e env f,
            fst (Endpoints.serve reqs w) = Exits e
            /\ In (env, Some f) reqs
            /\ extension_of (in_originalname f) = ".csv"
            /\ csvParser env (path (Server.stored_file env f)) = Exits e
            /\ (List.length (responses (trace (snd (Endpoints.serve reqs w))))
                < List.length (responses (trace w)) + List.length reqs)%nat)).
Proof.
  revert w. induction reqs as [|[env req] rest IH]; intros w; simpl.
  - split; [auto|]. left. split; [reflexivity | lia].
  - unfold bind.
    pose proof (route_ends env req w) as Hend.
    pose proof (route_files_bound env req w) as Hfiles.
    destruct (Server.post_api_upload env req w) as [c w1]. simpl in *.
    destruct Hend as [[-> Hone] | (e & f & -> & -> & Hext & Hcsv & Hnone)].
    + destruct (IH w1) as (Hf & Hr). split.
      * intros p Hp. destruct (Hf p Hp) as [Hin | (env' & f' & Hin & Hrest)].
        -- destruct (Hfiles p Hin) as [H | (f' & -> & Hrest)]; [now left|].
           right. exists env, f'. split; [now left | exact Hrest].
        -- right. exists env', f'. split; [now right | exact Hrest].
      * destruct Hr as [[Hfst Hlen] | (e & env' & f' & Hfst & Hin & Hrest)].
        -- left. split; [exact Hfst | rewrite Hlen, Hone; lia].
        -- right. exists e, env', f'. split; [exact Hfst|].
           split; [now right|].
           destruct Hrest as (H1 & H2 & Hlen). split_and!; auto.
           rewrite Hone in Hlen. lia.
    + simpl. split.
      * intros p Hp. destruct (Hfiles p Hp) as [H | (f' & Hf' & Hrest)];
          [now left|].
        inversion Hf'. subst f'.
        right. exists env, f. split; [now left | exact Hrest].
      * right. exists e, env, f. split_and!; auto.
        rewrite Hnone. lia.
Qed.

Lemma serve_stops_at_a_read_error :
  fst (Endpoints.serve
         [ (Demo.env_abc, Some Demo.csv_upload);
           (Demo2.env_read_error, Some Demo.csv_upload);
           (Demo.env_abc, Some Demo.csv_upload) ] Demo.world0)
  = Exits Demo2.read_error
  /\ List.length
       (responses
          (trace (snd (Endpoints.serve
                         [ (Demo.env_abc, Some Demo.csv_upload);
                           (Demo2.env_read_error, Some Demo.csv_upload);
                           (Demo.env_abc, Some Demo.csv_upload) ]
                         Demo.world0)))) = 1%nat.
Proof. split; reflexivity. Qed.

(** ** Dispatch and error reports *)

Lemma fileFilter_of_extension (f : IncomingFile) :
  In (extension_of (in_originalname f)) [".csv"; ".xls"; ".xlsx"] ->
  Server.fileFilter f = Normal true.
Proof.
  intros Hext. unfold Server.fileFilter. fold (extension_of (in_originalname f)).
  apply (includes_In Server.allowedExtensions) in Hext.
  rewrite Hext. now rewrite orb_true_r.
Qed.

Lemma get_of_key {V} (o : JSObject.t V) (k : string) :
  In k (JSObject.creation_order o) -> exists v, JSObject.get k o = Some v.
Proof.
  induction o as [|[k' v'] r IH]; simpl; [contradiction|].
  intros [<- | Hin].
  - rewrite String.eqb_refl. eauto.
  - destruct (String.eqb k k'); eauto.
Qed.

(** Summing over names that are all properties of the object never hits a
    missing entry. *)
Lemma sum_rows_of_keys (fileData : JSObject.t (list Row)) (keys : list string) :
  forall total,
    (forall k, In k keys -> In k (JSObject.creation_order fileData)) ->
    exists n, reads_only (Server.sum_rows fileData keys total) [] (Normal n).
Proof.
  induction keys as [|k r IH]; intros total Hall; simpl.
  - eexists. apply reads_ret.
  - destruct (get_of_key fileData k) as [v Hv]; [apply Hall; now left|].
    rewrite Hv. apply IH. intros k' Hk'. apply Hall. now right.
Qed.

(** Every way [processExcel] can fail is reported under its own prefix, as
    a plain [Error]. *)
Lemma processExcel_completion env p :
  exists c,
    reads_only (Server.processExcel env p) [EvProcessExcel p] c
    /\ (forall e, c = Throw e ->
          exists msg, e = Error ("Error processing Excel file: " +:+ msg)).
Proof.
  unfold Server.processExcel.
  destruct (load_workbook_reads env p) as [[wb|e] Hwb].
  - destruct (forEach_sheet_reads env wb (SheetNames wb) JSObject.empty)
      as [[o|e] Ho].
    + eexists. split.
      * apply reads_try.
        apply (reads_bind _ _ [_] []) with tt; [apply reads_emit|].
        apply (reads_bind _ _ [] []) with wb; [exact Hwb | exact Ho].
      * intros e He. discriminate He.
    + eexists. split.
      * apply (reads_try_throw _ _ [_] []) with e; [|apply reads_throw].
        apply (reads_bind _ _ [_] []) with tt; [apply reads_emit|].
        apply (reads_bind _ _ [] []) with wb; [exact Hwb | exact Ho].
      * intros e' He. inversion He. eauto.
  - eexists. split.
    + apply (reads_try_throw _ _ [_] []) with e; [|apply reads_throw].
      apply (reads_bind _ _ [_] []) with tt; [apply reads_emit|].
      apply reads_bind_throw. exact Hwb.
    + intros e' He. inversion He. eauto.
Qed.

(** The events and the possible completions of the parse-and-summarize step,
    by extension, when no read stream fails. *)
Lemma process_by_extension env file ext info :
  (ext = ".csv" -> forall e, csvParser env (path file) <> Exits e) ->
  exists c,
    reads_only (Server.process env file ext info)
      (if String.eqb ext ".csv" then [EvProcessCSV (path file)]
       else if includes [".xlsx"; ".xls"] ext
            then [EvProcessExcel (path file)]
            else [])
      c
    /\ (String.eqb ext ".csv" = true ->
          match csvParser env (path file) with
          | Completes (Normal rows) => exists i, c = Normal (Delimited rows, i)
          | Completes (Throw e) => c = Throw e
          | Exits _ => False
          end)
    /\ (String.eqb ext ".csv" = false ->
          includes [".xlsx"; ".xls"] ext = true ->
          (exists o i, c = Normal (Workbook o, i))
          \/ exists msg,
               c = Throw (Error ("Error processing Excel file: " +:+ msg))).
Proof.
  intros Hread. unfold Server.process.
  destruct (String.eqb ext ".csv") eqn:Hcsv.
  - apply String.eqb_eq in Hcsv.
    destruct (csvParser env (path file)) as [[rows|e]|e] eqn:Hc;
      [| |now destruct (Hread Hcsv e)].
    + pose proof (processCSV_reads env (path file) _ Hc) as Hp.
      eexists. split_and!.
      * eapply (reads_bind _ _ [_] []); [exact Hp | apply reads_ret].
      * intros _. eauto.
      * discriminate.
    + pose proof (processCSV_reads env (path file) _ Hc) as Hp.
      eexists. split_and!.
      * apply reads_bind_throw. exact Hp.
      * reflexivity.
      * discriminate.
  - destruct (includes [".xlsx"; ".xls"] ext).
    + destruct (processExcel_completion env (path file)) as ([o|e] & Ho & Hmsg).
      * destruct (sum_rows_of_keys o (JSObject.Object_keys o) 0%nat)
          as [total Hs].
        { intros k Hk. apply (Permutation_in _ (Object_keys_perm o) Hk). }
        eexists. split_and!.
        -- eapply (reads_bind _ _ [_] []); [exact Ho|].
           eapply (reads_bind _ _ [] []); [exact Hs | apply reads_ret].
        -- discriminate.
        -- intros _ _. left. eauto.
      * destruct (Hmsg e eq_refl) as [msg ->].
        eexists. split_and!.
        -- apply reads_bind_throw. exact Ho.
        -- discriminate.
        -- intros _ _. right. eauto.
    + eexists. split_and!.
      * apply reads_throw.
      * discriminate.
      * discriminate.
Qed.

(** The parser is chosen by the lower-cased extension of the original name
    alone: .csv calls the delimited parser once, .xlsx and .xls call the
    workbook parser once, anything else calls none; the declared MIME type
    plays no part, and never both parsers run.  (For a stored upload that
    can be unlinked and whose read stream, if it is a delimited file, does
    not fail.) *)
Theorem dispatch_by_extension_only
    (env : Env) (f : IncomingFile) (w : World) :
  in_fieldname f = "file" ->
  Server.fileFilter f = Normal true ->
  (in_size f < 10485760)%N ->
  unlink_error env (path (Server.stored_file env f)) = None ->
  (extension_of (in_originalname f) = ".csv" ->
   forall e, csvParser env (path (Server.stored_file env f)) <> Exits e) ->
  exists r,
    Server.post_api_upload env (Some f) w
    = (Completes (Normal tt),
       {| files := files w ∖ {[path (Server.stored_file env f)]};
          trace :=
            trace w
            ++ (if String.eqb (extension_of (in_originalname f)) ".csv"
                then [EvProcessCSV (path (Server.stored_file env f))]
                else if includes [".xlsx"; ".xls"]
                          (extension_of (in_originalname f))
                     then [EvProcessExcel (path (Server.stored_file env f))]
                     else [])
            ++ [EvUnlink (path (Server.stored_file env f)); EvSend r] |}).
Proof.
  intros Hfield Hfilter Hsize Hok Hread. apply String.eqb_eq in Hfield.
  destruct (process_by_extension env (Server.stored_file env f)
              (extension_of (in_originalname f))
              (Server.initial_info env (Server.stored_file env f)
                 (extension_of (in_originalname f))) Hread)
    as (c & Hp & _).
  exists (answer c).
  exact (pipeline_accepted env f w _ c Hfield Hfilter Hsize Hp Hok).
Qed.

Lemma dispatch_by_extension_witness :
  exists r,
    trace (snd (Server.post_api_upload Demo.env_named
                  (Some (Demo.upload "report.xlsx" "text/csv" 4096))
                  Demo.world0))
    = [ EvProcessExcel
          (path (Server.stored_file Demo.env_named
                   (Demo.upload "report.xlsx" "text/csv" 4096)));
        EvUnlink
          (path (Server.stored_file Demo.env_named
                   (Demo.upload "report.xlsx" "text/csv" 4096)));
        EvSend r ].
Proof.
  destruct (dispatch_by_extension_only Demo.env_named
              (Demo.upload "report.xlsx" "text/csv" 4096) Demo.world0
              eq_refl eq_refl) as [r Hr].
  - vm_compute. reflexivity.
  - reflexivity.
  - intros H. vm_compute in H. discriminate H.
  - exists r. rewrite Hr. reflexivity.
Defined.

(** A delimited upload can fail in two ways, and only one of them is
    reported.  When the parser stream raises the error, the response is 500
    and its message is the parser's own message after "Error processing
    file: "; the parser was called once and the stored file is unlinked
    before the answer.  When it is the read stream that raises the error,
    nothing listens: the process exits after the call of the parser, without
    a response and with the stored file left in place. *)
Theorem csv_failure_is_reported_or_fatal
    (env : Env) (f : IncomingFile) (w : World) (e : JSError) :
  in_fieldname f = "file" ->
  extension_of (in_originalname f) = ".csv" ->
  (in_size f < 10485760)%N ->
  (csvParser env (path (Server.stored_file env f)) = Completes (Throw e) ->
   unlink_error env (path (Server.stored_file env f)) = None ->
   Server.post_api_upload env (Some f) w
   = (Completes (Normal tt),
      {| files := files w ∖ {[path (Server.stored_file env f)]};
         trace :=
           trace w
           ++ [ EvProcessCSV (path (Server.stored_file env f));
                EvUnlink (path (Server.stored_file env f));
                EvSend {| status := 500;
                          body := failure ("Error processing file: "
                                           +:+ err_message e) |} ] |}))
  /\ (csvParser env (path (Server.stored_file env f)) = Exits e ->
      Server.post_api_upload env (Some f) w
      = (Exits e,
         {| files := files w ∪ {[path (Server.stored_file env f)]};
            trace :=
              trace w
              ++ [ EvProcessCSV (path (Server.stored_file env f)) ] |})).
Proof.
  intros Hfield Hext Hsize.
  assert (Hfilter : Server.fileFilter f = Normal true).
  { apply fileFilter_of_extension. rewrite Hext. now left. }
  apply String.eqb_eq in Hfield.
  split.
  - intros Hcsv Hok.
    assert (Hread : extension_of (in_originalname f) = ".csv" ->
                    forall e', csvParser env (path (Server.stored_file env f))
                               <> Exits e').
    { intros _ e'. rewrite Hcsv. discriminate. }
    destruct (process_by_extension env (Server.stored_file env f)
                (extension_of (in_originalname f))
                (Server.initial_info env (Server.stored_file env f)
                   (extension_of (in_originalname f))) Hread)
      as (c & Hp & Hc & _).
    rewrite Hext in Hc. specialize (Hc eq_refl). rewrite Hcsv in Hc. subst c.
    rewrite (pipeline_accepted env f w _ _ Hfield Hfilter Hsize Hp Hok).
    rewrite Hext. reflexivity.
  - intros Hcsv. now apply pipeline_exits.
Qed.

Lemma csv_failure_witness :
  responses (trace (snd (Server.post_api_upload Demo2.env_broken_csv
                           (Some Demo.csv_upload) Demo.world0)))
  = [ {| status := 500;
         body := failure "Error processing file: Invalid Record Length" |} ]
  /\ Server.post_api_upload Demo2.env_read_error (Some Demo.csv_upload)
       Demo.world0
     = (Exits Demo2.read_error,
        {| files :=
             files Demo.world0
             ∪ {[path (Server.stored_file Demo2.env_read_error
                         Demo.csv_upload)]};
           trace :=
             trace Demo.world0
             ++ [ EvProcessCSV
                    (path (Server.stored_file Demo2.env_read_error
                             Demo.csv_upload)) ] |}).
Proof.
  split.
  - destruct (csv_failure_is_reported_or_fatal Demo2.env_broken_csv
                Demo.csv_upload Demo.world0 (Error "Invalid Record Length")
                eq_refl eq_refl) as [H _].
    + vm_compute. reflexivity.
    + rewrite H by reflexivity. reflexivity.
  - destruct (csv_failure_is_reported_or_fatal Demo2.env_read_error
                Demo.csv_upload Demo.world0 Demo2.read_error
                eq_refl eq_refl) as [_ H].
    + vm_compute. reflexivity.
    + apply H. reflexivity.
Defined.

(** A workbook upload either succeeds with a workbook as data, or fails
    with status 500 and a message that starts "Error processing file: Error
    processing Excel file: "; whatever went wrong inside [processExcel]
    (opening the file, a missing library method, a sheet that does not
    convert) comes out under that double prefix.  (For a stored upload that
    can be unlinked.) *)
Theorem excel_failure_is_wrapped_twice
    (env : Env) (f : IncomingFile) (w : World) :
  in_fieldname f = "file" ->
  In (extension_of (in_originalname f)) [".xlsx"; ".xls"] ->
  (in_size f < 10485760)%N ->
  unlink_error env (path (Server.stored_file env f)) = None ->
  exists r,
    responses (trace (snd (Server.post_api_upload env (Some f) w)))
    = responses (trace w) ++ [r]
    /\ ((exists o i,
           r = {| status := 200;
                  body := {| success := true;
                             message := "File processed successfully";
                             data := Some (Workbook o);
                             processingInfo := Some i |} |})
        \/ exists msg,
             r = {| status := 500;
                    body := failure
                      ("Error processing file: Error processing Excel file: "
                       +:+ msg) |}).
Proof.
  intros Hfield Hext Hsize Hok.
  assert (Hfilter : Server.fileFilter f = Normal true).
  { apply fileFilter_of_extension.
    destruct Hext as [<-|[<-|[]]]; simpl; auto. }
  assert (Hd : String.eqb (extension_of (in_originalname f)) ".csv" = false
               /\ includes [".xlsx"; ".xls"]
                    (extension_of (in_originalname f)) = true).
  { destruct Hext as [<-|[<-|[]]]; split; reflexivity. }
  destruct Hd as [Hcsv Hx].
  apply String.eqb_eq in Hfield.
  assert (Hread : extension_of (in_originalname f) = ".csv" ->
                  forall e, csvParser env (path (Server.stored_file env f))
                            <> Exits e).
  { intros H. rewrite H in Hcsv. discriminate Hcsv. }
  destruct (process_by_extension env (Server.stored_file env f)
              (extension_of (in_originalname f))
              (Server.initial_info env (Server.stored_file env f)
                 (extension_of (in_originalname f))) Hread)
    as (c & Hp & _ & Hc).
  specialize (Hc Hcsv Hx). rewrite Hcsv, Hx in Hp.
  exists (answer c).
  rewrite (pipeline_accepted env f w _ _ Hfield Hfilter Hsize Hp Hok).
  simpl. rewrite !responses_app. simpl.
  split; [reflexivity|].
  destruct Hc as [(o & i & ->) | (msg & ->)]; [left | right]; simpl; eauto.
Qed.

Lemma excel_failure_witness :
  responses (trace (snd (Server.post_api_upload Demo.env_abc
                           (Some Demo.xlsx_upload) Demo.world0)))
  = [ {| status := 500;
         body := failure
           "Error processing file: Error processing Excel file: File is not a workbook" |} ].
Proof.
  destruct (excel_failure_is_wrapped_twice Demo.env_abc Demo.xlsx_upload
              Demo.world0 eq_refl) as (r & Hr & _).
  - now left.
  - vm_compute. reflexivity.
  - reflexivity.
  - rewrite Hr. vm_compute in Hr. injection Hr as <-. reflexivity.
Defined.

(** ** Inside [processExcel] *)

Lemma forEach_sheet_stops env wb (rows_of : string -> list Row)
    (before : list string) (n : string) (after : list string) (e : JSError) :
  (forall m, In m before ->
     sheet_to_json env (JSObject.get m (Sheets wb)) = Normal (rows_of m)) ->
  sheet_to_json env (JSObject.get n (Sheets wb)) = Throw e ->
  forall result,
    reads_only
      (Server.forEach_sheet env wb (before ++ n :: after) result) [] (Throw e).
Proof.
  intros Hbefore Hn. induction before as [|m r IH]; intros result; simpl.
  - apply reads_bind_throw. rewrite <- Hn. apply reads_lift.
  - apply (reads_bind _ _ [] []) with (rows_of m).
    + rewrite <- (Hbefore m) by now left. apply reads_lift.
    + apply IH. intros m' Hm'. apply Hbefore. now right.
Qed.

(** One sheet that does not convert fails the whole upload: the sheets read
    before it are dropped, the sheets after it are never converted, and the
    response carries the message of that sheet's error and no data.  (For a
    stored upload that can be unlinked.) *)
Theorem one_bad_sheet_fails_the_upload
    (env : Env) (f : IncomingFile) (w : World)
    (readFile : string -> completion WorkBook) (wb : WorkBook)
    (rows_of : string -> list Row)
    (before : list string) (n : string) (after : list string) (e : JSError) :
  in_fieldname f = "file" ->
  In (extension_of (in_originalname f)) [".xlsx"; ".xls"] ->
  (in_size f < 10485760)%N ->
  unlink_error env (path (Server.stored_file env f)) = None ->
  XLSX_readFile env = Some readFile ->
  readFile (path (Server.stored_file env f)) = Normal wb ->
  SheetNames wb = before ++ n :: after ->
  (forall m, In m before ->
     sheet_to_json env (JSObject.get m (Sheets wb)) = Normal (rows_of m)) ->
  sheet_to_json env (JSObject.get n (Sheets wb)) = Throw e ->
  responses (trace (snd (Server.post_api_upload env (Some f) w)))
  = responses (trace w)
    ++ [ {| status := 500;
            body := failure
              ("Error processing file: Error processing Excel file: "
               +:+ err_message e) |} ].
Proof.
  intros Hfield Hext Hsize Hok Hrf Hwb Hnames Hbefore Hn.
  assert (Hfilter : Server.fileFilter f = Normal true).
  { apply fileFilter_of_extension.
    destruct Hext as [<-|[<-|[]]]; simpl; auto. }
  assert (Hd : String.eqb (extension_of (in_originalname f)) ".csv" = false
               /\ includes [".xlsx"; ".xls"]
                    (extension_of (in_originalname f)) = true).
  { destruct Hext as [<-|[<-|[]]]; split; reflexivity. }
  destruct Hd as [Hcsv Hx].
  apply String.eqb_eq in Hfield.
  set (p := path (Server.stored_file env f)) in *.
  assert (Hexcel : reads_only (Server.processExcel env p) [EvProcessExcel p]
            (Throw (Error ("Error processing Excel file: " +:+ err_message e)))).
  { unfold Server.processExcel. rewrite Hrf.
    apply (reads_try_throw _ _ [_] []) with e; [|apply reads_throw].
    apply (reads_bind _ _ [_] []) with tt; [apply reads_emit|].
    apply (reads_bind _ _ [] []) with wb.
    - rewrite <- Hwb. apply reads_lift.
    - rewrite Hnames. now apply forEach_sheet_stops with rows_of. }
  assert (Hp : reads_only
            (Server.process env (Server.stored_file env f)
               (extension_of (in_originalname f))
               (Server.initial_info env (Server.stored_file env f)
                  (extension_of (in_originalname f))))
            [EvProcessExcel p]
            (Throw (Error ("Error processing Excel file: " +:+ err_message e)))).
  { unfold Server.process. rewrite Hcsv, Hx.
    apply reads_bind_throw. exact Hexcel. }
  rewrite (pipeline_accepted env f w _ _ Hfield Hfilter Hsize Hp Hok).
  simpl. rewrite !responses_app. reflexivity.
Qed.

Lemma one_bad_sheet_witness :
  responses (trace (snd (Server.post_api_upload Demo2.env_bad_sheet
                           (Some Demo.xlsx_upload) Demo.world0)))
  = [ {| status := 500;
         body := failure
           "Error processing file: Error processing Excel file: Sheet has no header row" |} ].
Proof.
  apply (one_bad_sheet_fails_the_upload Demo2.env_bad_sheet Demo.xlsx_upload
           Demo.world0 (fun _ => Normal Demo2.workbook_bad_sheet)
           Demo2.workbook_bad_sheet
           (fun n => match Demo2.strict_to_json
                             (JSObject.get n (Sheets Demo2.workbook_bad_sheet))
                     with
                     | Normal rows => rows
                     | Throw _ => []
                     end)
           ["Good"] "Bad" ["Later"] (Error "Sheet has no header row")).
  - reflexivity.
  - now left.
  - vm_compute. reflexivity.
  - reflexivity.
  - reflexivity.
  - reflexivity.
  - reflexivity.
  - intros m [<- | []]. reflexivity.
  - reflexivity.
Defined.

(** ** Lookup after store *)

Section ObjectStore.

Import JSObject.
Context {V : Type}.

Lemma get_set_own_eq (k : string) (v : V) (o : t V) :
  get k (set_own k v o) = Some v.
Proof.
  induction o as [|[k' v'] r IH]; simpl.
  - now rewrite String.eqb_refl.
  - destruct (String.eqb k k') eqn:Heq; simpl; now rewrite Heq.
Qed.

Lemma get_set_own_ne (k k' : string) (v : V) (o : t V) :
  k <> k' -> get k' (set_own k v o) = get k' o.
Proof.
  intros Hne. induction o as [|[k0 v0] r IH]; simpl.
  - apply not_eq_sym in Hne. apply String.eqb_neq in Hne. now rewrite Hne.
  - destruct (String.eqb k k0) eqn:Heq; simpl.
    + apply String.eqb_eq in Heq. subst k0.
      apply not_eq_sym in Hne. apply String.eqb_neq in Hne. now rewrite Hne.
    + now rewrite IH.
Qed.

(** Reading back a name just stored gives the stored value. *)
Lemma get_set_eq (k : string) (v : V) (o : t V) :
  k <> "__proto__" -> get k (set k v o) = Some v.
Proof.
  intros Hk. unfold set. apply String.eqb_neq in Hk. rewrite Hk.
  apply get_set_own_eq.
Qed.

(** Storing under one name leaves every other name as it was. *)
Lemma get_set_ne (k k' : string) (v : V) (o : t V) :
  k <> k' -> get k' (set k v o) = get k' o.
Proof.
  intros Hne. unfold set. destruct (String.eqb k "__proto__"); [reflexivity|].
  now apply get_set_own_ne.
Qed.

Lemma keys_set_own (k : string) (v : V) (o : t V) :
  (In k (creation_order o) /\ creation_order (set_own k v o) = creation_order o)
  \/ (~ In k (creation_order o)
      /\ creation_order (set_own k v o) = creation_order o ++ [k]).
Proof.
  induction o as [|[k' v'] r IH]; simpl.
  - right. split; [tauto | reflexivity].
  - destruct (String.eqb k k') eqn:Heq; simpl.
    + apply String.eqb_eq in Heq. left. auto.
    + apply String.eqb_neq in Heq.
      destruct IH as [[Hin Hk] | [Hout Hk]]; unfold creation_order in *;
        rewrite Hk; [left | right]; split; auto.
      intros [H|H]; [now apply Heq | now apply Hout].
Qed.

(** A store never duplicates a property name and never drops one. *)
Lemma keys_set (k : string) (v : V) (o : t V) :
  List.NoDup (creation_order o) ->
  List.NoDup (creation_order (set k v o))
  /\ (forall k', In k' (creation_order o) -> In k' (creation_order (set k v o)))
  /\ (forall k', In k' (creation_order (set k v o)) ->
        In k' (creation_order o) \/ k' = k).
Proof.
  intros Hnd. unfold set. destruct (String.eqb k "__proto__"); [auto|].
  destruct (keys_set_own k v o) as [[Hin Hk] | [Hout Hk]]; rewrite Hk.
  - auto.
  - split_and!.
    + apply List.NoDup_app; auto.
      * apply List.NoDup_cons; [intros [] | apply List.NoDup_nil].
      * intros x Hx [<-|[]]. contradiction.
    + intros k' Hk'. apply in_app_iff. now left.
    + intros k' Hk'. apply in_app_iff in Hk'.
      destruct Hk' as [H|[<-|[]]]; auto.
Qed.

(** After storing [g n] under every name [n] of a list, in order: each listed
    name reads back as [g n], unlisted names are untouched, no name is
    duplicated, and the names are the old ones and the listed ones. *)
Lemma fold_set_lookup (g : string -> V) (names : list string) :
  forall acc : t V,
    List.NoDup (creation_order acc) ->
    let o := fold_left (fun o n => set n (g n) o) names acc in
    (forall n, In n names -> n <> "__proto__" -> get n o = Some (g n))
    /\ (forall k, ~ In k names -> get k o = get k acc)
    /\ List.NoDup (creation_order o)
    /\ (forall k, In k (creation_order o) ->
          In k (creation_order acc) \/ In k names)
    /\ (forall n, In n names -> n <> "__proto__" -> In n (creation_order o)).
Proof.
  induction names as [|m rest IH]; intros acc Hnd; simpl.
  - split_and!; auto; contradiction.
  - destruct (keys_set m (g m) acc Hnd) as (Hnd' & Hkeep & Hnew).
    destruct (IH (set m (g m) acc) Hnd') as (Hget & Hother & Hnd'' & Hkeys & Hin).
    split_and!.
    + intros n [<-|Hn] Hproto.
      * destruct (in_dec string_dec m rest) as [Hr|Hr]; [now apply Hget|].
        rewrite (Hother m Hr). now apply get_set_eq.
      * now apply Hget.
    + intros k Hk. rewrite Hother by tauto. apply get_set_ne. tauto.
    + exact Hnd''.
    + intros k Hk. destruct (Hkeys k Hk) as [H|H]; [|tauto].
      destruct (Hnew k H) as [H' | ->]; tauto.
    + intros n [<-|Hn] Hproto; [|now apply Hin].
      destruct (in_dec string_dec m rest) as [Hr|Hr]; [now apply Hin|].
      destruct (get (V:=V) m (fold_left (fun o n => set n (g n) o) rest
                                (set m (g m) acc))) eqn:Hg.
      * clear - Hg. revert Hg.
        generalize (fold_left (fun o n => set n (g n) o) rest (set m (g m) acc)).
        intros o. induction o as [|[k' v'] r IHo]; simpl; [discriminate|].
        destruct (String.eqb m k') eqn:Heq.
        -- apply String.eqb_eq in Heq. auto.
        -- intros H. right. now apply IHo.
      * rewrite (Hother m Hr), get_set_eq in Hg by assumption. discriminate.
Qed.

End ObjectStore.

Lemma fold_set_no_proto {V} (g : string -> V) (names : list string) :
  forall acc : JSObject.t V,
    ~ In "__proto__" (JSObject.creation_order acc) ->
    ~ In "__proto__"
        (JSObject.creation_order
           (fold_left (fun o n => JSObject.set n (g n) o) names acc)).
Proof.
  induction names as [|m rest IH]; intros acc Hacc; simpl; [exact Hacc|].
  apply IH. unfold JSObject.set.
  destruct (String.eqb m "__proto__") eqn:Hm; [exact Hacc|].
  apply String.eqb_neq in Hm.
  destruct (keys_set_own m (g m) acc) as [[_ Hk] | [_ Hk]]; rewrite Hk; auto.
  rewrite in_app_iff. intros [H | [H | []]]; [now apply Hacc | now apply Hm].
Qed.

(** When the workbook opens and every sheet converts, [processExcel] returns
    an object in which each declared sheet name reads back as the rows of
    that sheet, whose keys are exactly the declared names (without
    duplicates, and without [__proto__], which cannot be stored); this holds
    for repeated and for numeric sheet names too. *)
Theorem processExcel_maps_each_sheet
    (env : Env) (p : string) (readFile : string -> completion WorkBook)
    (wb : WorkBook) (rows_of : string -> list Row) :
  XLSX_readFile env = Some readFile ->
  readFile p = Normal wb ->
  (forall n, In n (SheetNames wb) ->
     sheet_to_json env (JSObject.get n (Sheets wb)) = Normal (rows_of n)) ->
  exists fileData,
    reads_only (Server.processExcel env p) [EvProcessExcel p] (Normal fileData)
    /\ (forall n, In n (SheetNames wb) -> n <> "__proto__" ->
          JSObject.get n fileData = Some (rows_of n))
    /\ (forall k, In k (JSObject.Object_keys fileData)
                  <-> (In k (SheetNames wb) /\ k <> "__proto__"))
    /\ List.NoDup (JSObject.Object_keys fileData).
Proof.
  intros Hrf Hwb Hjson.
  set (fileData := fold_left (fun o n => JSObject.set n (rows_of n) o)
                     (SheetNames wb) JSObject.empty).
  destruct (fold_set_lookup rows_of (SheetNames wb) JSObject.empty)
    as (Hget & _ & Hnd & Hkeys & Hin); [apply List.NoDup_nil|].
  fold fileData in Hget, Hnd, Hkeys, Hin.
  pose proof (fold_set_no_proto rows_of (SheetNames wb) JSObject.empty)
    as Hproto.
  fold fileData in Hproto.
  exists fileData. split_and!.
  - unfold Server.processExcel. rewrite Hrf. apply reads_try.
    apply (reads_bind _ _ [EvProcessExcel p] []) with tt; [apply reads_emit|].
    apply (reads_bind _ _ [] []) with wb.
    + rewrite <- Hwb. apply reads_lift.
    + now apply forEach_sheet_ok.
  - exact Hget.
  - intros k. split.
    + intros Hk. apply (Permutation_in _ (Object_keys_perm fileData)) in Hk.
      split.
      * destruct (Hkeys k Hk) as [[]|H]. exact H.
      * intros ->. apply Hproto; [intros [] | exact Hk].
    + intros [Hk Hne].
      apply (Permutation_in _ (Permutation_sym (Object_keys_perm fileData))).
      now apply Hin.
  - apply (Permutation_NoDup (Permutation_sym (Object_keys_perm fileData))).
    exact Hnd.
Qed.

Lemma processExcel_maps_each_sheet_witness :
  exists fileData,
    reads_only
      (Server.processExcel Demo.env_years "/srv/app/uploads/y.xlsx")
      [EvProcessExcel "/srv/app/uploads/y.xlsx"] (Normal fileData)
    /\ option_map (@List.length Row) (JSObject.get "2024" fileData) = Some 5%nat
    /\ option_map (@List.length Row) (JSObject.get "2023" fileData) = Some 3%nat.
Proof.
  destruct (processExcel_maps_each_sheet Demo.env_years
              "/srv/app/uploads/y.xlsx"
              (fun _ => Normal Demo.workbook_years) Demo.workbook_years
              (fun n => match Demo.grid_to_json
                                (JSObject.get n (Sheets Demo.workbook_years))
                        with
                        | Normal rows => rows
                        | Throw _ => []
                        end))
    as (fileData & Hp & Hget & _).
  - reflexivity.
  - reflexivity.
  - intros n [<- | [<- | []]]; reflexivity.
  - exists fileData. split; [exact Hp|]. split.
    + rewrite Hget; [reflexivity | simpl; auto | discriminate].
    + rewrite Hget; [reflexivity | simpl; auto | discriminate].
Defined.

(** ** The library fallbacks and the health endpoint *)

Lemma forEach_sheet_ext env env' wb names :
  (forall ws, sheet_to_json env ws = sheet_to_json env' ws) ->
  forall result w,
    Server.forEach_sheet env wb names result w
    = Server.forEach_sheet env' wb names result w.
Proof.
  intros Hsame. induction names as [|n rest IH]; intros result w; simpl;
    [reflexivity|].
  unfold bind, lift. rewrite Hsame.
  destruct (sheet_to_json env' (JSObject.get n (Sheets wb))); [apply IH|].
  reflexivity.
Qed.

(** The two ways of loading the workbook are interchangeable: a library
    that only has [read], fed by [fs.readFileSync], gives [processExcel] the
    very result that [readFile] gives when both load the same workbook or
    fail alike; and with [readFile] present, [read] and [fs.readFileSync]
    are not consulted at all. *)
Theorem read_fallback_agrees_with_readFile
    (env env' : Env) (p : string)
    (readFile read : string -> completion WorkBook) :
  XLSX_readFile env = Some readFile ->
  XLSX_readFile env' = None ->
  XLSX_read env' = Some read ->
  readFile p = match readFileSync env' p with
               | Normal fileBuffer => read fileBuffer
               | Throw e => Throw e
               end ->
  (forall ws, sheet_to_json env ws = sheet_to_json env' ws) ->
  forall w, Server.processExcel env p w = Server.processExcel env' p w.
Proof.
  intros Hrf Hnone Hrd Hload Hjson w.
  unfold Server.processExcel, try_catch, bind, emit, lift.
  rewrite Hrf, Hnone, Hrd, Hload. simpl.
  destruct (readFileSync env' p) as [buf|e]; simpl; [|reflexivity].
  destruct (read buf) as [wb|e]; simpl; [|reflexivity].
  now rewrite (forEach_sheet_ext env env' wb (SheetNames wb) Hjson).
Qed.

Lemma read_fallback_witness :
    Server.processExcel Demo.env_named "/srv/app/uploads/r.xlsx" Demo.world0
    = Server.processExcel
        {| uploadsDir := uploadsDir Demo.env_named;
           date_now := date_now Demo.env_named;
           random_1e9 := random_1e9 Demo.env_named;
           now_iso := now_iso Demo.env_named;
           csvParser := csvParser Demo.env_named;
           XLSX_readFile := None;
           XLSX_read := Some (fun _ => Normal Demo.workbook_named);
           sheet_to_json := Demo.grid_to_json;
           readFileSync := fun _ => Normal "PK";
           unlink_error := unlink_error Demo.env_named |}
        "/srv/app/uploads/r.xlsx" Demo.world0.
Proof.
  apply (read_fallback_agrees_with_readFile Demo.env_named _
           "/srv/app/uploads/r.xlsx"
           (fun _ => Normal Demo.workbook_named)
           (fun _ => Normal Demo.workbook_named));
    reflexivity.
Defined.

(** When [GET /api/health] reports [xlsxAvailable = false], every workbook
    upload is answered with status 500 and the message that the library
    methods are not available, whatever the file holds.  (For a stored upload
    that can be unlinked.) *)
Theorem health_unavailable_means_every_workbook_fails
    (env : Env) (f : IncomingFile) (w : World) :
  Endpoints.xlsxAvailable (Endpoints.health env) = false ->
  in_fieldname f = "file" ->
  In (extension_of (in_originalname f)) [".xlsx"; ".xls"] ->
  (in_size f < 10485760)%N ->
  unlink_error env (path (Server.stored_file env f)) = None ->
  responses (trace (snd (Server.post_api_upload env (Some f) w)))
  = responses (trace w)
    ++ [ {| status := 500;
            body := failure
              "Error processing file: Error processing Excel file: XLSX library methods not available" |} ].
Proof.
  intros Hhealth Hfield Hext Hsize Hok.
  assert (Hnone : XLSX_readFile env = None /\ XLSX_read env = None).
  { unfold Endpoints.health, Endpoints.truthy in Hhealth. simpl in Hhealth.
    destruct (XLSX_readFile env), (XLSX_read env); try discriminate; auto. }
  destruct Hnone as [Hrf Hrd].
  assert (Hfilter : Server.fileFilter f = Normal true).
  { apply fileFilter_of_extension.
    destruct Hext as [<-|[<-|[]]]; simpl; auto. }
  assert (Hd : String.eqb (extension_of (in_originalname f)) ".csv" = false
               /\ includes [".xlsx"; ".xls"]
                    (extension_of (in_originalname f)) = true).
  { destruct Hext as [<-|[<-|[]]]; split; reflexivity. }
  destruct Hd as [Hcsv Hx].
  apply String.eqb_eq in Hfield.
  set (p := path (Server.stored_file env f)) in *.
  assert (Hp : reads_only
            (Server.process env (Server.stored_file env f)
               (extension_of (in_originalname f))
               (Server.initial_info env (Server.stored_file env f)
                  (extension_of (in_originalname f))))
            [EvProcessExcel p]
            (Throw (Error ("Error processing Excel file: "
                           +:+ "XLSX library methods not available")))).
  { unfold Server.process. rewrite Hcsv, Hx.
    apply reads_bind_throw. unfold Server.processExcel. rewrite Hrf, Hrd.
    apply (reads_try_throw _ _ [_] [])
      with (Error "XLSX library methods not available"); [|apply reads_throw].
    apply (reads_bind _ _ [_] []) with tt; [apply reads_emit|].
    apply reads_bind_throw. apply reads_throw. }
  rewrite (pipeline_accepted env f w _ _ Hfield Hfilter Hsize Hp Hok).
  simpl. rewrite !responses_app. reflexivity.
Qed.

Lemma health_unavailable_witness :
  Endpoints.xlsxAvailable (Endpoints.health Demo2.env_no_xlsx) = false
  /\ responses (trace (snd (Server.post_api_upload Demo2.env_no_xlsx
                              (Some Demo.xlsx_upload) Demo.world0)))
     = [ {| status := 500;
            body := failure
              "Error processing file: Error processing Excel file: XLSX library methods not available" |} ].
Proof.
  split; [reflexivity|].
  apply (health_unavailable_means_every_workbook_fails Demo2.env_no_xlsx
           Demo.xlsx_upload Demo.world0 eq_refl eq_refl).
  - now left.
  - vm_compute. reflexivity.
  - reflexivity.
Defined.

(** ** The error middleware and the start-up block *)

(** Whatever error reaches the error middleware, it answers once, with a
    failure body whose message is not empty and that has no data; the status
    is 400 exactly for a multer error with code LIMIT_FILE_SIZE and 500 for
    everything else, where the message is the error's own, or "Internal
    server error" when the error has none. *)
Theorem error_middleware_always_answers (error : JSError) (w : World) :
  exists r,
    Server.error_middleware error w
    = (Completes (Normal tt), appended w [EvSend r])
    /\ success (body r) = false
    /\ message (body r) <> ""
    /\ data (body r) = None
    /\ processingInfo (body r) = None
    /\ (status r = 400%nat <-> multer_code error = Some "LIMIT_FILE_SIZE")
    /\ (status r <> 400%nat ->
          status r = 500%nat
          /\ message (body r)
             = or_default (err_message error) "Internal server error").
Proof.
  assert (Hmsg : or_default (err_message error) "Internal server error" <> "").
  { destruct (err_message error); simpl; discriminate. }
  unfold Server.error_middleware.
  destruct (multer_code error) as [code|].
  - destruct (String.eqb code "LIMIT_FILE_SIZE") eqn:Hcode.
    + apply String.eqb_eq in Hcode. subst code.
      eexists. split_and!; try reflexivity; simpl.
      * discriminate.
      * tauto.
      * intros H. now exfalso.
    + apply String.eqb_neq in Hcode.
      eexists. split_and!; try reflexivity; simpl; auto.
      split; [discriminate|]. intros H. inversion H. contradiction.
  - eexists. split_and!; try reflexivity; simpl; auto.
    split; discriminate.
Qed.


(* ===================================================================== *)
(** * Names of the stored files *)
(* ===================================================================== *)

Lemma append_assoc (a b c : string) : (a +:+ b) +:+ c = a +:+ (b +:+ c).
Proof.
  induction a as [|x a IH]; [reflexivity|].
  change (String x ((a +:+ b) +:+ c) = String x (a +:+ (b +:+ c))).
  now rewrite IH.
Qed.

Lemma append_nil_r (a : string) : a +:+ "" = a.
Proof.
  induction a as [|x a IH]; [reflexivity|].
  change (String x (a +:+ "") = String x a). now rewrite IH.
Qed.

Lemma append_inv_head (a b c : string) : a +:+ b = a +:+ c -> b = c.
Proof.
  induction a as [|x a IH]; simpl; [auto|]. intros H. inversion H. auto.
Qed.

Lemma pretty_N_char_digit (x : N) : Shape.is_digit (pretty_N_char x) = true.
Proof. unfold pretty_N_char. repeat case_match; reflexivity. Qed.

Lemma pretty_N_go_digits (x : N) :
  forall s, exists d,
    pretty_N_go x s = d +:+ s /\ Shape.all_digits d = true.
Proof.
  induction (N.lt_wf_0 x) as [x _ IH]; intros s.
  destruct (N.eq_dec x 0%N) as [->|Hx].
  - exists "". split; reflexivity.
  - rewrite pretty_N_go_step by lia.
    destruct (IH (x `div` 10)%N) with
      (s := String (pretty_N_char (x `mod` 10)) s) as (d & Hd & Hall).
    { apply N.div_lt; lia. }
    exists (d +:+ String (pretty_N_char (x `mod` 10)) "").
    rewrite Hd, append_assoc. split; [reflexivity|].
    clear - Hall. induction d as [|c d IHd]; simpl in *.
    + now rewrite pretty_N_char_digit.
    + apply andb_true_iff in Hall. destruct Hall as [Hc Hall].
      rewrite Hc. simpl. now apply IHd.
Qed.

(** A number prints as digits only. *)
Lemma of_N_digits (n : N) : Shape.all_digits (of_N n) = true.
Proof.
  unfold of_N, pretty, pretty_N. case_decide; [reflexivity|].
  destruct (pretty_N_go_digits n "") as (d & Hd & Hall).
  now rewrite Hd, append_nil_r.
Qed.

(** Where a run of digits ends is determined by the string. *)
Lemma digits_split (d1 d2 t1 t2 : string) :
  Shape.all_digits d1 = true -> Shape.all_digits d2 = true ->
  Shape.no_digit_head t1 = true -> Shape.no_digit_head t2 = true ->
  d1 +:+ t1 = d2 +:+ t2 -> d1 = d2 /\ t1 = t2.
Proof.
  revert d2. induction d1 as [|c d1 IH]; intros d2 H1 H2 Ht1 Ht2 Heq.
  - destruct d2 as [|c2 d2]; [auto|].
    change (t1 = String c2 (d2 +:+ t2)) in Heq. rewrite Heq in Ht1.
    simpl in Ht1, H2. apply andb_true_iff in H2. destruct H2 as [Hc _].
    rewrite Hc in Ht1. discriminate.
  - destruct d2 as [|c2 d2].
    + change (String c (d1 +:+ t1) = t2) in Heq. rewrite <- Heq in Ht2.
      simpl in Ht2, H1. apply andb_true_iff in H1. destruct H1 as [Hc _].
      rewrite Hc in Ht2. discriminate.
    + change (String c (d1 +:+ t1) = String c2 (d2 +:+ t2)) in Heq.
      inversion Heq as [[Hc Hrest]]. subst c2.
      simpl in H1, H2.
      apply andb_true_iff in H1. destruct H1 as [_ H1].
      apply andb_true_iff in H2. destruct H2 as [_ H2].
      destruct (IH d2 H1 H2 Ht1 Ht2 Hrest) as [-> ->]; auto.
Qed.

Lemma extname_no_digit_head (p : string) :
  Shape.no_digit_head (Path.extname p) = true.
Proof.
  destruct (extname_shape p) as [H | [rest H]]; rewrite H; reflexivity.
Qed.

(** The generated name determines the timestamp, the random number and the
    extension it was built from. *)
Lemma storage_filename_inj (env1 env2 : Env) (f1 f2 : IncomingFile) :
  in_fieldname f1 = in_fieldname f2 ->
  Server.storage_filename env1 f1 = Server.storage_filename env2 f2 ->
  date_now env1 = date_now env2
  /\ random_1e9 env1 = random_1e9 env2
  /\ Path.extname (in_originalname f1) = Path.extname (in_originalname f2).
Proof.
  intros Hfield Hname. unfold Server.storage_filename in Hname.
  rewrite Hfield in Hname. apply append_inv_head in Hname.
  simpl in Hname. inversion Hname as [Hrest]. clear Hname.
  rewrite !append_assoc in Hrest.
  apply (digits_split (of_N (date_now env1)) (of_N (date_now env2))) in Hrest;
    try apply of_N_digits; try reflexivity.
  destruct Hrest as [Hnow Hrest]. simpl in Hrest. inversion Hrest as [Hrnd].
  apply (digits_split (of_N (random_1e9 env1)) (of_N (random_1e9 env2)))
    in Hrnd; try apply of_N_digits; try apply extname_no_digit_head.
  destruct Hrnd as [Hrnd Hext].
  apply (inj pretty) in Hnow. apply (inj pretty) in Hrnd. auto.
Qed.

(** Two uploads that differ in the millisecond timestamp or in the random
    number are stored under different paths, whatever their names are; so a
    stored file can only be overwritten by an upload made in the same
    millisecond that also draws the same random number. *)
Theorem stored_paths_differ_unless_same_instant_and_draw
    (env1 env2 : Env) (f1 f2 : IncomingFile) :
  in_fieldname f1 = in_fieldname f2 ->
  uploadsDir env1 = uploadsDir env2 ->
  date_now env1 <> date_now env2 \/ random_1e9 env1 <> random_1e9 env2 ->
  path (Server.stored_file env1 f1) <> path (Server.stored_file env2 f2).
Proof.
  intros Hfield Hdir Hdiff Hpath. simpl in Hpath. rewrite Hdir in Hpath.
  apply append_inv_head in Hpath. simpl in Hpath. inversion Hpath as [Hname].
  destruct (storage_filename_inj env1 env2 f1 f2 Hfield Hname) as (Hn & Hr & _).
  destruct Hdiff; contradiction.
Qed.

Lemma stored_paths_differ_witness :
  path (Server.stored_file Demo.env_abc Demo.csv_upload)
  <> path (Server.stored_file Demo2.env_later Demo.csv_upload).
Proof.
  apply stored_paths_differ_unless_same_instant_and_draw.
  - reflexivity.
  - reflexivity.
  - right. vm_compute. discriminate.
Defined.

(* ===================================================================== *)
(** * The browser-side checks against the server *)
(* ===================================================================== *)

(** ** Names without a path separator *)

Section ExtnameSuffix.

Import Path.
Variable chars : list ascii.

Lemma scan_char_end (i : Z) (code : ascii) (st : scan) :
  end_ (scan_char i code st) = if end_ st =? -1 then i + 1 else end_ st.
Proof.
  unfold scan_char.
  destruct (end_ st =? -1); simpl;
    destruct (Ascii.eqb code CHAR_DOT); simpl;
    repeat match goal with
           | |- context [if ?b then _ else _] => destruct b; simpl
           end; reflexivity.
Qed.

Lemma scan_loop_end (l : list ascii) :
  forallb (fun c => negb (Ascii.eqb c CHAR_FORWARD_SLASH)) l = true ->
  forall (i : Z) (st : scan),
    i = Z.of_nat (List.length l) - 1 ->
    end_ st = Z.of_nat (List.length chars)
    \/ (end_ st = -1 /\ List.length l = List.length chars) ->
    end_ (scan_loop l i st) = Z.of_nat (List.length chars)
    \/ (end_ (scan_loop l i st) = -1 /\ chars = []).
Proof.
  induction l as [|code rest IH]; intros Hplain i st Hi Hend; simpl.
  - destruct Hend as [H | [H Hlen]]; [now left|].
    right. split; [exact H|]. simpl in Hlen. symmetry in Hlen.
    now apply length_zero_iff_nil in Hlen.
  - simpl in Hplain. apply andb_true_iff in Hplain.
    destruct Hplain as [Hcode Hrest].
    apply negb_true_iff in Hcode. rewrite Hcode.
    apply IH; [exact Hrest | simpl in Hi; lia |].
    left. rewrite scan_char_end.
    destruct Hend as [H | [H Hlen]].
    + rewrite H. destruct (Z.of_nat (List.length chars) =? -1) eqn:E;
        [apply Z.eqb_eq in E; lia | reflexivity].
    + rewrite H. simpl. simpl in Hlen, Hi. lia.
Qed.

(** Without a path separator in the name, the extension is the end of the
    name. *)
Lemma extname_chars_suffix :
  forallb (fun c => negb (Ascii.eqb c CHAR_FORWARD_SLASH)) chars = true ->
  exists base, chars = base ++ extname_chars chars.
Proof.
  intros Hplain. unfold extname_chars.
  set (st := scan_loop (rev chars) (Z.of_nat (List.length chars) - 1) scan0).
  assert (Hinv : scan_inv chars (-1) st).
  { apply (scan_loop_inv chars (rev chars) []).
    - now rewrite rev_involutive, app_nil_r.
    - now rewrite length_rev.
    - split; now left. }
  assert (Hend : end_ st = Z.of_nat (List.length chars)
                 \/ (end_ st = -1 /\ chars = [])).
  { apply scan_loop_end.
    - rewrite forallb_forall in *. intros c Hc. apply Hplain.
      now apply in_rev.
    - now rewrite length_rev.
    - right. split; [reflexivity | apply length_rev]. }
  destruct ((startDot st =? -1) || (end_ st =? -1) || (preDotState st =? 0)
            || (preDotState st =? 1) && (startDot st =? end_ st - 1)
               && (startDot st =? startPart st + 1)) eqn:Hcond.
  - exists chars. now rewrite app_nil_r.
  - apply orb_false_iff in Hcond. destruct Hcond as [Hcond _].
    apply orb_false_iff in Hcond. destruct Hcond as [Hcond _].
    apply orb_false_iff in Hcond. destruct Hcond as [Hsd He].
    apply Z.eqb_neq in Hsd, He.
    destruct Hend as [Hend | [Hend _]]; [|contradiction].
    destruct Hinv as [_ [Hs | [Hr _]]]; [contradiction|].
    exists (firstn (Z.to_nat (startDot st)) chars).
    unfold slice. rewrite Hend.
    assert (Hall : firstn (Z.to_nat (Z.of_nat (List.length chars) - startDot st))
                     (skipn (Z.to_nat (startDot st)) chars)
                   = skipn (Z.to_nat (startDot st)) chars).
    { apply firstn_all2. rewrite length_skipn. lia. }
    rewrite Hall. symmetry. apply firstn_skipn.
Qed.

End ExtnameSuffix.

Lemma string_of_list_ascii_app (a b : list ascii) :
  string_of_list_ascii (a ++ b)
  = string_of_list_ascii a +:+ string_of_list_ascii b.
Proof.
  induction a as [|c a IH]; [reflexivity|].
  change (String c (string_of_list_ascii (a ++ b))
          = String c (string_of_list_ascii a +:+ string_of_list_ascii b)).
  now rewrite IH.
Qed.

Lemma no_slash_chars (s : string) :
  Shape.no_slash s = true ->
  forallb (fun c => negb (Ascii.eqb c Path.CHAR_FORWARD_SLASH))
    (list_ascii_of_string s) = true.
Proof.
  induction s as [|c r IH]; simpl; [reflexivity|].
  intros H. apply andb_true_iff in H. destruct H as [Hc Hr].
  rewrite Hc. simpl. now apply IH.
Qed.

(** [path.extname] of a name without separator is a suffix of the name. *)
Lemma extname_suffix (p : string) :
  Shape.no_slash p = true -> exists base, p = base +:+ Path.extname p.
Proof.
  intros Hp.
  destruct (extname_chars_suffix (list_ascii_of_string p) (no_slash_chars p Hp))
    as [base Hbase].
  exists (string_of_list_ascii base). unfold Path.extname.
  rewrite <- string_of_list_ascii_app, <- Hbase.
  symmetry. apply string_of_list_ascii_of_string.
Qed.

Lemma toLowerCase_app (a b : string) :
  toLowerCase (a +:+ b) = toLowerCase a +:+ toLowerCase b.
Proof.
  induction a as [|c a IH]; [reflexivity|].
  change (String (lower_char c) (toLowerCase (a +:+ b))
          = String (lower_char c) (toLowerCase a +:+ toLowerCase b)).
  now rewrite IH.
Qed.

Lemma length_append (a b : string) :
  String.length (a +:+ b) = (String.length a + String.length b)%nat.
Proof.
  induction a as [|c a IH]; [reflexivity|].
  change (S (String.length (a +:+ b))
          = S (String.length a + String.length b)). now rewrite IH.
Qed.

Lemma substring_whole (b : string) :
  String.substring 0 (String.length b) b = b.
Proof. induction b as [|c b IH]; simpl; [reflexivity | now rewrite IH]. Qed.

Lemma substring_after (a b : string) :
  String.substring (String.length a) (String.length b) (a +:+ b) = b.
Proof.
  induction a as [|c a IH]; [apply substring_whole|].
  change (String.substring (String.length a) (String.length b) (a +:+ b) = b).
  exact IH.
Qed.

Lemma endsWith_app (a b : string) : endsWith (a +:+ b) b = true.
Proof.
  unfold endsWith. rewrite length_append.
  replace (String.length a + String.length b - String.length b)%nat
    with (String.length a) by lia.
  rewrite substring_after, String.eqb_refl.
  apply andb_true_iff. split; [apply Nat.leb_le; lia | reflexivity].
Qed.

Lemma includes_or_default (l : list string) (t dflt : string) :
  includes l "" = false -> includes l dflt = false ->
  includes l (or_default t dflt) = includes l t.
Proof. intros H1 H2. destruct t; simpl; [now rewrite H1, H2 | reflexivity]. Qed.

(** ** [validateFile] *)

Lemma validateFile_type_test (file : BrowserFile) :
  includes Client.allowedTypes (type file)
  || existsb (fun ext => endsWith (toLowerCase (name file)) ext)
       Client.allowedExtensions = true ->
  Client.validateFile file
  = if (10485760 <? bf_size file)%N
    then Some Client.too_large_message else None.
Proof.
  intros H. unfold Client.validateFile.
  apply orb_true_iff in H.
  destruct H as [H|H]; rewrite H; [|rewrite andb_false_r]; reflexivity.
Qed.


Lemma validateFile_accepts_bound (file : BrowserFile) :
  Client.validateFile file = None -> (bf_size file <= 10485760)%N.
Proof.
  unfold Client.validateFile.
  destruct (negb _ && negb _); [discriminate|].
  destruct (N.ltb_spec (10 * 1024 * 1024) (bf_size file)); [discriminate|].
  intros _. lia.
Qed.

(** Every file that the server would store, when it is posted the way the
    component posts it, also passes the browser-side check; file names in a
    browser hold no path separator. *)
Theorem stored_uploads_pass_validateFile
    (env : Env) (file : BrowserFile) (w w1 : World) (stored : MulterFile) :
  Shape.no_slash (name file) = true ->
  Server.upload_single env (Some (Uploader.posted file)) w
  = (Completes (Normal (Some stored)), w1) ->
  Client.validateFile file = None.
Proof.
  intros Hname Hstored.
  destruct (upload_single_stored _ _ _ _ _ Hstored)
    as (f & Hf & _ & Hfilter & Hsize & _).
  inversion Hf. subst f. clear Hf.
  assert (Htest : includes Client.allowedTypes (type file)
            || existsb (fun ext => endsWith (toLowerCase (name file)) ext)
                 Client.allowedExtensions = true).
  { unfold Server.fileFilter, Uploader.posted in Hfilter.
    cbn [in_mimetype in_originalname] in Hfilter.
    rewrite includes_or_default in Hfilter by reflexivity.
    change Server.allowedTypes with Client.allowedTypes in Hfilter.
    destruct (includes Client.allowedTypes (type file)); [reflexivity|].
    rewrite !orb_false_l in *.
    destruct (includes Server.allowedExtensions
                (toLowerCase (Path.extname (name file)))) eqn:Hext;
      [|discriminate].
    apply existsb_exists.
    exists (toLowerCase (Path.extname (name file))). split.
    - now apply (includes_In Server.allowedExtensions).
    - destruct (extname_suffix (name file) Hname) as [base Hbase].
      rewrite Hbase at 1. rewrite toLowerCase_app. apply endsWith_app. }
  rewrite (validateFile_type_test file Htest).
  simpl in Hsize. unfold Server.fileSize_limit in Hsize.
  destruct (N.ltb_spec 10485760 (bf_size file)); [lia | reflexivity].
Qed.

Lemma stored_uploads_pass_validateFile_witness :
  Client.validateFile Demo2.browser_csv = None.
Proof.
  apply (stored_uploads_pass_validateFile Demo.env_abc Demo2.browser_csv
           Demo.world0
           (snd (Server.upload_single Demo.env_abc
                   (Some (Uploader.posted Demo2.browser_csv)) Demo.world0))
           (Server.stored_file Demo.env_abc
              (Uploader.posted Demo2.browser_csv)));
    reflexivity.
Defined.

(** The converse fails at one size: the browser lets a file of exactly
    10 MiB through, and the server refuses it. *)
Example validated_and_refused :
  Client.validateFile Demo2.browser_limit_csv = None
  /\ responses (trace (snd (Server.post_api_upload Demo.env_abc
                              (Some (Uploader.posted Demo2.browser_limit_csv))
                              Demo.world0)))
     = [ {| status := 400;
            body := failure "File too large. Maximum size allowed is 10MB." |} ].
Proof. split; reflexivity. Qed.

Lemma posted_outcome_status (env : Env) (file : BrowserFile) (evs : list Event)
    (r : HttpResponse) :
  (bf_size file <= 10485760)%N ->
  outcome env (Some (Uploader.posted file)) evs r ->
  (status r = 200%nat /\ success (body r) = true
   \/ status r = 500%nat /\ success (body r) = false
   \/ status r = 400%nat /\ body r = failure Server.too_large_message)
  /\ (status r = 400%nat
      <-> bf_size file = 10485760%N
          /\ Server.fileFilter (Uploader.posted file) = Normal true).
Proof.
  intros Hsize Hout.
  inversion Hout as [ | f Hfield | f Hfield Hfilter | f Hfield Hfilter Hle
                    | f pevs c Hfield Hfilter Hlt Hp Hcalls Hok
                    | f pevs c e Hfield Hfilter Hlt Hp Hcalls Hno ]; subst.
  - discriminate Hfield.
  - split; [right; left; auto|]. simpl. split; [discriminate|].
    intros [_ H]. rewrite Hfilter in H. discriminate H.
  - simpl in Hle. unfold Server.fileSize_limit in Hle.
    split; [right; right; auto|]. simpl. split; [|reflexivity].
    intros _. split; [lia | exact Hfilter].
  - simpl in Hlt. unfold Server.fileSize_limit in Hlt.
    split; [destruct c; simpl; auto|].
    split; [destruct c; discriminate | intros [H _]; lia].
  - simpl in Hlt. unfold Server.fileSize_limit in Hlt.
    split; [right; left; auto|]. simpl.
    split; [discriminate | intros [H _]; lia].
Qed.

(** An upload that passed [validateFile] and is posted by the component is
    answered with status 200 or 500, with one exception: the browser-side
    check turns away only files longer than 10,485,760 bytes, the server
    already refuses a file of exactly that size, so such a file, when its
    type is accepted, gets status 400 and the size message.  The no-file
    and wrong-field branches cannot be reached from this client.  (The one
    request without a response is the delimited upload whose read stream
    ends the process.) *)
Theorem validated_uploads_get_400_only_at_the_limit
    (env : Env) (file : BrowserFile) (w : World) :
  Client.validateFile file = None ->
  (exists r,
     responses (trace (snd (Server.post_api_upload env
                              (Some (Uploader.posted file)) w)))
     = responses (trace w) ++ [r]
     /\ (status r = 200%nat /\ success (body r) = true
         \/ status r = 500%nat /\ success (body r) = false
         \/ status r = 400%nat
            /\ body r = failure "File too large. Maximum size allowed is 10MB.")
     /\ (status r = 400%nat
         <-> bf_size file = 10485760%N
             /\ Server.fileFilter (Uploader.posted file) = Normal true))
  \/ (exits_unanswered env (Some (Uploader.posted file)) w
      /\ responses (trace (snd (Server.post_api_upload env
                                  (Some (Uploader.posted file)) w)))
         = responses (trace w)).
Proof.
  intros Hvalid. apply validateFile_accepts_bound in Hvalid.
  destruct (route_responses env (Some (Uploader.posted file)) w)
    as [(evs & r & Hout & Hresp) | Hexit]; [left | now right].
  exists r. split; [exact Hresp|].
  exact (posted_outcome_status env file evs r Hvalid Hout).
Qed.

Lemma validated_uploads_witness :
  Client.validateFile Demo2.browser_limit_csv = None
  /\ exists r,
       responses (trace (snd (Server.post_api_upload Demo.env_abc
                                (Some (Uploader.posted Demo2.browser_limit_csv))
                                Demo.world0)))
       = [r]
       /\ status r = 400%nat.
Proof.
  split; [reflexivity|].
  destruct (validated_uploads_get_400_only_at_the_limit Demo.env_abc
              Demo2.browser_limit_csv Demo.world0 eq_refl)
    as [(r & Hr & _ & Hs) | [_ Hnone]];
    [|vm_compute in Hnone; discriminate Hnone].
  exists r. split; [exact Hr|].
  apply Hs. split; reflexivity.
Defined.

(** ** The upload component *)

Lemma served_is_the_response (env : Env) (w : World) (file : BrowserFile) :
  trace w = [] ->
  (exists evs r,
     outcome env (Some (Uploader.posted file)) evs r
     /\ responses (trace (snd (Server.post_api_upload env
                                 (Some (Uploader.posted file)) w))) = [r]
     /\ EndToEnd.served env w file = Some (body r))
  \/ (exits_unanswered env (Some (Uploader.posted file)) w
      /\ responses (trace (snd (Server.post_api_upload env
                                  (Some (Uploader.posted file)) w))) = []
      /\ EndToEnd.served env w file = None).
Proof.
  intros Hw. unfold EndToEnd.served.
  destruct (route_responses env (Some (Uploader.posted file)) w)
    as [(evs & r & Hout & Hresp) | [Hexit Hresp]];
    rewrite Hresp, Hw; simpl.
  - left. exists evs, r. auto.
  - right. auto.
Qed.

(** Dropping files on the component, with this server behind [fetch]: only
    the first file counts; a file that fails [validateFile] is never sent
    and its validation message is shown; a file that passes is sent once and
    what is shown is the body of the server's response, with the spinner off
    again; the drop highlight is cleared in every case.  The response has
    status 200 or 500, or 400 for a file of exactly 10,485,760 bytes, which
    the browser-side check lets through and the server refuses.  When the
    server process exits on the read stream of a delimited upload, there is
    no response and the network error is shown. *)
Theorem drop_shows_validation_or_server_answer
    (env : Env) (w : World) (files : list BrowserFile) (st : Uploader.UiState) :
  trace w = [] ->
  let acts := Uploader.handleDrop (EndToEnd.served env w) files in
  let st' := Uploader.run_actions acts st in
  Uploader.isDragOver st' = false
  /\ match files with
     | [] =>
         acts = [Uploader.SetIsDragOver false]
         /\ Uploader.uploadResult st' = Uploader.uploadResult st
         /\ Uploader.isUploading st' = Uploader.isUploading st
     | file :: _ =>
         match Client.validateFile file with
         | Some msg =>
             List.filter EndToEnd.is_fetch acts = []
             /\ Uploader.uploadResult st' = Some (failure msg)
             /\ Uploader.isUploading st' = Uploader.isUploading st
         | None =>
             List.filter EndToEnd.is_fetch acts = [Uploader.Fetch file]
             /\ Uploader.isUploading st' = false
             /\ ((exists r,
                    responses
                      (trace (snd (Server.post_api_upload env
                                     (Some (Uploader.posted file)) w))) = [r]
                    /\ Uploader.uploadResult st' = Some (body r)
                    /\ (status r = 200%nat \/ status r = 500%nat
                        \/ (status r = 400%nat
                            /\ bf_size file = 10485760%N)))
                 \/ (exits_unanswered env (Some (Uploader.posted file)) w
                     /\ responses
                          (trace (snd (Server.post_api_upload env
                                         (Some (Uploader.posted file)) w)))
                        = []
                     /\ Uploader.uploadResult st'
                        = Some (failure
                                  "Network error. Please make sure the server is running.")))
         end
     end.
Proof.
  intros Hw acts st'. subst acts st'.
  destruct files as [|file rest]; simpl.
  - auto.
  - unfold Uploader.uploadFile.
    destruct (Client.validateFile file) as [msg|] eqn:Hvalid; simpl.
    + auto.
    + destruct (served_is_the_response env w file Hw)
        as [(evs & r & Hout & Hr & Hserved) | (Hexit & Hr & Hserved)];
        rewrite Hserved; simpl; split_and!; auto.
      left. exists r. split_and!; auto.
      destruct (posted_outcome_status env file evs r
                  (validateFile_accepts_bound file Hvalid) Hout)
        as [Hst H400].
      destruct Hst as [[H _] | [[H _] | [H _]]]; auto.
      right. right. split; [exact H|]. now apply H400.
Qed.

Lemma drop_witness :
  Uploader.uploadResult
    (Uploader.run_actions
       (Uploader.handleDrop (EndToEnd.served Demo.env_abc Demo.world0)
          [Demo2.browser_text; Demo2.browser_csv])
       {| Uploader.isDragOver := true; Uploader.isUploading := false;
          Uploader.uploadResult := None |})
  = Some (failure "Invalid file type. Please upload CSV or Excel files only.").
Proof.
  destruct (drop_shows_validation_or_server_answer Demo.env_abc Demo.world0
              [Demo2.browser_text; Demo2.browser_csv]
              {| Uploader.isDragOver := true; Uploader.isUploading := false;
                 Uploader.uploadResult := None |} eq_refl)
    as (_ & H).
  simpl in H. destruct H as (_ & H & _). exact H.
Defined.

(** The two ways a drop of a delimited file can end without the server's
    verdict on the data: refused at exactly 10 MiB, and the network error
    after the server process has gone. *)
Example drop_at_the_limit_and_on_a_read_error :
  Uploader.uploadResult
    (Uploader.run_actions
       (Uploader.handleDrop (EndToEnd.served Demo.env_abc Demo.world0)
          [Demo2.browser_limit_csv])
       {| Uploader.isDragOver := true; Uploader.isUploading := false;
          Uploader.uploadResult := None |})
  = Some (failure "File too large. Maximum size allowed is 10MB.")
  /\ Uploader.uploadResult
       (Uploader.run_actions
          (Uploader.handleDrop
             (EndToEnd.served Demo2.env_read_error Demo.world0)
             [Demo2.browser_csv])
          {| Uploader.isDragOver := true; Uploader.isUploading := false;
             Uploader.uploadResult := None |})
     = Some (failure "Network error. Please make sure the server is running.").
Proof. split; reflexivity. Qed.

(** ** The preview of a response *)

Lemma sum_rows_exact (fileData : JSObject.t (list Row)) (keys : list string) :
  forall total,
    (forall k, In k keys -> In k (JSObject.creation_order fileData)) ->
    reads_only (Server.sum_rows fileData keys total) []
      (Normal (total
               + list_sum
                   (map (fun k => List.length
                                    (default [] (JSObject.get k fileData)))
                      keys))%nat).
Proof.
  induction keys as [|k r IH]; intros total Hall; simpl.
  - rewrite Nat.add_0_r. apply reads_ret.
  - destruct (get_of_key fileData k) as [v Hv]; [apply Hall; now left|].
    rewrite Hv. simpl.
    replace (total + (List.length v
              + list_sum (map (fun k0 => List.length
                                 (default [] (JSObject.get k0 fileData))) r)))%nat
      with ((total + List.length v)
            + list_sum (map (fun k0 => List.length
                               (default [] (JSObject.get k0 fileData))) r))%nat
      by lia.
    apply IH. intros k' Hk'. apply Hall. now right.
Qed.

(** What a successful parse-and-summarize step hands to the response. *)
Lemma process_summary env file ext info evs d i :
  reads_only (Server.process env file ext info) evs (Normal (d, i)) ->
  fileType i = fileType info
  /\ ((exists rows,
         d = Delimited rows /\ ext = ".csv"
         /\ rowCount i = Some (List.length rows)
         /\ columns i = Some (match rows with
                              | first :: _ => JSObject.Object_keys first
                              | [] => []
                              end))
      \/ (exists o,
            d = Workbook o /\ In ext [".xlsx"; ".xls"]
            /\ sheetCount i = Some (List.length (JSObject.Object_keys o))
            /\ sheetNames i = Some (JSObject.Object_keys o)
            /\ totalRows i
               = Some (list_sum
                         (map (fun k => List.length
                                          (default [] (JSObject.get k o)))
                            (JSObject.Object_keys o))))).
Proof.
  intros Hrun.
  specialize (Hrun {| files := ∅; trace := [] |}).
  unfold Server.process in Hrun.
  destruct (String.eqb ext ".csv") eqn:Hcsv.
  - apply String.eqb_eq in Hcsv.
    unfold bind in Hrun.
    destruct (csvParser env (path file)) as [[rows|e]|e] eqn:Hc;
      [ rewrite (processCSV_reads env (path file) _ Hc) in Hrun
      | rewrite (processCSV_reads env (path file) _ Hc) in Hrun;
        discriminate Hrun
      | rewrite (processCSV_exits env (path file) _ Hc) in Hrun;
        discriminate Hrun ].
    unfold ret in Hrun. inversion Hrun. subst.
    split; [reflexivity|]. left. eauto.
  - destruct (includes [".xlsx"; ".xls"] ext) eqn:Hx.
    + apply includes_In in Hx.
      destruct (processExcel_completion env (path file)) as (c0 & Ho & _).
      unfold bind in Hrun. rewrite Ho in Hrun.
      destruct c0 as [o|e]; [|discriminate Hrun].
      pose proof (sum_rows_exact o (JSObject.Object_keys o) 0%nat) as Hs.
      specialize (Hs (fun k Hk => Permutation_in _ (Object_keys_perm o) Hk)).
      rewrite Hs in Hrun. unfold ret in Hrun. inversion Hrun. subst.
      split; [reflexivity|]. right. exists o. split_and!; auto.
    + unfold throw in Hrun. discriminate Hrun.
Qed.

Lemma sheet_cards_of_keys (o : JSObject.t (list Row)) (keys : list string) :
  (forall k, In k keys -> In k (JSObject.creation_order o)) ->
  let cards :=
    flat_map
      (fun sheetName =>
         match JSObject.get sheetName o with
         | Some sheetData =>
             [ {| Uploader.card_name := sheetName;
                  Uploader.card_rows := List.length sheetData;
                  Uploader.card_columns :=
                    match sheetData with
                    | first :: _ => JSObject.Object_keys first
                    | [] => []
                    end;
                  Uploader.card_sample := firstn 2 sheetData |} ]
         | None => []
         end) keys in
  map Uploader.card_name cards = keys
  /\ list_sum (map Uploader.card_rows cards)
     = list_sum (map (fun k => List.length (default [] (JSObject.get k o))) keys)
  /\ Forall (fun card =>
               JSObject.get (Uploader.card_name card) o <> None
               /\ Uploader.card_sample card
                  = firstn 2 (default [] (JSObject.get (Uploader.card_name card) o))
               /\ (List.length (Uploader.card_sample card) <= 2)%nat)
       cards.
Proof.
  induction keys as [|k r IH]; intros Hall; simpl.
  - split_and!; auto.
  - destruct IH as (Hn & Hs & Hf); [intros k' Hk'; apply Hall; now right|].
    destruct (get_of_key o k) as [v Hv]; [apply Hall; now left|].
    rewrite Hv. simpl. split_and!.
    + now rewrite Hn.
    + now rewrite Hs.
    + constructor; [|exact Hf]. simpl. rewrite Hv. simpl.
      split_and!; [discriminate | reflexivity | apply firstn_le_length].
Qed.

Lemma sheet_cards_spec (o : JSObject.t (list Row)) :
  map Uploader.card_name (Uploader.sheet_cards o) = JSObject.Object_keys o
  /\ list_sum (map Uploader.card_rows (Uploader.sheet_cards o))
     = list_sum (map (fun k => List.length (default [] (JSObject.get k o)))
                   (JSObject.Object_keys o))
  /\ Forall (fun card =>
               JSObject.get (Uploader.card_name card) o <> None
               /\ Uploader.card_sample card
                  = firstn 2 (default [] (JSObject.get (Uploader.card_name card) o))
               /\ (List.length (Uploader.card_sample card) <= 2)%nat)
       (Uploader.sheet_cards o).
Proof.
  apply (sheet_cards_of_keys o (JSObject.Object_keys o)).
  intros k Hk. apply (Permutation_in _ (Object_keys_perm o) Hk).
Qed.

(** The preview that the browser builds from a successful response agrees
    with the data in it (the one request without a response is the delimited
    upload whose read stream ends the process).  For a delimited file it is the delimited preview,
    showing the number of parsed rows, the keys of the first row and the
    first three rows at most.  For a workbook it is the workbook preview:
    one card per key of the data object, in the order of the summary's
    [sheetNames], each with at most two sample rows, and the total shown is
    the sum of the row counts on the cards. *)
Theorem preview_agrees_with_response
    (env : Env) (req : option IncomingFile) (w : World) :
  (exists r,
    responses (trace (snd (Server.post_api_upload env req w)))
    = responses (trace w) ++ [r]
    /\ forall d info,
         data (body r) = Some d ->
         processingInfo (body r) = Some info ->
         match d with
         | Delimited rows =>
             Client.renderDataPreview (Some d) info
             = Client.DelimitedPreview
                 (List.length rows)
                 (List.length (match rows with
                               | first :: _ => JSObject.Object_keys first
                               | [] => []
                               end))
                 (match rows with
                  | first :: _ => JSObject.Object_keys first
                  | [] => []
                  end)
                 (firstn 3 rows)
         | Workbook o =>
             Client.renderDataPreview (Some d) info
             = Client.WorkbookPreview
                 (List.length (Uploader.sheet_cards o))
                 (list_sum (map Uploader.card_rows (Uploader.sheet_cards o)))
                 (map Uploader.card_name (Uploader.sheet_cards o))
             /\ sheetNames info
                = Some (map Uploader.card_name (Uploader.sheet_cards o))
             /\ Forall (fun card =>
                          (List.length (Uploader.card_sample card) <= 2)%nat)
                  (Uploader.sheet_cards o)
         end)
  \/ (exits_unanswered env req w
      /\ responses (trace (snd (Server.post_api_upload env req w)))
         = responses (trace w)).
Proof.
  destruct (route_responses env req w)
    as [(evs & r & Hout & Hresp) | Hexit]; [left | now right].
  exists r. split; [exact Hresp|].
  intros d info Hd Hinfo.
  destruct Hout as [ | | | | f pevs c _ _ _ Hp _ _ | f pevs c e _ _ _ _ _ _ ];
    try discriminate Hinfo.
  destruct c as [[d' i']|e]; [|discriminate Hinfo].
  simpl in Hd, Hinfo. inversion Hd. inversion Hinfo. subst d' i'.
  destruct (process_summary _ _ _ _ _ _ _ Hp) as (Htag & Hcases).
  simpl in Htag.
  destruct Hcases as [(rows & -> & Hext & Hrows & Hcols)
                     | (o & -> & Hext & Hcount & Hnames & Htotal)].
  - unfold Client.renderDataPreview. rewrite Htag, Hext, Hrows, Hcols.
    reflexivity.
  - destruct (sheet_cards_spec o) as (Hn & Hs & Hf).
    assert (Hlen : List.length (Uploader.sheet_cards o)
                   = List.length (JSObject.Object_keys o)).
    { rewrite <- (length_map Uploader.card_name). now rewrite Hn. }
    split_and!.
    + unfold Client.renderDataPreview. rewrite Htag, Hcount, Htotal.
      rewrite Hn, Hs, Hlen.
      destruct Hext as [<-|[<-|[]]]; reflexivity.
    + now rewrite Hn.
    + revert Hf. apply List.Forall_impl. intros card H. tauto.
Qed.

Lemma preview_witness :
  exists r o info,
    responses (trace (snd (Server.post_api_upload Demo.env_years
                             (Some Demo.xlsx_upload) Demo.world0))) = [r]
    /\ data (body r) = Some (Workbook o)
    /\ processingInfo (body r) = Some info
    /\ Client.renderDataPreview (Some (Workbook o)) info
       = Client.WorkbookPreview 2 8 ["2023"; "2024"].
Proof.
  destruct (preview_agrees_with_response Demo.env_years
              (Some Demo.xlsx_upload) Demo.world0)
    as [(r & Hr & Hprev) | [_ Hnone]];
    [|vm_compute in Hnone; discriminate Hnone].
  vm_compute in Hr. injection Hr as <-.
  eexists _, _, _. split; [vm_compute; reflexivity|]. split; [reflexivity|].
  split; [reflexivity|].
  destruct (Hprev _ _ eq_refl eq_refl) as (Hp & _).
  etransitivity; [exact Hp | reflexivity].
Defined.

(* ===================================================================== *)
(** * The extension of the stored file *)
(* ===================================================================== *)

Section ExtnameOfPlainNames.

Import Path.

Lemma plain_char_spec (c : ascii) :
  Shape.plain_char c = true ->
  Ascii.eqb c CHAR_DOT = false /\ Ascii.eqb c CHAR_FORWARD_SLASH = false.
Proof.
  unfold Shape.plain_char. intros H. apply andb_true_iff in H.
  destruct H as [H1 H2]. now apply negb_true_iff in H1, H2.
Qed.

(** Plain characters before any dot was seen: the end of the name is fixed
    by the first of them, nothing else changes. *)
Lemma scan_plain_no_dot (l : list ascii) :
  forallb Shape.plain_char l = true ->
  forall (i e : Z), e <> -1 ->
    scan_loop l i {| startDot := -1; startPart := 0; end_ := e;
                     matchedSlash := false; preDotState := 0 |}
    = {| startDot := -1; startPart := 0; end_ := e;
         matchedSlash := false; preDotState := 0 |}.
Proof.
  induction l as [|c r IH]; intros Hl i e He; simpl; [reflexivity|].
  simpl in Hl. apply andb_true_iff in Hl. destruct Hl as [Hc Hr].
  destruct (plain_char_spec c Hc) as [Hdot Hslash].
  rewrite Hslash. unfold scan_char. simpl.
  pose proof He as He'. apply Z.eqb_neq in He'.
  rewrite He', Hdot. simpl. now apply IH.
Qed.

Lemma scan_plain_fresh (l : list ascii) (i : Z) :
  forallb Shape.plain_char l = true -> 0 <= i ->
  scan_loop l i scan0
  = match l with
    | [] => scan0
    | _ :: _ => {| startDot := -1; startPart := 0; end_ := i + 1;
                   matchedSlash := false; preDotState := 0 |}
    end.
Proof.
  intros Hl Hi. destruct l as [|c r]; [reflexivity|].
  simpl in Hl. apply andb_true_iff in Hl. destruct Hl as [Hc Hr].
  destruct (plain_char_spec c Hc) as [Hdot Hslash].
  simpl. rewrite Hslash. unfold scan_char. simpl. rewrite Hdot. simpl.
  apply scan_plain_no_dot; [exact Hr | lia].
Qed.

(** Plain characters after the dot was seen: they only record that the dot
    has something before it. *)
Lemma scan_plain_after_dot (l : list ascii) :
  forallb Shape.plain_char l = true ->
  forall (i j e pds : Z), j <> -1 -> e <> -1 ->
    scan_loop l i {| startDot := j; startPart := 0; end_ := e;
                     matchedSlash := false; preDotState := pds |}
    = {| startDot := j; startPart := 0; end_ := e; matchedSlash := false;
         preDotState := match l with [] => pds | _ :: _ => -1 end |}.
Proof.
  induction l as [|c r IH]; intros Hl i j e pds Hj He; simpl; [reflexivity|].
  simpl in Hl. apply andb_true_iff in Hl. destruct Hl as [Hc Hr].
  destruct (plain_char_spec c Hc) as [Hdot Hslash].
  rewrite Hslash. unfold scan_char. simpl.
  pose proof He as He'. pose proof Hj as Hj'.
  apply Z.eqb_neq in He', Hj'. rewrite He', Hdot. simpl. rewrite Hj'. simpl.
  rewrite (IH Hr (i - 1) j e (-1) Hj He). now destruct r.
Qed.

Lemma scan_loop_app_plain (a b : list ascii) :
  forallb Shape.plain_char a = true ->
  forall (i : Z) (st : scan),
    scan_loop (a ++ b) i st
    = scan_loop b (i - Z.of_nat (List.length a))
        (fold_left (fun s ic => scan_char (fst ic) (snd ic) s)
           (combine (map (fun k => i - Z.of_nat k) (seq 0 (List.length a))) a)
           st).
Proof.
  induction a as [|c r IH]; intros Ha i st.
  - simpl. now rewrite Z.sub_0_r.
  - simpl in Ha. apply andb_true_iff in Ha. destruct Ha as [Hc Hr].
    destruct (plain_char_spec c Hc) as [_ Hslash].
    cbn [app scan_loop]. rewrite Hslash.
    rewrite (IH Hr). cbn [List.length seq map combine fold_left fst snd].
    rewrite Z.sub_0_r. f_equal; [lia|].
    rewrite <- seq_shift, map_map. f_equal. f_equal.
    apply map_ext. intros k. lia.
Qed.

Lemma scan_loop_as_fold (a : list ascii) :
  forallb Shape.plain_char a = true ->
  forall (i : Z) (st : scan),
    scan_loop a i st
    = fold_left (fun s ic => scan_char (fst ic) (snd ic) s)
        (combine (map (fun k => i - Z.of_nat k) (seq 0 (List.length a))) a)
        st.
Proof.
  intros Ha i st. rewrite <- (app_nil_r a) at 1.
  now rewrite (scan_loop_app_plain a [] Ha).
Qed.

(** A name made of a plain, non-empty base, a dot and a forallb Shape.plain_char rest has the
    dot and the rest as its extension. *)
Lemma extname_chars_simple (base rest : list ascii) :
  forallb Shape.plain_char base = true -> forallb Shape.plain_char rest = true -> base <> [] ->
  extname_chars (base ++ CHAR_DOT :: rest) = CHAR_DOT :: rest.
Proof.
  intros Hbase Hrest Hne. unfold extname_chars.
  set (len := Z.of_nat (List.length (base ++ CHAR_DOT :: rest))).
  assert (Hlen : len = Z.of_nat (List.length base) + 1
                       + Z.of_nat (List.length rest)).
  { unfold len. rewrite length_app. simpl. lia. }
  assert (Hrb : forallb Shape.plain_char (rev base) = true).
  { rewrite forallb_forall in *. intros c Hc. apply Hbase. now apply in_rev. }
  assert (Hrr : forallb Shape.plain_char (rev rest) = true).
  { rewrite forallb_forall in *. intros c Hc. apply Hrest. now apply in_rev. }
  assert (Hscan :
    scan_loop (rev (base ++ CHAR_DOT :: rest)) (len - 1) scan0
    = {| startDot := Z.of_nat (List.length base); startPart := 0;
         end_ := len; matchedSlash := false; preDotState := -1 |}).
  { rewrite rev_app_distr. simpl. rewrite <- app_assoc. simpl.
    rewrite (scan_loop_app_plain (rev rest) _ Hrr).
    rewrite <- (scan_loop_as_fold (rev rest) Hrr).
    rewrite scan_plain_fresh by (auto; lia).
    rewrite length_rev.
    replace (len - 1 - Z.of_nat (List.length rest))
      with (Z.of_nat (List.length base)) by lia.
    cbn [scan_loop]. change (Ascii.eqb CHAR_DOT CHAR_FORWARD_SLASH) with false.
    cbv iota.
    assert (Hdot : scan_char (Z.of_nat (List.length base)) CHAR_DOT
                     match rev rest with
                     | [] => scan0
                     | _ :: _ => {| startDot := -1; startPart := 0;
                                    end_ := len - 1 + 1;
                                    matchedSlash := false; preDotState := 0 |}
                     end
                   = {| startDot := Z.of_nat (List.length base);
                        startPart := 0; end_ := len;
                        matchedSlash := false; preDotState := 0 |}).
    { destruct (rev rest) eqn:Hr.
      - assert (List.length rest = 0%nat).
        { rewrite <- length_rev, Hr. reflexivity. }
        unfold scan_char. simpl. f_equal. lia.
      - unfold scan_char. simpl.
        destruct (len - 1 + 1 =? -1) eqn:E; [apply Z.eqb_eq in E; lia|].
        simpl. f_equal. lia. }
    rewrite Hdot.
    rewrite scan_plain_after_dot by (auto; lia).
    destruct (rev base) eqn:Hb; [|reflexivity].
    exfalso. apply Hne. apply (f_equal (@rev ascii)) in Hb.
    now rewrite rev_involutive in Hb. }
  rewrite Hscan. cbn [startDot end_ preDotState startPart].
  destruct (Z.of_nat (List.length base) =? -1) eqn:E1;
    [apply Z.eqb_eq in E1; lia|].
  destruct (len =? -1) eqn:E2; [apply Z.eqb_eq in E2; lia|].
  simpl. unfold slice.
  rewrite Nat2Z.id, skipn_app, skipn_all, Nat.sub_diag. simpl.
  replace (Z.to_nat (len - Z.of_nat (List.length base)))
    with (S (List.length rest)) by lia.
  simpl. now rewrite firstn_all.
Qed.

(** A plain name has no extension. *)
Lemma extname_chars_plain (l : list ascii) :
  forallb Shape.plain_char l = true -> extname_chars l = [].
Proof.
  intros Hl. unfold extname_chars.
  assert (Hrl : forallb Shape.plain_char (rev l) = true).
  { rewrite forallb_forall in *. intros c Hc. apply Hl. now apply in_rev. }
  destruct l as [|c r]; [reflexivity|].
  rewrite scan_plain_fresh by (auto; simpl; lia).
  destruct (rev (c :: r)) eqn:Hr; reflexivity.
Qed.

End ExtnameOfPlainNames.

Section ExtnameTail.

Import Path.
Variable chars : list ascii.

Lemma scan_char_tail_inv (i : Z) (code : ascii) (st : scan) :
  0 <= i ->
  nth_error chars (Z.to_nat i) = Some code ->
  Ascii.eqb code CHAR_FORWARD_SLASH = false ->
  Shape.scan_tail_inv chars i st ->
  Shape.scan_tail_inv chars (i - 1) (scan_char i code st).
Proof.
  intros Hi Hnth Hslash (Hms & Hsd & Hrange).
  assert (Hhere : Ascii.eqb code CHAR_DOT = false ->
                  forall c, nth_error chars (Z.to_nat i) = Some c ->
                            Shape.plain_char c = true).
  { intros Hdot c Hk. rewrite Hnth in Hk. inversion Hk. subst c.
    unfold Shape.plain_char. now rewrite Hdot, Hslash. }
  unfold scan_char.
  destruct (end_ st =? -1) eqn:Hend;
    [apply Z.eqb_eq in Hend | apply Z.eqb_neq in Hend].
  - assert (Hs : startDot st = -1).
    { destruct (Z.eq_dec (startDot st) (-1)); [assumption|].
      exfalso. now apply Hsd. }
    cbn [startDot end_ matchedSlash preDotState startPart]. rewrite Hs.
    destruct (Ascii.eqb code CHAR_DOT) eqn:Hdot; simpl.
    + split_and!; simpl; try discriminate; try lia.
      intros k c Hk Hc. destruct (i =? -1) eqn:E; lia.
    + split_and!; simpl; try discriminate; try lia.
      intros k c Hk Hc. assert (k = i) by lia. subst k. now apply Hhere.
  - destruct (Ascii.eqb code CHAR_DOT) eqn:Hdot.
    + destruct (startDot st =? -1) eqn:Hs.
      * split_and!; simpl; auto.
        intros k c Hk Hc. apply (Hrange k c); [|exact Hc].
        destruct (Z.eqb_spec i (-1)); lia.
      * destruct (negb (preDotState st =? 1)); split_and!; simpl; auto;
          intros k c Hk Hc; rewrite Hs in Hk; apply (Hrange k c); auto.
    + destruct (startDot st =? -1) eqn:Hs; simpl; split_and!; simpl; auto;
        intros k c Hk Hc; rewrite Hs in Hk.
      * destruct (Z.eq_dec k i) as [->|Hne].
        -- now apply Hhere.
        -- apply (Hrange k c); auto. lia.
      * apply (Hrange k c); auto.
Qed.

Lemma scan_loop_tail_inv (l : list ascii) :
  forall (post : list ascii) (i : Z) (st : scan),
    chars = rev l ++ post ->
    i = Z.of_nat (List.length l) - 1 ->
    Shape.scan_tail_inv chars i st ->
    exists j, Shape.scan_tail_inv chars j (scan_loop l i st).
Proof.
  induction l as [|code rest IH]; intros post i st Hchars Hi Hinv.
  - exists i. exact Hinv.
  - simpl in Hchars, Hi. rewrite <- app_assoc in Hchars. simpl in Hchars.
    assert (Hnth : nth_error chars (Z.to_nat i) = Some code).
    { replace (Z.to_nat i) with (List.length (rev rest))
        by (rewrite length_rev; lia).
      rewrite Hchars, nth_error_app2 by lia.
      now rewrite Nat.sub_diag. }
    simpl. destruct (Ascii.eqb code CHAR_FORWARD_SLASH) eqn:Hslash.
    + destruct (matchedSlash st) eqn:Hm; simpl.
      * apply (IH (code :: post)); [exact Hchars | lia |].
        destruct Hinv as (Hms & Hsd & Hrange).
        assert (He : end_ st = -1) by now apply Hms.
        split_and!; auto. intros k c Hk Hc. rewrite He in Hk.
        destruct (startDot st =? -1) eqn:E; [lia|].
        apply Z.eqb_neq in E. exfalso. now apply Hsd.
      * exists i. destruct Hinv as (Hms & Hsd & Hrange).
        split_and!; simpl; auto; try discriminate.
    + apply (IH (code :: post)); [exact Hchars | lia |].
      apply scan_char_tail_inv; auto. lia.
Qed.

(** The extension that [path.extname] returns is empty, or a dot followed
    by characters that are neither dots nor separators. *)
Lemma extname_chars_tail :
  extname_chars chars = []
  \/ exists rest,
       extname_chars chars = CHAR_DOT :: rest
       /\ forallb Shape.plain_char rest = true.
Proof.
  destruct (extname_chars_shape chars) as [H | [rest H]]; [now left|].
  right. exists rest. split; [exact H|].
  unfold extname_chars in H.
  set (st := scan_loop (rev chars) (Z.of_nat (List.length chars) - 1) scan0)
    in *.
  assert (Htail : exists j, Shape.scan_tail_inv chars j st).
  { apply (scan_loop_tail_inv (rev chars) []).
    - now rewrite rev_involutive, app_nil_r.
    - now rewrite length_rev.
    - split_and!; simpl; auto; try discriminate. intros k c Hk Hc. lia. }
  destruct Htail as [j0 Htail].
  assert (Hinv : scan_inv chars (-1) st).
  { apply (scan_loop_inv chars (rev chars) []).
    - now rewrite rev_involutive, app_nil_r.
    - now rewrite length_rev.
    - split; now left. }
  destruct ((startDot st =? -1) || (end_ st =? -1) || (preDotState st =? 0)
            || (preDotState st =? 1) && (startDot st =? end_ st - 1)
               && (startDot st =? startPart st + 1)) eqn:Hcond;
    [discriminate H|].
  apply orb_false_iff in Hcond. destruct Hcond as [Hcond _].
  apply orb_false_iff in Hcond. destruct Hcond as [Hcond _].
  apply orb_false_iff in Hcond. destruct Hcond as [Hs He].
  destruct Htail as (_ & _ & Hrange). rewrite Hs in Hrange.
  apply Z.eqb_neq in Hs, He.
  destruct Hinv as [_ [Hs' | [Hr _]]]; [contradiction|].
  apply forallb_forall. intros c Hc.
  apply In_nth_error in Hc. destruct Hc as [j Hj].
  assert (Hslice : nth_error (slice chars (startDot st) (end_ st)) (S j)
                   = Some c) by (rewrite H; exact Hj).
  unfold slice in Hslice.
  assert (Hlt : (S j < Z.to_nat (end_ st - startDot st))%nat).
  { destruct (Nat.lt_ge_cases (S j) (Z.to_nat (end_ st - startDot st)))
      as [Hlt|Hge]; [exact Hlt|].
    rewrite nth_error_firstn in Hslice.
    destruct (Nat.ltb_spec (S j) (Z.to_nat (end_ st - startDot st)));
      [lia | discriminate]. }
  rewrite nth_error_firstn in Hslice.
  destruct (Nat.ltb_spec (S j) (Z.to_nat (end_ st - startDot st))); [|lia].
  rewrite nth_error_skipn in Hslice.
  apply (Hrange (startDot st + Z.of_nat (S j)) c); [lia|].
  rewrite <- Hslice. f_equal. lia.
Qed.

End ExtnameTail.

Lemma list_ascii_of_string_app (a b : string) :
  list_ascii_of_string (a +:+ b)
  = list_ascii_of_string a ++ list_ascii_of_string b.
Proof.
  induction a as [|c a IH]; [reflexivity|].
  change (c :: list_ascii_of_string (a +:+ b)
          = c :: (list_ascii_of_string a ++ list_ascii_of_string b)).
  now rewrite IH.
Qed.

Lemma digit_is_plain (c : ascii) :
  Shape.is_digit c = true -> Shape.plain_char c = true.
Proof.
  destruct c as [[] [] [] [] [] [] [] []]; intros H;
    first [reflexivity | discriminate H].
Qed.

Lemma digits_are_plain (s : string) :
  Shape.all_digits s = true ->
  forallb Shape.plain_char (list_ascii_of_string s) = true.
Proof.
  induction s as [|c r IH]; simpl; [reflexivity|].
  intros H. apply andb_true_iff in H. destruct H as [Hc Hr].
  rewrite (digit_is_plain c Hc). simpl. now apply IH.
Qed.

(** The file that multer writes carries the extension of the uploaded
    file: [path.extname] of the generated name is [path.extname] of the
    original name, also when that is empty. *)
Theorem stored_file_keeps_extension (env : Env) (f : IncomingFile) :
  in_fieldname f = "file" ->
  Path.extname (filename (Server.stored_file env f))
  = Path.extname (in_originalname f).
Proof.
  intros Hfield. simpl. unfold Server.storage_filename. rewrite Hfield.
  set (ext := Path.extname (in_originalname f)).
  set (base := "file" +:+ "-" +:+ of_N (date_now env) +:+ "-"
               +:+ of_N (random_1e9 env)).
  assert (Hname : "file" +:+ "-"
                  +:+ (of_N (date_now env) +:+ "-" +:+ of_N (random_1e9 env))
                  +:+ ext
                  = base +:+ ext).
  { unfold base. simpl. now rewrite !append_assoc. }
  rewrite Hname. clear Hname.
  assert (Hbase : forallb Shape.plain_char (list_ascii_of_string base) = true).
  { unfold base. rewrite !list_ascii_of_string_app, !forallb_app.
    rewrite (digits_are_plain (of_N (date_now env))) by apply of_N_digits.
    rewrite (digits_are_plain (of_N (random_1e9 env))) by apply of_N_digits.
    reflexivity. }
  assert (Hne : list_ascii_of_string base <> []).
  { unfold base. simpl. discriminate. }
  unfold Path.extname at 1. rewrite list_ascii_of_string_app.
  assert (Hext : list_ascii_of_string ext
                 = Path.extname_chars (list_ascii_of_string (in_originalname f))).
  { unfold ext, Path.extname. apply list_ascii_of_string_of_list_ascii. }
  destruct (extname_chars_tail (list_ascii_of_string (in_originalname f)))
    as [Hnil | (rest & Hdot & Hrest)].
  - rewrite Hext, Hnil, app_nil_r, (extname_chars_plain _ Hbase).
    unfold ext, Path.extname. now rewrite Hnil.
  - rewrite Hext, Hdot, (extname_chars_simple _ _ Hbase Hrest Hne).
    unfold ext, Path.extname. now rewrite Hdot.
Qed.

Lemma stored_file_keeps_extension_witness :
  Path.extname (filename (Server.stored_file Demo.env_abc
                            (Demo.upload "Quarter.Report.XLSX" "text/plain" 9)))
  = ".XLSX".
Proof.
  rewrite (stored_file_keeps_extension Demo.env_abc
             (Demo.upload "Quarter.Report.XLSX" "text/plain" 9) eq_refl).
  reflexivity.
Defined.

(* ===================================================================== *)
(** * The summary *)
(* ===================================================================== *)

Lemma process_keeps_fields env file ext info evs d i :
  reads_only (Server.process env file ext info) evs (Normal (d, i)) ->
  fileName i = fileName info
  /\ fileSize i = fileSize info
  /\ processedAt i = processedAt info
  /\ match d with
     | Delimited _ =>
         sheetCount i = sheetCount info
         /\ sheetNames i = sheetNames info
         /\ totalRows i = totalRows info
         /\ rowCount i <> None /\ columns i <> None
     | Workbook _ =>
         rowCount i = rowCount info
         /\ columns i = columns info
         /\ sheetCount i <> None /\ sheetNames i <> None /\ totalRows i <> None
     end.
Proof.
  intros Hrun.
  specialize (Hrun {| files := ∅; trace := [] |}).
  unfold Server.process in Hrun.
  destruct (String.eqb ext ".csv").
  - unfold bind in Hrun.
    destruct (csvParser env (path file)) as [[rows|e]|e] eqn:Hc;
      [ rewrite (processCSV_reads env (path file) _ Hc) in Hrun
      | rewrite (processCSV_reads env (path file) _ Hc) in Hrun;
        discriminate Hrun
      | rewrite (processCSV_exits env (path file) _ Hc) in Hrun;
        discriminate Hrun ].
    unfold ret in Hrun. inversion Hrun. subst. simpl.
    split_and!; auto; discriminate.
  - destruct (includes [".xlsx"; ".xls"] ext).
    + destruct (processExcel_completion env (path file)) as (c0 & Ho & _).
      unfold bind in Hrun. rewrite Ho in Hrun.
      destruct c0 as [o|e]; [|discriminate Hrun].
      destruct (sum_rows_of_keys o (JSObject.Object_keys o) 0%nat)
        as [total Hs].
      { intros k Hk. apply (Permutation_in _ (Object_keys_perm o) Hk). }
      rewrite Hs in Hrun. unfold ret in Hrun. inversion Hrun. subst. simpl.
      split_and!; auto; discriminate.
    + unfold throw in Hrun. discriminate Hrun.
Qed.

(** The summary of a successful response is never half filled: it names
    the uploaded file and the time of processing, and it carries either the
    row count and the columns (for delimited data) and none of the sheet
    fields, or the three sheet fields (for a workbook) and neither row count
    nor columns.  (The one request without a response is the delimited
    upload whose read stream ends the process.) *)
Theorem summary_has_exactly_one_family_of_counts
    (env : Env) (req : option IncomingFile) (w : World) :
  (exists r,
    responses (trace (snd (Server.post_api_upload env req w)))
    = responses (trace w) ++ [r]
    /\ forall info,
         processingInfo (body r) = Some info ->
         exists f d,
           req = Some f
           /\ data (body r) = Some d
           /\ fileName info = in_originalname f
           /\ processedAt info = now_iso env
           /\ match d with
              | Delimited _ =>
                  rowCount info <> None /\ columns info <> None
                  /\ sheetCount info = None /\ sheetNames info = None
                  /\ totalRows info = None
              | Workbook _ =>
                  sheetCount info <> None /\ sheetNames info <> None
                  /\ totalRows info <> None
                  /\ rowCount info = None /\ columns info = None
              end)
  \/ (exits_unanswered env req w
      /\ responses (trace (snd (Server.post_api_upload env req w)))
         = responses (trace w)).
Proof.
  destruct (route_responses env req w)
    as [(evs & r & Hout & Hresp) | Hexit]; [left | now right].
  exists r. split; [exact Hresp|].
  intros info Hinfo.
  destruct Hout as [ | | | | f pevs c _ _ _ Hp _ _ | f pevs c e _ _ _ _ _ _ ];
    try discriminate Hinfo.
  destruct c as [[d i]|e]; [|discriminate Hinfo].
  simpl in Hinfo. inversion Hinfo. subst i.
  destruct (process_keeps_fields _ _ _ _ _ _ _ Hp) as (Hn & _ & Ht & Hd).
  exists f, d. split_and!; auto.
  destruct d; simpl in Hd; tauto.
Qed.

Lemma summary_witness :
  exists r info,
    responses (trace (snd (Server.post_api_upload Demo.env_named
                             (Some Demo.xlsx_upload) Demo.world0))) = [r]
    /\ processingInfo (body r) = Some info
    /\ rowCount info = None
    /\ sheetCount info = Some 2%nat.
Proof.
  destruct (summary_has_exactly_one_family_of_counts Demo.env_named
              (Some Demo.xlsx_upload) Demo.world0)
    as [(r & Hr & Hsum) | [_ Hnone]];
    [|vm_compute in Hnone; discriminate Hnone].
  vm_compute in Hr. injection Hr as <-.
  eexists _, _. split; [vm_compute; reflexivity|]. split; [reflexivity|].
  destruct (Hsum _ eq_refl) as (f & d & _ & Hd & _ & _ & Hfam).
  simpl in Hd. inversion Hd. subst d. simpl in Hfam.
  split; [tauto | reflexivity].
Defined.

(* ===================================================================== *)
(** * The type check on ordinary file names *)
(* ===================================================================== *)

Lemma lower_char_plain (c : ascii) :
  Shape.plain_char (lower_char c) = true -> Shape.plain_char c = true.
Proof.
  destruct c as [[] [] [] [] [] [] [] []]; intros H;
    first [reflexivity | discriminate H].
Qed.

Lemma toLowerCase_plain (s : string) :
  forallb Shape.plain_char (list_ascii_of_string (toLowerCase s)) = true ->
  forallb Shape.plain_char (list_ascii_of_string s) = true.
Proof.
  induction s as [|c r IH]; [reflexivity|].
  change (Shape.plain_char (lower_char c)
          && forallb Shape.plain_char (list_ascii_of_string (toLowerCase r))
          = true ->
          Shape.plain_char c && forallb Shape.plain_char (list_ascii_of_string r)
          = true).
  intros H. apply andb_true_iff in H. destruct H as [Hc Hr].
  rewrite (lower_char_plain c Hc). simpl. now apply IH.
Qed.

(** [path.extname] of [base.ext], for a non-empty base and an extension
    without dot or separator in either. *)
Lemma extname_of_simple_name (base ext : string) :
  forallb Shape.plain_char (list_ascii_of_string base) = true ->
  forallb Shape.plain_char (list_ascii_of_string ext) = true ->
  base <> "" ->
  Path.extname (base +:+ "." +:+ ext) = "." +:+ ext.
Proof.
  intros Hbase Hext Hne. unfold Path.extname.
  rewrite list_ascii_of_string_app.
  change (list_ascii_of_string ("." +:+ ext))
    with (Path.CHAR_DOT :: list_ascii_of_string ext).
  rewrite extname_chars_simple; auto.
  - change (String "." (string_of_list_ascii (list_ascii_of_string ext))
            = String "." ext).
    now rewrite string_of_list_ascii_of_string.
  - destruct base; [contradiction | discriminate].
Qed.

(** On ordinary file names the server's type check does what a user
    expects.  A name [base.ext] whose base is not empty and holds no dot or
    separator, and whose extension is csv, xls or xlsx in any mix of upper
    and lower case, is accepted whatever MIME type the browser declares, and
    the handler will dispatch on the lower-cased extension.  A name without
    any dot or separator has no extension and is accepted only for an
    allowed MIME type. *)
Theorem fileFilter_on_ordinary_names
    (field base ext mime : string) (bytes : N) :
  forallb Shape.plain_char (list_ascii_of_string base) = true ->
  (base <> "" ->
   In (toLowerCase ext) ["csv"; "xls"; "xlsx"] ->
   extension_of (base +:+ "." +:+ ext) = "." +:+ toLowerCase ext
   /\ Server.fileFilter
        {| in_fieldname := field; in_originalname := base +:+ "." +:+ ext;
           in_mimetype := mime; in_size := bytes |} = Normal true)
  /\ extension_of base = ""
  /\ (Server.fileFilter
        {| in_fieldname := field; in_originalname := base;
           in_mimetype := mime; in_size := bytes |} = Normal true
      <-> In mime Server.allowedTypes).
Proof.
  intros Hbase.
  assert (Hnone : extension_of base = "").
  { unfold extension_of, Path.extname.
    now rewrite (extname_chars_plain _ Hbase). }
  split_and!.
  - intros Hne Hext.
    assert (Hplain : forallb Shape.plain_char (list_ascii_of_string ext) = true).
    { apply toLowerCase_plain.
      destruct Hext as [<-|[<-|[<-|[]]]]; reflexivity. }
    assert (Hname : extension_of (base +:+ "." +:+ ext)
                    = "." +:+ toLowerCase ext).
    { unfold extension_of. rewrite extname_of_simple_name by assumption.
      reflexivity. }
    split; [exact Hname|].
    apply fileFilter_of_extension. simpl. rewrite Hname.
    destruct Hext as [<-|[<-|[<-|[]]]]; simpl; auto.
  - exact Hnone.
  - unfold Server.fileFilter. cbn [in_mimetype in_originalname].
    fold (extension_of base). rewrite Hnone.
    rewrite <- (includes_In Server.allowedTypes).
    destruct (includes Server.allowedTypes mime); simpl;
      split; auto; discriminate.
Qed.

Lemma fileFilter_on_ordinary_names_witness :
  extension_of "Q3-Report.XlsX" = ".xlsx"
  /\ Server.fileFilter (Demo.upload "Q3-Report.XlsX" "application/zip" 10)
     = Normal true.
Proof.
  destruct (fileFilter_on_ordinary_names "file" "Q3-Report" "XlsX"
              "application/zip" 10 eq_refl) as (H & _ & _).
  apply H.
  - discriminate.
  - right. right. left. reflexivity.
Defined.
